(** * Meridiano: the collections panel controller (static/js/index.js)

  A shallow embedding of the page script: the date-filter toggle, the
  per-article collections menu with its lazy load, and the document-level
  click listener that performs add/remove actions and closes menus.

  The script is event-driven DOM manipulation, so the embedding has

  - the DOM as a tree of elements; every element carries an identity
    ([nid]), the counterpart of a JavaScript object reference, so that a
    handler suspended at an [await] still refers to the same element when
    it resumes, also when the element has been detached meanwhile;
  - the handlers as programs of a small monad [M] that threads the page,
    collects the observable effects in order (requests, console, alerts)
    and propagates exceptions, with [try_catch] for the source's
    try/catch;
  - every [await] as a split: the part of a handler before its first
    [await] ends by emitting [Fetch request continuation]; the part after
    it is [resume], run when the event loop settles the request.

  The script assigns HTML text to [innerHTML]; the browser parses it.  The
  templates are embedded twice: as the exact text the source builds
  ([*_html]) and as the element tree that text denotes ([*_markup]), with
  [html_of] printing the second into the first.  The strings the server
  supplies (collection names and ids) are taken to be inert text: [html_of]
  prints them as they are, as the template literals do. *)

From Stdlib Require Import List String Ascii Bool Arith Lia DecimalString.
Import ListNotations.
Open Scope string_scope.

Set Implicit Arguments.

(* ------------------------------------------------------------------ *)
(** ** Strings *)

Module Str.

(** The double quote, for attribute values in HTML text. *)
Definition dq : string := String (ascii_of_nat 34) EmptyString.

(** Decimal rendering of a number inside a template literal. *)
Definition of_nat (n : nat) : string := NilEmpty.string_of_uint (Nat.to_uint n).

(** Cut a string at every character satisfying [sep]; the pieces between
    two cuts may be empty, and there is always at least one piece. *)
Fixpoint split_on (sep : ascii -> bool) (s : string) : list string :=
  match s with
  | EmptyString => [EmptyString]
  | String c rest =>
      if sep c then EmptyString :: split_on sep rest
      else match split_on sep rest with
           | piece :: pieces => String c piece :: pieces
           | [] => [String c EmptyString]
           end
  end.

(** [s.split(c)] for a one-character separator. *)
Definition split (c : ascii) (s : string) : list string := split_on (Ascii.eqb c) s.

(** [array.pop()] as a value: the last element, [undefined] on an empty array. *)
Definition pop (l : list string) : option string :=
  match rev l with
  | [] => None
  | x :: _ => Some x
  end.

(** ASCII whitespace, which separates the tokens of a class attribute. *)
Definition is_space (c : ascii) : bool :=
  existsb (Ascii.eqb c) [" "%char; "009"%char; "010"%char; "012"%char; "013"%char].

Definition nonempty (s : string) : bool :=
  match s with
  | EmptyString => false
  | String _ _ => true
  end.

Definition tokens (s : string) : list string := filter nonempty (split_on is_space s).

(** Interpolation of a possibly undefined value into a template literal. *)
Definition interp (o : option string) : string :=
  match o with
  | Some s => s
  | None => "undefined"
  end.

(** JavaScript truthiness of a possibly undefined string. *)
Definition truthy (o : option string) : bool :=
  match o with
  | Some s => nonempty s
  | None => false
  end.

Definition has_char (c : ascii) (s : string) : bool :=
  existsb (Ascii.eqb c) (list_ascii_of_string s).

End Str.

(* ------------------------------------------------------------------ *)
(** ** The DOM *)

Module Dom.

(** Attributes, in source order. *)
Definition attrs := list (string * string).

Fixpoint get_attr (k : string) (a : attrs) : option string :=
  match a with
  | [] => None
  | (k', v) :: a' => if k' =? k then Some v else get_attr k a'
  end.

(** Setting an attribute overwrites it in place or appends it. *)
Fixpoint set_attr (k v : string) (a : attrs) : attrs :=
  match a with
  | [] => [(k, v)]
  | (k', v') :: a' => if k' =? k then (k, v) :: a' else (k', v') :: set_attr k v a'
  end.

(** What an element is, apart from its children.  [display] is
    [style.display], the inline value (empty when the element has none);
    [value] is the [value] property, undefined on elements that have none. *)
Record props := Props {
  nid : nat;
  tag : string;
  attributes : attrs;
  display : string;
  value : option string
}.

Unset Elimination Schemes.
Inductive node : Type :=
| Text (s : string)
| Elem (p : props) (kids : list node).
Set Elimination Schemes.

(** Induction over a tree whose children sit in a list. *)
Section NodeInd.
Variable P : node -> Prop.
Hypothesis P_text : forall s, P (Text s).
Hypothesis P_elem : forall p kids, Forall P kids -> P (Elem p kids).

Fixpoint node_ind (n : node) : P n :=
  match n with
  | Text s => P_text s
  | Elem p kids =>
      P_elem p
        ((fix all (l : list node) : Forall P l :=
            match l with
            | [] => Forall_nil P
            | k :: l' => Forall_cons k (node_ind k) (all l')
            end) kids)
  end.
End NodeInd.

(** A nullable element reference. *)
Definition ref := nat.

Definition with_display (d : string) (p : props) : props :=
  Props (nid p) (tag p) (attributes p) d (value p).

Definition with_attr (k v : string) (p : props) : props :=
  Props (nid p) (tag p) (set_attr k v (attributes p)) (display p) (value p).

(** [element.id]: the id attribute, empty when there is none. *)
Definition id_of (p : props) : string :=
  match get_attr "id" (attributes p) with
  | Some s => s
  | None => EmptyString
  end.

Definition classList (p : props) : list string :=
  match get_attr "class" (attributes p) with
  | Some s => Str.tokens s
  | None => []
  end.

(** [element.matches('.c')]. *)
Definition has_class (c : string) (p : props) : bool :=
  existsb (String.eqb c) (classList p).

(** [element.dataset.x], with the key in its attribute spelling:
    [dataset.collectionId] is [dataset_get "collection-id"]. *)
Definition dataset_get (k : string) (p : props) : option string :=
  get_attr ("data-" ++ k) (attributes p).

(** The first result of [f] over a list, left to right. *)
Section FirstSome.
Variables A B : Type.
Variable f : A -> option B.
Fixpoint first_some (l : list A) : option B :=
  match l with
  | [] => None
  | x :: l' =>
      match f x with
      | Some y => Some y
      | None => first_some l'
      end
  end.
End FirstSome.

(** The elements of a subtree in document order, the root first. *)
Fixpoint elems (n : node) : list props :=
  match n with
  | Text _ => []
  | Elem p kids => p :: flat_map elems kids
  end.

Definition elems_of (l : list node) : list props := flat_map elems l.

(** The first element with id [x]; no element has the empty id. *)
Definition by_id (x : string) (n : node) : option props :=
  if Str.nonempty x then find (fun p => id_of p =? x) (elems n) else None.

(** The element with identity [r], the outermost and leftmost one. *)
Fixpoint find_node (r : ref) (n : node) : option node :=
  match n with
  | Text _ => None
  | Elem p kids => if Nat.eqb (nid p) r then Some n else first_some (find_node r) kids
  end.

(** The chain from the element [r] up to the root of the tree: the
    element itself first, then its parent, and so on. *)
Fixpoint chain (r : ref) (n : node) : option (list props) :=
  match n with
  | Text _ => None
  | Elem p kids =>
      if Nat.eqb (nid p) r then Some [p]
      else match first_some (chain r) kids with
           | Some c => Some (c ++ [p])%list
           | None => None
           end
  end.

(** Rewrite what every element is, leaving the shape of the tree alone. *)
Fixpoint map_props (g : props -> props) (n : node) : node :=
  match n with
  | Text s => Text s
  | Elem p kids => Elem (g p) (map (map_props g) kids)
  end.

Definition at_ref (r : ref) (f : props -> props) (p : props) : props :=
  if Nat.eqb (nid p) r then f p else p.

(** Apply [f] to the element with identity [r]. *)
Definition update_props (r : ref) (f : props -> props) : node -> node :=
  map_props (at_ref r f).

(** Replace the children of the element with identity [r]. *)
Fixpoint set_kids (r : ref) (new : list node) (n : node) : node :=
  match n with
  | Text s => Text s
  | Elem p kids =>
      if Nat.eqb (nid p) r then Elem p new else Elem p (map (set_kids r new) kids)
  end.

(** [node.textContent]: the text of the subtree, in document order. *)
Fixpoint textContent (n : node) : string :=
  match n with
  | Text s => s
  | Elem _ kids => String.concat EmptyString (map textContent kids)
  end.

Definition is_text (n : node) : bool :=
  match n with
  | Text _ => true
  | Elem _ _ => false
  end.

(** [e.querySelector('.c')]: the first descendant of class [c] (the
    element itself is not a candidate). *)
Fixpoint first_with_class (c : string) (n : node) : option props :=
  match n with
  | Text _ => None
  | Elem p kids => if has_class c p then Some p else first_some (first_with_class c) kids
  end.

Definition querySelector_class (c : string) (n : node) : option props :=
  match n with
  | Text _ => None
  | Elem _ kids => first_some (first_with_class c) kids
  end.

(** The selector [span:first-child] below a node: [first] says whether the
    node is the first element among its parent's children. *)
Fixpoint span_first_child (first : bool) (n : node) : option node :=
  match n with
  | Text _ => None
  | Elem p kids =>
      if first && (tag p =? "span") then Some n
      else (fix scan (first : bool) (l : list node) : option node :=
              match l with
              | [] => None
              | k :: l' =>
                  match span_first_child first k with
                  | Some x => Some x
                  | None => scan (first && is_text k) l'
                  end
              end) true kids
  end.

(** [e.querySelector('span:first-child')]. *)
Definition querySelector_span_first_child (n : node) : option node :=
  match n with
  | Text _ => None
  | Elem _ _ => span_first_child false n
  end.

(** The selector [.a .b] from the root: the first element of class [b]
    with a proper ancestor of class [a]. *)
Fixpoint descendant_of_class (a b : string) (inside : bool) (n : node) : option props :=
  match n with
  | Text _ => None
  | Elem p kids =>
      if inside && has_class b p then Some p
      else first_some (descendant_of_class a b (inside || has_class a p)) kids
  end.

End Dom.

(* ------------------------------------------------------------------ *)
(** ** HTML text and the tree it denotes *)

Module Html.

Import Str.

Unset Elimination Schemes.
Inductive markup : Type :=
| MText (s : string)
| MElem (t : string) (a : Dom.attrs) (kids : list markup).
Set Elimination Schemes.

Section MarkupInd.
Variable P : markup -> Prop.
Hypothesis P_text : forall s, P (MText s).
Hypothesis P_elem : forall t a kids, Forall P kids -> P (MElem t a kids).

Fixpoint markup_ind (m : markup) : P m :=
  match m with
  | MText s => P_text s
  | MElem t a kids =>
      P_elem t a
        ((fix all (l : list markup) : Forall P l :=
            match l with
            | [] => Forall_nil P
            | k :: l' => Forall_cons k (markup_ind k) (all l')
            end) kids)
  end.
End MarkupInd.

Definition print_attr (kv : string * string) : string :=
  " " ++ fst kv ++ "=" ++ dq ++ snd kv ++ dq.

(** The HTML text of a tree: attributes in order, values in double quotes,
    text as it is. *)
Fixpoint html_of (m : markup) : string :=
  match m with
  | MText s => s
  | MElem t a kids =>
      "<" ++ t ++ String.concat EmptyString (map print_attr a) ++ ">"
          ++ String.concat EmptyString (map html_of kids)
          ++ "</" ++ t ++ ">"
  end.


(** The text node an interpolated string parses to: none when it is empty. *)
Definition text (s : string) : list markup :=
  if nonempty s then [MText s] else [].

(** Parsing creates new elements: each one gets the next unused identity,
    no inline display and no [value]. *)
Fixpoint build (n : nat) (m : markup) : Dom.node * nat :=
  match m with
  | MText s => (Dom.Text s, n)
  | MElem t a kids =>
      let (kids', n') :=
        (fix all (n : nat) (l : list markup) : list Dom.node * nat :=
           match l with
           | [] => ([], n)
           | k :: l' =>
               let (k', n1) := build n k in
               let (r, n2) := all n1 l' in
               (k' :: r, n2)
           end) (S n) kids in
      (Dom.Elem (Dom.Props n t a EmptyString None) kids', n')
  end.

Fixpoint build_all (n : nat) (l : list markup) : list Dom.node * nat :=
  match l with
  | [] => ([], n)
  | k :: l' =>
      let (k', n1) := build n k in
      let (r, n2) := build_all n1 l' in
      (k' :: r, n2)
  end.






(** The elements of a markup tree, as their attribute lists in document order. *)
Fixpoint attrs_in (m : markup) : list Dom.attrs :=
  match m with
  | MText _ => []
  | MElem _ a kids => a :: flat_map attrs_in kids
  end.

Definition attrs_in_all (l : list markup) : list Dom.attrs := flat_map attrs_in l.

(** Markup that declares no id. *)
Definition idless (ms : list markup) : Prop :=
  Forall (fun a => Dom.get_attr "id" a = None) (attrs_in_all ms).

(** What was built, as markup again: the tree without identities. *)
Fixpoint markup_of (n : Dom.node) : markup :=
  match n with
  | Dom.Text s => MText s
  | Dom.Elem p kids => MElem (Dom.tag p) (Dom.attributes p) (map markup_of kids)
  end.

End Html.

(* ------------------------------------------------------------------ *)
(** ** The page and the handler monad *)

Module Js.

Import Dom.

(** The document, the subtrees that were removed from it (a suspended
    handler may still hold a reference into one), and the next unused
    element identity. *)
Record page := Page {
  document : node;
  detached : list node;
  fresh : nat
}.

Inductive exn : Type :=
| TypeError                   (* a property of null or undefined was read *)
| SyntaxError                 (* response.json() found no JSON *)
| Rejection (reason : string) (* fetch() itself failed *)
| Error (msg : string)        (* thrown by the script: new Error(msg) *)
| NoSuchNode.                 (* a reference to no element of the page *)

Inductive method : Type := GET | POST.

Record request := Request {
  url : string;
  meth : method;
  headers : list (string * string);
  body : option (list (string * string))   (* the fields of a JSON object *)
}.

Inductive action : Type := Add | Remove.

(** What a handler needs after its [await]: the variables it captured. *)
Inductive cont : Type :=
| AwaitStatus (contentDiv : ref) (articleId : option string)
| AwaitAction (target : ref) (act : action) (collectionId articleId : option string).

Inductive effect : Type :=
| StopPropagation
| PreventDefault
| Fetch (rq : request) (k : cont)
| ConsoleError (label : string) (e : exn)
| Alert (msg : string)
| AddClickListener.

Inductive result (A : Type) : Type :=
| Return (a : A)
| Throw (e : exn).
Arguments Return {A} a.
Arguments Throw {A} e.

(** A handler: from the page to a result, the page it leaves and the
    effects it had, in order. *)
Definition M (A : Type) : Type := page -> result A * page * list effect.

Definition ret {A} (a : A) : M A := fun pg => (Return a, pg, []).

Definition bind {A B} (m : M A) (k : A -> M B) : M B :=
  fun pg =>
    match m pg with
    | (Return a, pg1, out1) =>
        match k a pg1 with
        | (r, pg2, out2) => (r, pg2, (out1 ++ out2)%list)
        end
    | (Throw e, pg1, out1) => (Throw e, pg1, out1)
    end.

Definition throw {A} (e : exn) : M A := fun pg => (Throw e, pg, []).

Definition emit (e : effect) : M unit := fun pg => (Return tt, pg, [e]).

Definition read {A} (f : page -> A) : M A := fun pg => (Return (f pg), pg, []).

Definition write (f : page -> page) : M unit := fun pg => (Return tt, f pg, []).

(** try { m } catch (error) { h error } *)
Definition try_catch {A} (m : M A) (h : exn -> M A) : M A :=
  fun pg =>
    match m pg with
    | (Return a, pg1, out1) => (Return a, pg1, out1)
    | (Throw e, pg1, out1) =>
        match h e pg1 with
        | (r, pg2, out2) => (r, pg2, (out1 ++ out2)%list)
        end
    end.

Declare Scope js_scope.
Delimit Scope js_scope with js.
Notation "x <- m ;; k" := (bind m (fun x => k))
  (at level 61, m at next level, right associativity) : js_scope.
Notation "m ;; k" := (bind m (fun _ => k))
  (at level 61, right associativity) : js_scope.
Open Scope js_scope.

Fixpoint forEach {A} (l : list A) (f : A -> M unit) : M unit :=
  match l with
  | [] => ret tt
  | x :: l' => f x ;; forEach l' f
  end.

(** *** Reading the page *)

Definition lookup (r : ref) (pg : page) : option node :=
  match find_node r (document pg) with
  | Some n => Some n
  | None => first_some (find_node r) (detached pg)
  end.

Definition props_of (n : node) : option props :=
  match n with
  | Text _ => None
  | Elem p _ => Some p
  end.

Definition kids_of (n : node) : list node :=
  match n with
  | Text _ => []
  | Elem _ kids => kids
  end.

(** The element behind a reference. *)
Definition element (r : ref) : M node :=
  fun pg =>
    match lookup r pg with
    | Some n => (Return n, pg, [])
    | None => (Throw NoSuchNode, pg, [])
    end.

Definition the_props (r : ref) : M props :=
  n <- element r ;;
  match props_of n with
  | Some p => ret p
  | None => throw NoSuchNode
  end.

(** Reading a property of a nullable reference. *)
Definition deref (o : option ref) : M ref :=
  match o with
  | Some r => ret r
  | None => throw TypeError
  end.

Definition getElementById (x : string) : M (option ref) :=
  read (fun pg => option_map nid (by_id x (document pg))).

(** [document.querySelectorAll('.c')]: a static list, in document order. *)
Definition querySelectorAll (c : string) : M (list ref) :=
  read (fun pg => map nid (filter (has_class c) (elems (document pg)))).

(** [document.querySelector('.a .b')]. *)
Definition querySelector_descendant (a b : string) : M (option ref) :=
  read (fun pg => option_map nid (descendant_of_class a b false (document pg))).

Definition querySelector (c : string) (r : ref) : M (option ref) :=
  n <- element r ;; ret (option_map nid (querySelector_class c n)).

Definition get_id (r : ref) : M string := p <- the_props r ;; ret (id_of p).

Definition style_display (r : ref) : M string := p <- the_props r ;; ret (display p).

Definition get_value (r : ref) : M (option string) := p <- the_props r ;; ret (value p).

Definition dataset (k : string) (r : ref) : M (option string) :=
  p <- the_props r ;; ret (dataset_get k p).

Definition matches (c : string) (r : ref) : M bool :=
  p <- the_props r ;; ret (has_class c p).

(** The chain of [r] in the tree it lives in. *)
Definition chain_in (r : ref) (pg : page) : option (list props) :=
  match chain r (document pg) with
  | Some c => Some c
  | None => first_some (chain r) (detached pg)
  end.

(** [r.closest('.c')]: the element itself or its nearest ancestor of class [c]. *)
Definition closest (c : string) (r : ref) : M (option ref) :=
  fun pg =>
    match chain_in r pg with
    | Some ch => (Return (option_map nid (find (has_class c) ch)), pg, [])
    | None => (Throw NoSuchNode, pg, [])
    end.

(** *** Writing the page *)

Definition everywhere (f : node -> node) (pg : page) : page :=
  Page (f (document pg)) (map f (detached pg)) (fresh pg).

Definition set_style_display (r : ref) (d : string) : M unit :=
  write (everywhere (update_props r (with_display d))).

Definition set_dataset (k : string) (r : ref) (v : string) : M unit :=
  write (everywhere (update_props r (with_attr ("data-" ++ k) v))).

(** [r.innerHTML = html]: the children of [r] leave the tree and the
    parsed fragment takes their place. *)
Definition replace_children (r : ref) (ms : list Html.markup) (pg : page) : page :=
  let (new, next) := Html.build_all (fresh pg) ms in
  let old := match lookup r pg with
             | Some n => kids_of n
             | None => []
             end in
  Page (set_kids r new (document pg))
       (map (set_kids r new) (detached pg) ++ old)%list
       next.

Definition set_innerHTML (r : ref) (ms : list Html.markup) : M unit :=
  write (replace_children r ms).

(** [r.textContent = s]. *)
Definition set_textContent (r : ref) (s : string) : M unit :=
  write (replace_children r (Html.text s)).

End Js.

(* ------------------------------------------------------------------ *)
(** ** The script *)

Module Script.

Import Str Dom Html Js.

(** *** What the server answers *)

(** An entry of [data.collections]; [c_id] is the identifier as a template
    literal prints it. *)
Record collection := Collection {
  c_id : string;
  c_name : string;
  c_contains : bool
}.

(** The JSON body of either endpoint. *)
Record payload := Payload {
  status : string;
  message : option string;
  collections : option (list collection)
}.

(** How a request settles: [fetch] rejects, or a response arrives with its
    [ok] flag, its status code and, when [response.json()] succeeds, its body. *)
Inductive outcome : Type :=
| Failed (reason : string)
| Responded (ok : bool) (code : nat) (data : option payload).

(** *** The templates, as the text the source builds (lines 51-58, 67, 111-112) *)






Definition error_html : string :=
  "<div class=" ++ dq ++ "error-message" ++ dq ++ ">Error loading.</div>".


(** *** The same templates, as the trees the text denotes *)

(** The button that removes ([Remove]) or adds ([Add]). *)
Definition button_markup (variant : action) (cid aid name : string) : markup :=
  match variant with
  | Remove =>
      MElem "button"
        [("class", "btn btn-clear btn-remove-from-collection");
         ("data-collection-id", cid); ("data-article-id", aid);
         ("title", "Remove from " ++ name)]
        [MElem "i" [("class", "fas fa-minus")] []]
  | Add =>
      MElem "button"
        [("class", "btn btn-filter btn-add-to-collection");
         ("data-collection-id", cid); ("data-article-id", aid);
         ("title", "Add to " ++ name)]
        [MElem "i" [("class", "fas fa-plus")] []]
  end.

Definition entry_markup (aid : string) (c : collection) : markup :=
  MElem "div" [("class", "collection-entry"); ("data-collection-id", c_id c)]
    [MElem "span" [] (text (c_name c));
     MElem "span" [("class", "collection-action-button")]
       [button_markup (if c_contains c then Remove else Add) (c_id c) aid (c_name c)]].

Definition footer_markup : markup :=
  MElem "div" [("class", "collections-menu-footer")]
    [MElem "a" [("href", "/collections")]
       [MElem "i" [("class", "fas fa-cog")] []; MText " Manage Collections"]].

Definition empty_markup : markup :=
  MElem "div" []
    [MText "No collections yet. ";
     MElem "a" [("href", "/collections")] [MText "Create one"];
     MText "."].

Definition error_markup : markup :=
  MElem "div" [("class", "error-message")] [MText "Error loading."].

Definition collections_markup (aid : string) (cs : option (list collection)) : list markup :=
  match cs with
  | Some (c :: cs') =>
      [MElem "div" [("class", "collections-list-container")]
         (map (entry_markup aid) (c :: cs'));
       footer_markup]
  | _ => [empty_markup]
  end.

(** *** The requests *)

Definition status_request (articleId : option string) : request :=
  Request ("/article/" ++ interp articleId ++ "/collections_status") GET [] None.

Definition action_name (a : action) : string :=
  match a with
  | Add => "add"
  | Remove => "remove"
  end.

(** [JSON.stringify({ article_id: articleId })] leaves an undefined field out. *)
Definition action_body (articleId : option string) : list (string * string) :=
  match articleId with
  | Some a => [("article_id", a)]
  | None => []
  end.

Definition action_request (a : action) (collectionId articleId : option string) : request :=
  Request ("/collection/" ++ interp collectionId ++ "/" ++ action_name a ++ "_article")
          POST
          [("Content-Type", "application/json"); ("X-Requested-With", "XMLHttpRequest")]
          (Some (action_body articleId)).

(** *** toggleDateFilters (lines 1-11) *)

Definition toggleDateFilters : M unit :=
  content <- getElementById "date-filter-content" ;;
  icon <- querySelector_descendant "date-filter-toggle" "toggle-icon" ;;
  content <- deref content ;;
  d <- style_display content ;;
  if (d =? "none") || (d =? EmptyString) then
    set_style_display content "block" ;;
    icon <- deref icon ;;
    set_textContent icon "-"
  else
    set_style_display content "none" ;;
    icon <- deref icon ;;
    set_textContent icon "+".

(** *** toggleCollectionsMenu (lines 13-69), up to its first [await] *)

(** Lines 18-22: hide all other open menus. *)
Definition hide_other_menus (menuId : string) : M unit :=
  menus <- querySelectorAll "collections-menu" ;;
  forEach menus (fun menu =>
    i <- get_id menu ;;
    if negb (i =? menuId) then set_style_display menu "none" else ret tt).

(** Lines 24-41: hide the target or show it, and load what it shows. *)
Definition toggle_target (menuId : string) (targetMenu : option ref) : M unit :=
  targetMenu <- deref targetMenu ;;
  d <- style_display targetMenu ;;
  let isVisible := d =? "block" in
  if isVisible then
    set_style_display targetMenu "none"
  else
    set_style_display targetMenu "block" ;;
    contentDiv <- querySelector "collections-menu-content" targetMenu ;;
    contentDiv <- deref contentDiv ;;
    loaded <- dataset "loaded" contentDiv ;;
    if truthy loaded then
      ret tt
    else
      let articleId := pop (split "-" menuId) in
      set_innerHTML contentDiv [MText "Loading..."] ;;
      emit (Fetch (status_request articleId) (AwaitStatus contentDiv articleId)).

Definition toggleCollectionsMenu (menuId : string) : M unit :=
  emit StopPropagation ;;
  targetMenu <- getElementById menuId ;;
  hide_other_menus menuId ;;
  toggle_target menuId targetMenu.

(** The part of the [try] block that both handlers share: the response
    checked, the body read (lines 42-43 and 101-102). *)
Definition json_of (o : outcome) : M payload :=
  match o with
  | Failed reason => throw (Rejection reason)
  | Responded ok code data =>
      if negb ok then throw (Error ("HTTP error! Status: " ++ of_nat code))
      else match data with
           | Some d => ret d
           | None => throw SyntaxError
           end
  end.

(** [data.message || fallback] *)
Definition message_or (d : payload) (fallback : string) : string :=
  if truthy (message d) then interp (message d) else fallback.

(** toggleCollectionsMenu from its [await] on (lines 41-68). *)
Definition resume_status (contentDiv : ref) (articleId : option string) (o : outcome) : M unit :=
  try_catch
    (data <- json_of o ;;
     if status data =? "ok" then
       set_innerHTML contentDiv (collections_markup (interp articleId) (collections data)) ;;
       set_dataset "loaded" contentDiv "true"
     else
       throw (Error (message_or data "Failed to load collections.")))
    (fun error =>
       emit (ConsoleError "Error fetching collections:" error) ;;
       set_innerHTML contentDiv [error_markup]).

(** *** The click listener (lines 82-128) *)

(** Lines 104-117: the patch after a confirmed action. *)
Definition patch_button (target : ref) (act : action) (collectionId articleId : option string)
  : M unit :=
  buttonContainer <- closest "collection-action-button" target ;;
  match buttonContainer with
  | Some buttonContainer =>
      collectionEntry <- closest "collection-entry" buttonContainer ;;
      collectionName <-
        match collectionEntry with
        | Some collectionEntry =>
            row <- element collectionEntry ;;
            match querySelector_span_first_child row with
            | Some span => ret (textContent span)
            | None => throw TypeError
            end
        | None => ret EmptyString
        end ;;
      let newButton :=
        button_markup (match act with Add => Remove | Remove => Add end)
                      (interp collectionId) (interp articleId) collectionName in
      set_innerHTML buttonContainer [newButton]
  | None => ret tt
  end.

(** The listener from its [await] on (lines 101-121). *)
Definition resume_action (target : ref) (act : action) (collectionId articleId : option string)
    (o : outcome) : M unit :=
  try_catch
    (data <- json_of o ;;
     if status data =? "ok" then
       patch_button target act collectionId articleId
     else
       throw (Error (message_or data "Action failed.")))
    (fun error =>
       emit (ConsoleError ("Error with " ++ action_name act ++ " action:") error) ;;
       emit (Alert ("Failed to " ++ action_name act ++ " article."))).

(** Lines 124-126: close all menus. *)
Definition close_all_menus : M unit :=
  menus <- querySelectorAll "collections-menu" ;;
  forEach menus (fun menu => set_style_display menu "none").

(** The listener up to its [await] (lines 83-100 and 122-127). *)
Definition onClick (target : ref) : M unit :=
  isAdd <- matches "btn-add-to-collection" target ;;
  isRemove <- matches "btn-remove-from-collection" target ;;
  let act := if isRemove then Some Remove else if isAdd then Some Add else None in
  match act with
  | Some act =>
      emit PreventDefault ;;
      collectionId <- dataset "collection-id" target ;;
      articleId <- dataset "article-id" target ;;
      emit (Fetch (action_request act collectionId articleId)
                  (AwaitAction target act collectionId articleId))
  | None =>
      menu <- closest "collections-menu" target ;;
      match menu with
      | None => close_all_menus
      | Some _ => ret tt
      end
  end.

(** *** The DOMContentLoaded handler (lines 71-129) *)

Definition onDOMContentLoaded : M unit :=
  startDateEl <- getElementById "start_date" ;;
  endDateEl <- getElementById "end_date" ;;
  match startDateEl, endDateEl with
  | Some startDateEl, Some endDateEl =>
      s <- get_value startDateEl ;;
      e <- get_value endDateEl ;;
      if truthy s || truthy e then toggleDateFilters else ret tt
  | _, _ => ret tt
  end ;;
  emit AddClickListener.

(** A suspended handler resumes. *)
Definition resume (k : cont) (o : outcome) : M unit :=
  match k with
  | AwaitStatus contentDiv articleId => resume_status contentDiv articleId o
  | AwaitAction target act collectionId articleId =>
      resume_action target act collectionId articleId o
  end.

End Script.

(* ------------------------------------------------------------------ *)
(** ** What is observed of a page, and the event loop *)

Module View.

Import Str Dom Html Js Script.

(** The identities of the elements of a tree, in document order. *)
Definition nids (n : node) : list nat := map nid (elems n).

(** The ids that elements of a tree declare. *)
Definition ids (n : node) : list string := filter nonempty (map id_of (elems n)).

Section Distinct.
Variable A : Type.
Variable eqb : A -> A -> bool.
Fixpoint distinct (l : list A) : bool :=
  match l with
  | [] => true
  | x :: l' => negb (existsb (eqb x) l') && distinct l'
  end.
End Distinct.

(** Object identity in the model: no two elements of the document share
    an identity, and the identities still unused are really unused. *)
Definition well_formed (pg : page) : bool :=
  distinct Nat.eqb (nids (document pg))
  && forallb (fun x => Nat.ltb x (fresh pg)) (nids (document pg)).

(** Valid HTML: an id names one element. *)
Definition unique_ids (pg : page) : bool := distinct String.eqb (ids (document pg)).

Definition is_menu (p : props) : bool := has_class "collections-menu" p.

Definition shown (p : props) : bool := display p =? "block".

Definition visible_menus (pg : page) : list props :=
  filter (fun p => is_menu p && shown p) (elems (document pg)).

Definition at_most_one_visible (pg : page) : Prop := List.length (visible_menus pg) <= 1.

(** What every step of the event loop keeps: a well-formed page of valid
    HTML with at most one menu open. *)
Definition invariant (pg : page) : Prop :=
  well_formed pg = true /\ unique_ids pg = true /\ at_most_one_visible pg.

(** The element of the document behind a reference, and what it is. *)
Definition node_at (r : ref) (pg : page) : option node := find_node r (document pg).

Definition props_at (r : ref) (pg : page) : option props :=
  match node_at r pg with
  | Some n => props_of n
  | None => None
  end.

Definition content_at (r : ref) (pg : page) : option (list markup) :=
  option_map (fun n => map markup_of (kids_of n)) (node_at r pg).

(** [document.getElementById(menuId)] is the element [pt], and
    [pt.querySelector('.collections-menu-content')] is the element [pc]. *)
Definition menu_at (menuId : string) (pg : page) (pt pc : props) : Prop :=
  by_id menuId (document pg) = Some pt /\
  exists kt, node_at (nid pt) pg = Some (Elem pt kt) /\
             querySelector_class "collections-menu-content" (Elem pt kt) = Some pc.

(** The menu [menuId] is the element [t], open or not, and its content
    area is the element [c], marked as loaded or not. *)
Definition menu_state (menuId : string) (pg : page) (t c : ref) (open loaded : bool) : Prop :=
  well_formed pg = true /\
  exists pt pc, menu_at menuId pg pt pc /\ nid pt = t /\ nid pc = c /\
                shown pt = open /\ truthy (dataset_get "loaded" pc) = loaded.


(** The action a click on [p] stands for (lines 86-87). *)
Definition action_of (p : props) : option action :=
  if has_class "btn-remove-from-collection" p then Some Remove
  else if has_class "btn-add-to-collection" p then Some Add
  else None.


(** The element [x] lies below the element [r] of the document. *)
Definition inside (x r : ref) (pg : page) : bool :=
  match node_at r pg with
  | Some n => existsb (Nat.eqb x) (flat_map nids (kids_of n))
  | None => false
  end.

(** The page a handler leaves, its effects, and whether it returned. *)
Definition page_after {A} (x : result A * page * list effect) : page := snd (fst x).
Definition effects {A} (x : result A * page * list effect) : list effect := snd x.
Definition returned {A} (x : result A * page * list effect) : bool :=
  match fst (fst x) with
  | Return _ => true
  | Throw _ => false
  end.

Definition is_fetch (e : effect) : bool :=
  match e with
  | Fetch _ _ => true
  | _ => false
  end.

Definition is_alert (e : effect) : bool :=
  match e with
  | Alert _ => true
  | _ => false
  end.

(** What [menu.style.display = 'none'] over the other menus amounts to. *)
Definition hide_other (menuId : string) (p : props) : props :=
  if is_menu p && negb (id_of p =? menuId) then with_display "none" p else p.

Definition hide_menu (p : props) : props :=
  if is_menu p then with_display "none" p else p.

(** Every menu other than [menuId] has display none, as lines 18-22 leave them. *)
Definition others_hidden (menuId : string) (pg : page) : Prop :=
  forall p, In p (elems (document pg)) -> is_menu p = true -> id_of p <> menuId ->
            display p = "none".

(** A request that does not succeed: [fetch] rejects, the status is not
    ok, the body is no JSON, or the body's status is not "ok". *)
Definition fails (o : outcome) : bool :=
  match o with
  | Failed _ => true
  | Responded ok _ data =>
      negb ok || match data with
                 | Some d => negb (status d =? "ok")
                 | None => true
                 end
  end.

(** The exception a failing request raises inside the [try] block. *)
Definition failure (fallback : string) (o : outcome) : exn :=
  match o with
  | Failed reason => Rejection reason
  | Responded ok code data =>
      if negb ok then Error ("HTTP error! Status: " ++ of_nat code)
      else match data with
           | Some d => Error (message_or d fallback)
           | None => SyntaxError
           end
  end.

End View.

Module Loop.

Import Dom Js Script.

(** What the event loop delivers: a click on a menu's toggle (the inline
    handler, which stops propagation), a click that reaches the document
    listener, and the settling of a pending request. *)
Inductive event : Type :=
| Toggle (menuId : string)
| Click (target : ref)
| Settle (i : nat) (o : outcome).

Record world := World {
  page_of : page;
  pending : list cont;
  trace : list effect
}.

Definition suspended (out : list effect) : list cont :=
  flat_map (fun e => match e with Fetch _ k => [k] | _ => [] end) out.

Fixpoint remove_nth {A} (i : nat) (l : list A) : list A :=
  match l, i with
  | [], _ => []
  | _ :: l', O => l'
  | x :: l', S i' => x :: remove_nth i' l'
  end.

(** Run a handler to its end or to its [await]. *)
Definition run (m : M unit) (others : list cont) (w : world) : world :=
  match m (page_of w) with
  | (_, pg, out) => World pg (others ++ suspended out)%list (trace w ++ out)%list
  end.

Definition step (w : world) (e : event) : world :=
  match e with
  | Toggle menuId => run (toggleCollectionsMenu menuId) (pending w) w
  | Click target => run (onClick target) (pending w) w
  | Settle i o =>
      match nth_error (pending w) i with
      | Some k => run (resume k o) (remove_nth i (pending w)) w
      | None => w
      end
  end.

Definition run_events (evs : list event) (w : world) : world := fold_left step evs w.

End Loop.

(* ------------------------------------------------------------------ *)
(** ** Notions the proofs use *)

Module Reasoning.

Import Str Dom Html Js Script View.

(** The effects [out] happened before [x]. *)
Definition after (out : list effect) {A} (x : result A * page * list effect)
  : result A * page * list effect :=
  (fst (fst x), snd (fst x), (out ++ snd x)%list).

(** A handler keeps a property of the page, whether it returns or throws. *)
Definition preserves {A} (P : page -> Prop) (m : M A) : Prop :=
  forall pg, P pg -> P (page_after (m pg)).

Definition hidden (p : props) : props := with_display "none" p.

(** What [test] says of the element behind [r]. *)
Definition test_at (test : props -> bool) (r : ref) (pg : page) : bool :=
  match lookup r pg with
  | Some (Elem p _) => test p
  | _ => false
  end.

(** What a loop over the references [rs] that hides the elements passing
    [test] does to an element. *)
Definition hide_refs (test : props -> bool) (pg : page) (rs : list ref) (p : props) : props :=
  if existsb (fun r => Nat.eqb (nid p) r && test_at test r pg) rs then hidden p else p.

(** A change of properties that keeps identities and ids, and opens no menu. *)
Definition harmless (g : props -> props) : Prop :=
  forall p, nid (g p) = nid p /\ id_of (g p) = id_of p /\
            (is_menu (g p) && shown (g p) = true -> is_menu p && shown p = true).

(** A change of properties that touches nothing but the display. *)
Definition display_only (g : props -> props) : Prop :=
  forall p, nid (g p) = nid p /\ attributes (g p) = attributes p.

(** A change of properties that keeps identities, ids and classes. *)
Definition quiet (g : props -> props) : Prop :=
  forall p, nid (g p) = nid p /\ id_of (g p) = id_of p /\
            forall c, has_class c (g p) = has_class c p.


(** The display and the icon text that lines 4-10 choose for a region
    whose display is [d]. *)
Definition switched (d : string) : string :=
  if (d =? "none") || (d =? EmptyString) then "block" else "none".

Definition sign (d : string) : string :=
  if (d =? "none") || (d =? EmptyString) then "-" else "+".

End Reasoning.

(* ------------------------------------------------------------------ *)
(** ** A page to run the script on *)

Module Sample.

Import Str Dom Html Js Script View Loop.

Definition el (n : nat) (t : string) (a : attrs) (d : string) (kids : list node) : node :=
  Elem (Props n t a d None) kids.

Definition input (n : nat) (i v : string) : node :=
  Elem (Props n "input" [("id", i)] EmptyString (Some v)) [].

(** The date filters, collapsed, with an end date filled in. *)
Definition filters : list node :=
  [ input 2 "start_date" EmptyString;
    input 3 "end_date" "2024-01-01";
    el 4 "div" [("class", "date-filter-toggle")] EmptyString
      [el 5 "span" [("class", "toggle-icon")] EmptyString [Text "+"]];
    el 6 "div" [("id", "date-filter-content")] "none" [] ].

(** Two articles with their menus, closed and not loaded; the second
    article also has an add button that stands in no row. *)
Definition articles : list node :=
  [ el 7 "article" [] EmptyString
      [ el 8 "button" [("class", "btn")] EmptyString [Text "Collections"];
        el 9 "div" [("class", "collections-menu"); ("id", "collections-menu-12")] EmptyString
          [el 10 "div" [("class", "collections-menu-content")] EmptyString []] ];
    el 11 "article" [] EmptyString
      [ el 12 "button"
          [("class", "btn btn-add-to-collection");
           ("data-collection-id", "5"); ("data-article-id", "7")] EmptyString [];
        el 13 "div" [("class", "collections-menu"); ("id", "collections-menu-7")] EmptyString
          [el 14 "div" [("class", "collections-menu-content")] EmptyString []] ] ].

Definition home : page :=
  Page (el 0 "html" [] EmptyString [el 1 "body" [] EmptyString (filters ++ articles)%list])
       [] 15.

(** The same page with only the start date input, filled in. *)
Definition home_one_date : page :=
  Page (el 0 "html" [] EmptyString
          [el 1 "body" [] EmptyString
             ([ input 2 "start_date" "2024-01-01";
                el 4 "div" [("class", "date-filter-toggle")] EmptyString
                  [el 5 "span" [("class", "toggle-icon")] EmptyString [Text "+"]];
                el 6 "div" [("id", "date-filter-content")] "none" [] ] ++ articles)%list])
       [] 15.

Definition news : collection := Collection "3" "News" true.
Definition tech : collection := Collection "4" "Tech" false.

Definition ok_status : outcome :=
  Responded true 200 (Some (Payload "ok" None (Some [news; tech]))).

Definition ok_action : outcome := Responded true 200 (Some (Payload "ok" None None)).

Definition server_error : outcome := Responded false 500 None.

(** The first menu opened, and then loaded. *)
Definition opened : page := page_after (toggleCollectionsMenu "collections-menu-12" home).

Definition loaded : page := page_after (resume_status 10 (Some "12") ok_status opened).



(** A page with odd markup: a button of both variants (2), a button
    without data attributes (3), a menu without a content area (4), a row
    whose first child is no span (5 to 8), and both date inputs without
    the region they stand for. *)
Definition odd : page :=
  Page (el 0 "html" [] EmptyString
          [el 1 "body" [] EmptyString
             [ el 2 "button"
                 [("class", "btn-add-to-collection btn-remove-from-collection");
                  ("data-collection-id", "5"); ("data-article-id", "7")] EmptyString [];
               el 3 "button" [("class", "btn-add-to-collection")] EmptyString [];
               el 4 "div" [("class", "collections-menu"); ("id", "collections-menu-3")]
                 EmptyString [];
               el 5 "div" [("class", "collection-entry")] EmptyString
                 [ el 6 "b" [] EmptyString [Text "News"];
                   el 7 "span" [("class", "collection-action-button")] EmptyString
                     [el 8 "button"
                        [("class", "btn-add-to-collection");
                         ("data-collection-id", "3"); ("data-article-id", "12")]
                        EmptyString []] ];
               input 9 "start_date" "2024-01-01";
               input 10 "end_date" EmptyString ]])
       [] 11.

(** The date filters without their toggle icon. *)
Definition no_icon : page :=
  Page (el 0 "html" [] EmptyString
          [el 1 "body" [] EmptyString
             [ input 2 "start_date" "2024-01-01";
               input 3 "end_date" EmptyString;
               el 4 "div" [("id", "date-filter-content")] "none" [] ]])
       [] 5.

End Sample.

(* ------------------------------------------------------------------ *)
(** * Lemmas *)

Unset Implicit Arguments.

Module DomFacts.

Import Str Dom Html Js View.

Lemma first_some_map (A B C : Type) (f : B -> option C) (h : A -> B) (l : list A) :
  first_some f (map h l) = first_some (fun x => f (h x)) l.
Proof.
  induction l as [|x l IH]; simpl; [reflexivity|].
  rewrite IH. reflexivity.
Qed.

Lemma first_some_ext (A B : Type) (f g : A -> option B) (l : list A) :
  Forall (fun x => f x = g x) l -> first_some f l = first_some g l.
Proof.
  induction 1 as [|x l Hx _ IH]; simpl; [reflexivity|].
  rewrite Hx, IH. reflexivity.
Qed.

Lemma first_some_option_map (A B C : Type) (f : A -> option B) (h : B -> C) (l : list A) :
  first_some (fun x => option_map h (f x)) l = option_map h (first_some f l).
Proof.
  induction l as [|x l IH]; simpl; [reflexivity|].
  destruct (f x); simpl; [reflexivity|exact IH].
Qed.

Lemma first_some_none (A B : Type) (f : A -> option B) (l : list A) :
  Forall (fun x => f x = None) l -> first_some f l = None.
Proof.
  induction 1 as [|x l Hx _ IH]; simpl; [reflexivity|].
  rewrite Hx. exact IH.
Qed.

Lemma first_some_In (A B : Type) (f : A -> option B) (l : list A) (y : B) :
  first_some f l = Some y -> exists x, In x l /\ f x = Some y.
Proof.
  induction l as [|x l IH]; simpl; [discriminate|].
  destruct (f x) eqn:E.
  - intros [= <-]. exists x. auto.
  - intros H. destruct (IH H) as (x' & Hin & Hx'). exists x'. auto.
Qed.

Lemma existsb_ext (A : Type) (f g : A -> bool) (l : list A) :
  (forall x, f x = g x) -> existsb f l = existsb g l.
Proof.
  intros H. induction l as [|x l IH]; simpl; [reflexivity|].
  rewrite H, IH. reflexivity.
Qed.

(** *** Rewriting properties keeps the shape *)

Lemma elems_map_props (g : props -> props) (n : node) :
  elems (map_props g n) = map g (elems n).
Proof.
  induction n as [s|p kids IH] using node_ind; simpl; [reflexivity|].
  f_equal.
  induction IH as [|k kids Hk _ IHk]; simpl; [reflexivity|].
  rewrite map_app, Hk, IHk. reflexivity.
Qed.

Lemma map_props_ext (g h : props -> props) (n : node) :
  (forall p, In p (elems n) -> g p = h p) -> map_props g n = map_props h n.
Proof.
  induction n as [s|p kids IH] using node_ind; simpl; intros H; [reflexivity|].
  f_equal; [apply H; auto|].
  assert (Hk : forall q, In q (flat_map elems kids) -> g q = h q) by (intros; apply H; auto).
  clear H.
  induction IH as [|k kids Hk' _ IHk]; simpl; [reflexivity|].
  f_equal.
  - apply Hk'. intros q Hq. apply Hk. simpl. apply in_or_app. auto.
  - apply IHk. intros q Hq. apply Hk. simpl. apply in_or_app. auto.
Qed.

Lemma map_props_id (g : props -> props) (n : node) :
  (forall p, In p (elems n) -> g p = p) -> map_props g n = n.
Proof.
  induction n as [s|p kids IH] using node_ind; simpl; intros H; [reflexivity|].
  rewrite (H p) by auto. f_equal.
  assert (Hk : forall q, In q (flat_map elems kids) -> g q = q) by (intros; apply H; auto).
  clear H.
  induction IH as [|k kids Hk' _ IHk]; simpl; [reflexivity|].
  f_equal.
  - apply Hk'. intros q Hq. apply Hk. simpl. apply in_or_app. auto.
  - apply IHk. intros q Hq. apply Hk. simpl. apply in_or_app. auto.
Qed.

Lemma map_props_compose (g h : props -> props) (n : node) :
  map_props g (map_props h n) = map_props (fun p => g (h p)) n.
Proof.
  induction n as [s|p kids IH] using node_ind; simpl; [reflexivity|].
  f_equal. rewrite map_map.
  induction IH as [|k kids Hk _ IHk]; simpl; [reflexivity|].
  rewrite Hk, IHk. reflexivity.
Qed.

Section KeepsIdentity.
Variable g : props -> props.
Hypothesis g_nid : forall p, nid (g p) = nid p.

Lemma find_node_map_props (x : ref) (n : node) :
  find_node x (map_props g n) = option_map (map_props g) (find_node x n).
Proof.
  induction n as [s|p kids IH] using node_ind; simpl; [reflexivity|].
  rewrite g_nid. destruct (Nat.eqb (nid p) x); [reflexivity|].
  rewrite first_some_map.
  rewrite <- first_some_option_map.
  apply first_some_ext. exact IH.
Qed.

Lemma chain_map_props (x : ref) (n : node) :
  chain x (map_props g n) = option_map (map g) (chain x n).
Proof.
  induction n as [s|p kids IH] using node_ind; simpl; [reflexivity|].
  rewrite g_nid. destruct (Nat.eqb (nid p) x); [reflexivity|].
  rewrite first_some_map.
  rewrite (@first_some_ext _ _ _ (fun k => option_map (map g) (chain x k)) _ IH).
  rewrite first_some_option_map.
  destruct (first_some (chain x) kids); simpl; [|reflexivity].
  rewrite map_app. reflexivity.
Qed.
End KeepsIdentity.

Lemma first_with_class_map_props (c : string) (g : props -> props) (n : node) :
  (forall p, has_class c (g p) = has_class c p) ->
  first_with_class c (map_props g n) = option_map g (first_with_class c n).
Proof.
  intros Hg.
  induction n as [s|p kids IH] using node_ind; simpl; [reflexivity|].
  rewrite Hg. destruct (has_class c p); [reflexivity|].
  rewrite first_some_map.
  rewrite (@first_some_ext _ _ _ (fun k => option_map g (first_with_class c k)) _ IH).
  apply first_some_option_map.
Qed.

Lemma querySelector_class_map_props (c : string) (g : props -> props) (n : node) :
  (forall p, has_class c (g p) = has_class c p) ->
  querySelector_class c (map_props g n) = option_map g (querySelector_class c n).
Proof.
  intros Hg. destruct n as [s|p kids]; simpl; [reflexivity|].
  rewrite first_some_map.
  rewrite (@first_some_ext _ _ _ (fun k => option_map g (first_with_class c k))).
  - apply first_some_option_map.
  - apply Forall_forall. intros k _. apply first_with_class_map_props. exact Hg.
Qed.

(** *** Elements and references *)

Lemma find_node_elem (x : ref) (n m : node) :
  find_node x n = Some m -> exists p kids, m = Elem p kids /\ nid p = x /\ In p (elems n).
Proof.
  induction n as [s|p kids IH] using node_ind; simpl; [discriminate|].
  destruct (Nat.eqb (nid p) x) eqn:E.
  - intros [= <-]. exists p, kids. apply Nat.eqb_eq in E. auto.
  - intros H. apply first_some_In in H. destruct H as (k & Hin & Hk).
    rewrite Forall_forall in IH. destruct (IH k Hin Hk) as (q & ks & -> & Hq & Hin').
    exists q, ks. repeat split; auto. right. apply in_flat_map. exists k. auto.
Qed.

Lemma find_node_none (x : ref) (n : node) :
  ~ In x (nids n) -> find_node x n = None.
Proof.
  unfold nids.
  induction n as [s|p kids IH] using node_ind; simpl; [reflexivity|].
  intros H. destruct (Nat.eqb_spec (nid p) x) as [E|E]; [tauto|].
  apply first_some_none. rewrite Forall_forall in *. intros k Hk. apply IH; [exact Hk|].
  intros Hin. apply H. right. rewrite flat_map_concat_map, concat_map, map_map.
  rewrite <- flat_map_concat_map. apply in_flat_map. exists k. auto.
Qed.

Lemma nids_elem (p : props) (kids : list node) :
  nids (Elem p kids) = nid p :: flat_map nids kids.
Proof.
  unfold nids. simpl. f_equal.
  induction kids as [|k kids IH]; simpl; [reflexivity|].
  rewrite map_app, IH. reflexivity.
Qed.

Lemma NoDup_app_inv (A : Type) (l1 l2 : list A) :
  NoDup (l1 ++ l2) -> NoDup l1 /\ NoDup l2 /\ (forall x, In x l1 -> In x l2 -> False).
Proof.
  induction l1 as [|a l1 IH]; simpl; intros H.
  - repeat split; [constructor|exact H|tauto].
  - inversion H as [|? ? Hn Hd]; subst. destruct (IH Hd) as (H1 & H2 & H3).
    repeat split; [constructor; [|exact H1]|exact H2|].
    + intros Hin. apply Hn. apply in_or_app. auto.
    + intros x [->|Hx] Hx2; [apply Hn; apply in_or_app; auto|eauto].
Qed.

Lemma NoDup_app_intro (A : Type) (l1 l2 : list A) :
  NoDup l1 -> NoDup l2 -> (forall x, In x l1 -> In x l2 -> False) -> NoDup (l1 ++ l2).
Proof.
  induction l1 as [|a l1 IH]; simpl; intros H1 H2 H3; [exact H2|].
  inversion H1 as [|? ? Hn Hd]; subst. constructor.
  - intros Hin. apply in_app_or in Hin. destruct Hin as [Hin|Hin]; [tauto|eauto].
  - apply IH; eauto.
Qed.

(** In a tree without repeated identities a reference finds the element
    that carries it. *)
Lemma find_node_unique (n : node) (p : props) :
  NoDup (nids n) -> In p (elems n) -> exists kids, find_node (nid p) n = Some (Elem p kids).
Proof.
  induction n as [s|q kids IH] using node_ind; [intros _ []|].
  rewrite nids_elem. intros Hnd Hin. simpl in Hin |- *.
  inversion Hnd as [|? ? Hq Hks]; subst.
  destruct Hin as [->|Hin].
  - rewrite Nat.eqb_refl. eauto.
  - destruct (Nat.eqb_spec (nid q) (nid p)) as [E|E].
    + exfalso. apply Hq. rewrite E. apply in_flat_map in Hin. destruct Hin as (k & Hk & Hpk).
      apply in_flat_map. exists k. split; [exact Hk|]. unfold nids. apply in_map. exact Hpk.
    + clear Hq Hnd E. induction IH as [|k kids Hk _ IHk]; simpl in *; [contradiction|].
      apply NoDup_app_inv in Hks. destruct Hks as (Hk1 & Hk2 & Hdis).
      apply in_app_or in Hin. destruct Hin as [Hin|Hin].
      * destruct (Hk Hk1 Hin) as (ks & ->). eauto.
      * rewrite find_node_none; [apply IHk; assumption|].
        intros Hx. apply (Hdis _ Hx). apply in_flat_map in Hin. destruct Hin as (k' & Hk' & Hpk).
        apply in_flat_map. exists k'. split; [exact Hk'|]. unfold nids. apply in_map. exact Hpk.
Qed.


Lemma find_node_present (x : ref) (n : node) :
  find_node x n = None -> ~ In x (nids n).
Proof.
  induction n as [s|p kids IH] using node_ind; [intros _ []|].
  rewrite nids_elem. simpl. destruct (Nat.eqb_spec (nid p) x) as [E|E]; [discriminate|].
  intros H [Hx|Hx]; [tauto|].
  induction IH as [|k kids Hk _ IHk]; simpl in *; [contradiction|].
  destruct (find_node x k) eqn:Ek; [discriminate|].
  apply in_app_or in Hx. destruct Hx as [Hx|Hx]; [exact (Hk eq_refl Hx)|exact (IHk H Hx)].
Qed.

(** *** Replacing children *)

Lemma set_kids_absent (r : ref) (new : list node) (n : node) :
  ~ In r (nids n) -> set_kids r new n = n.
Proof.
  induction n as [s|p kids IH] using node_ind; [reflexivity|].
  rewrite nids_elem. simpl. intros H.
  destruct (Nat.eqb_spec (nid p) r) as [E|E]; [tauto|].
  f_equal.
  assert (Hk : ~ In r (flat_map nids kids)) by tauto. clear H.
  induction IH as [|k kids Hk' _ IHk]; simpl in *; [reflexivity|].
  rewrite Hk', IHk; [reflexivity| |]; intros Hin; apply Hk; apply in_or_app; auto.
Qed.

Lemma set_kids_twice (r : ref) (a b : list node) (n : node) :
  set_kids r a (set_kids r b n) = set_kids r a n.
Proof.
  induction n as [s|p kids IH] using node_ind; [reflexivity|].
  simpl. destruct (Nat.eqb (nid p) r) eqn:E; simpl; rewrite E; [reflexivity|].
  f_equal. rewrite map_map.
  induction IH as [|k kids Hk _ IHk]; simpl; [reflexivity|].
  rewrite Hk, IHk. reflexivity.
Qed.

Lemma find_node_set_kids_same (r : ref) (new : list node) (n : node) (p : props) (old : list node) :
  find_node r n = Some (Elem p old) -> find_node r (set_kids r new n) = Some (Elem p new).
Proof.
  induction n as [s|q kids IH] using node_ind; [discriminate|].
  simpl. destruct (Nat.eqb (nid q) r) eqn:E; simpl; rewrite E.
  - intros [= -> ->]. reflexivity.
  - induction IH as [|k kids Hk _ IHk]; simpl; [discriminate|].
    destruct (find_node r k) eqn:Ek.
    + intros [= ->]. rewrite (Hk eq_refl). reflexivity.
    + intros H. rewrite set_kids_absent by (apply find_node_present; exact Ek).
      rewrite Ek. exact (IHk H).
Qed.

(** Replacing the children of [r] cuts the elements below [r] out of the
    document order and puts the new ones in their place. *)
Lemma set_kids_elems (r : ref) (n : node) (q : props) (old : list node) :
  NoDup (nids n) -> find_node r n = Some (Elem q old) ->
  exists l1 l2,
    elems n = (l1 ++ q :: elems_of old ++ l2)%list /\
    forall new, elems (set_kids r new n) = (l1 ++ q :: elems_of new ++ l2)%list.
Proof.
  induction n as [s|p kids IH] using node_ind; [discriminate|].
  rewrite nids_elem. intros Hnd. inversion Hnd as [|? ? _ Hks]; subst. clear Hnd.
  simpl. destruct (Nat.eqb (nid p) r) eqn:E.
  - intros [= -> ->]. exists [], []. simpl. split.
    + rewrite app_nil_r. reflexivity.
    + intros new. simpl. rewrite app_nil_r. reflexivity.
  - intros H.
    assert (Hl : exists l1 l2,
               flat_map elems kids = (l1 ++ q :: elems_of old ++ l2)%list /\
               forall new, flat_map elems (map (set_kids r new) kids)
                           = (l1 ++ q :: elems_of new ++ l2)%list).
    { clear E. induction IH as [|k kids Hk _ IHk]; simpl in *; [discriminate|].
      apply NoDup_app_inv in Hks. destruct Hks as (Hk1 & Hk2 & Hdis).
      destruct (find_node r k) eqn:Ek.
      - injection H as ->. destruct (Hk Hk1 eq_refl) as (l1 & l2 & E1 & E2).
        exists l1, (l2 ++ flat_map elems kids)%list. split.
        + rewrite E1. rewrite <- app_assoc. simpl. rewrite <- app_assoc. reflexivity.
        + intros new. rewrite E2.
          assert (Hsame : map (set_kids r new) kids = kids).
          { assert (Hr : In r (nids k)).
            { destruct (find_node_elem _ _ _ Ek) as (p' & ks' & _ & <- & Hin).
              unfold nids. apply in_map. exact Hin. }
            assert (Hnot : ~ In r (flat_map nids kids)) by (intros Hx; exact (Hdis _ Hr Hx)).
            clear - Hnot. induction kids as [|k' kids IH]; simpl in *; [reflexivity|].
            rewrite set_kids_absent, IH; [reflexivity| |];
              intros Hin; apply Hnot; apply in_or_app; auto. }
          rewrite Hsame. rewrite <- app_assoc. simpl. rewrite <- app_assoc. reflexivity.
      - destruct (IHk Hk2 H) as (l1 & l2 & E1 & E2).
        exists (elems k ++ l1)%list, l2. split.
        + rewrite E1. rewrite <- app_assoc. reflexivity.
        + intros new. rewrite E2.
          rewrite set_kids_absent by (apply find_node_present; exact Ek).
          rewrite <- app_assoc. reflexivity. }
    destruct Hl as (l1 & l2 & E1 & E2). exists (p :: l1), l2. split.
    + simpl. rewrite E1. reflexivity.
    + intros new. simpl. rewrite E2. reflexivity.
Qed.

End DomFacts.

Module HtmlFacts.

Import Str Dom Html Js View DomFacts.

Lemma build_elem (n : nat) (t : string) (a : attrs) (kids : list markup) :
  build n (MElem t a kids)
  = (Elem (Props n t a EmptyString None) (fst (build_all (S n) kids)),
     snd (build_all (S n) kids)).
Proof.
  simpl.
  match goal with
  | |- (let (_, _) := ?f (S n) kids in _) = _ =>
      assert (E : forall l i, f i l = build_all i l)
  end.
  { induction l as [|k l IH]; intros i; simpl; [reflexivity|].
    destruct (build i k) as [k' n1]. rewrite IH. reflexivity. }
  rewrite E. destruct (build_all (S n) kids). reflexivity.
Qed.

Lemma build_all_cons (n : nat) (k : markup) (l : list markup) :
  build_all n (k :: l)
  = (fst (build n k) :: fst (build_all (snd (build n k)) l),
     snd (build_all (snd (build n k)) l)).
Proof.
  simpl. destruct (build n k) as [k' n1]. simpl.
  destruct (build_all n1 l). reflexivity.
Qed.

(** Parsing and printing the tree agree: what is built is the markup. *)
Lemma markup_of_build (m : markup) : forall n, markup_of (fst (build n m)) = m.
Proof.
  induction m as [s|t a kids IH] using markup_ind; intros n; [reflexivity|].
  rewrite build_elem. simpl. f_equal.
  generalize (S n). induction IH as [|k kids Hk _ IHk]; intros i; [reflexivity|].
  rewrite build_all_cons. simpl. rewrite Hk, IHk. reflexivity.
Qed.

Lemma markup_of_build_all (l : list markup) (n : nat) :
  map markup_of (fst (build_all n l)) = l.
Proof.
  revert n. induction l as [|k l IH]; intros n; [reflexivity|].
  rewrite build_all_cons. simpl. rewrite markup_of_build, IH. reflexivity.
Qed.

Lemma seq_join (i a b : nat) :
  i <= a -> a <= b -> (seq i (a - i) ++ seq a (b - a))%list = seq i (b - i).
Proof.
  intros H1 H2. replace (b - i) with ((a - i) + (b - a)) by lia.
  rewrite seq_app. do 2 f_equal. lia.
Qed.

(** The identities given out are the next ones, one per element. *)
Lemma build_nids (m : markup) :
  forall n, nids (fst (build n m)) = seq n (snd (build n m) - n) /\ n <= snd (build n m).
Proof.
  induction m as [s|t a kids IH] using markup_ind; intros n.
  - simpl. rewrite Nat.sub_diag. auto.
  - rewrite build_elem. cbn [fst snd]. rewrite nids_elem. cbn [nid].
    assert (H : flat_map nids (fst (build_all (S n) kids))
                = seq (S n) (snd (build_all (S n) kids) - S n)
                /\ S n <= snd (build_all (S n) kids)).
    { generalize (S n). induction IH as [|k kids Hk _ IHk]; intros i.
      - simpl. rewrite Nat.sub_diag. auto.
      - rewrite build_all_cons. cbn [fst snd flat_map].
        destruct (Hk i) as (E1 & L1). destruct (IHk (snd (build i k))) as (E2 & L2).
        rewrite E1, E2. split; [|lia]. apply seq_join; assumption. }
    destruct H as (E & L). rewrite E. split; [|lia].
    replace (snd (build_all (S n) kids) - n) with (S (snd (build_all (S n) kids) - S n)) by lia.
    reflexivity.
Qed.

Lemma build_all_nids (l : list markup) :
  forall n, flat_map nids (fst (build_all n l)) = seq n (snd (build_all n l) - n)
            /\ n <= snd (build_all n l).
Proof.
  induction l as [|k l IH]; intros n.
  - simpl. rewrite Nat.sub_diag. auto.
  - rewrite build_all_cons. cbn [fst snd flat_map].
    destruct (build_nids k n) as (E1 & L1). destruct (IH (snd (build n k))) as (E2 & L2).
    rewrite E1, E2. split; [|lia]. apply seq_join; assumption.
Qed.

(** New elements have no inline display, and the attributes of the markup. *)
Lemma build_display (m : markup) :
  forall n, Forall (fun p => display p = EmptyString) (elems (fst (build n m))).
Proof.
  induction m as [s|t a kids IH] using markup_ind; intros n; [constructor|].
  rewrite build_elem. cbn [fst elems]. constructor; [reflexivity|].
  generalize (S n). induction IH as [|k kids Hk _ IHk]; intros i; [constructor|].
  rewrite build_all_cons. cbn [fst flat_map]. apply Forall_app. auto.
Qed.

Lemma build_all_display (l : list markup) :
  forall n, Forall (fun p => display p = EmptyString) (elems_of (fst (build_all n l))).
Proof.
  induction l as [|k l IH]; intros n; [constructor|].
  rewrite build_all_cons. cbn [fst]. unfold elems_of. cbn [flat_map].
  apply Forall_app. split; [apply build_display|apply IH].
Qed.

Lemma build_attributes (m : markup) :
  forall n, map attributes (elems (fst (build n m))) = attrs_in m.
Proof.
  induction m as [s|t a kids IH] using markup_ind; intros n; [reflexivity|].
  rewrite build_elem. cbn [fst elems map attributes attrs_in]. f_equal.
  generalize (S n). induction IH as [|k kids Hk _ IHk]; intros i; [reflexivity|].
  rewrite build_all_cons. cbn [fst flat_map]. rewrite map_app, Hk, IHk. reflexivity.
Qed.

Lemma build_all_attributes (l : list markup) :
  forall n, map attributes (elems_of (fst (build_all n l))) = attrs_in_all l.
Proof.
  induction l as [|k l IH]; intros n; [reflexivity|].
  rewrite build_all_cons. cbn [fst]. unfold elems_of, attrs_in_all. cbn [flat_map].
  rewrite map_app, build_attributes. f_equal. apply IH.
Qed.

End HtmlFacts.

Module JsFacts.

Import Str Dom Html Js View Reasoning DomFacts HtmlFacts.

(** *** Running a handler step by step *)

Lemma after_nil {A} (x : result A * page * list effect) : after [] x = x.
Proof. destruct x as [[r pg] out]. reflexivity. Qed.

Lemma bind_unfold {A B} (m : M A) (k : A -> M B) (pg : page) :
  bind m k pg = match m pg with
                | (Return a, pg1, out1) => after out1 (k a pg1)
                | (Throw e, pg1, out1) => (Throw e, pg1, out1)
                end.
Proof.
  unfold bind, after. destruct (m pg) as [[[a|e] pg1] out1]; [|reflexivity].
  destruct (k a pg1) as [[r pg2] out2]. reflexivity.
Qed.

(** A step that only reads. *)
Lemma bind_pure {A B} (m : M A) (k : A -> M B) (pg : page) (a : A) :
  m pg = (Return a, pg, []) -> bind m k pg = k a pg.
Proof. intros E. rewrite bind_unfold, E. apply after_nil. Qed.

Lemma bind_step {A B} (m : M A) (k : A -> M B) (pg pg1 : page) (a : A) (out : list effect) :
  m pg = (Return a, pg1, out) -> bind m k pg = after out (k a pg1).
Proof. intros E. rewrite bind_unfold, E. reflexivity. Qed.

Lemma bind_throws {A B} (m : M A) (k : A -> M B) (pg pg1 : page) (e : exn) (out : list effect) :
  m pg = (Throw e, pg1, out) -> bind m k pg = (Throw e, pg1, out).
Proof. intros E. rewrite bind_unfold, E. reflexivity. Qed.

Lemma bind_emit {B} (e : effect) (k : unit -> M B) (pg : page) :
  bind (emit e) k pg = after [e] (k tt pg).
Proof. apply bind_step. reflexivity. Qed.

Lemma bind_read {A B} (f : page -> A) (k : A -> M B) (pg : page) :
  bind (read f) k pg = k (f pg) pg.
Proof. apply bind_pure. reflexivity. Qed.

Lemma bind_write {B} (f : page -> page) (k : unit -> M B) (pg : page) :
  bind (write f) k pg = k tt (f pg).
Proof. unfold bind, write. destruct (k tt (f pg)) as [[r pg2] out2]. reflexivity. Qed.

Lemma bind_ret {A B} (a : A) (k : A -> M B) (pg : page) : bind (ret a) k pg = k a pg.
Proof. apply bind_pure. reflexivity. Qed.

Lemma bind_assoc {A B C} (m : M A) (k : A -> M B) (h : B -> M C) (pg : page) :
  bind (bind m k) h pg = bind m (fun a => bind (k a) h) pg.
Proof.
  unfold bind. destruct (m pg) as [[[a|e] pg1] out1]; [|reflexivity].
  destruct (k a pg1) as [[[b|e] pg2] out2]; [|reflexivity].
  destruct (h b pg2) as [[r pg3] out3]. rewrite app_assoc. reflexivity.
Qed.

Lemma page_after_after {A} (out : list effect) (x : result A * page * list effect) :
  page_after (after out x) = page_after x.
Proof. reflexivity. Qed.

Lemma effects_after {A} (out : list effect) (x : result A * page * list effect) :
  effects (after out x) = (out ++ effects x)%list.
Proof. reflexivity. Qed.

(** *** Reading through a reference *)

Lemma lookup_document (r : ref) (pg : page) (n : node) :
  node_at r pg = Some n -> lookup r pg = Some n.
Proof. unfold node_at, lookup. intros ->. reflexivity. Qed.


Lemma element_run (r : ref) (pg : page) (n : node) :
  lookup r pg = Some n -> element r pg = (Return n, pg, []).
Proof. unfold element. intros ->. reflexivity. Qed.

Lemma the_props_run (r : ref) (pg : page) (p : props) (kids : list node) :
  lookup r pg = Some (Elem p kids) -> the_props r pg = (Return p, pg, []).
Proof.
  intros H. unfold the_props. rewrite (bind_pure _ _ _ _ (element_run _ _ _ H)). reflexivity.
Qed.

Lemma get_id_run (r : ref) (pg : page) (p : props) (kids : list node) :
  lookup r pg = Some (Elem p kids) -> get_id r pg = (Return (id_of p), pg, []).
Proof. intros H. unfold get_id. rewrite (bind_pure _ _ _ _ (the_props_run _ _ _ _ H)). reflexivity. Qed.

Lemma style_display_run (r : ref) (pg : page) (p : props) (kids : list node) :
  lookup r pg = Some (Elem p kids) -> style_display r pg = (Return (display p), pg, []).
Proof. intros H. unfold style_display. rewrite (bind_pure _ _ _ _ (the_props_run _ _ _ _ H)). reflexivity. Qed.

Lemma get_value_run (r : ref) (pg : page) (p : props) (kids : list node) :
  lookup r pg = Some (Elem p kids) -> get_value r pg = (Return (value p), pg, []).
Proof. intros H. unfold get_value. rewrite (bind_pure _ _ _ _ (the_props_run _ _ _ _ H)). reflexivity. Qed.

Lemma dataset_run (k : string) (r : ref) (pg : page) (p : props) (kids : list node) :
  lookup r pg = Some (Elem p kids) -> dataset k r pg = (Return (dataset_get k p), pg, []).
Proof. intros H. unfold dataset. rewrite (bind_pure _ _ _ _ (the_props_run _ _ _ _ H)). reflexivity. Qed.

Lemma matches_run (c : string) (r : ref) (pg : page) (p : props) (kids : list node) :
  lookup r pg = Some (Elem p kids) -> matches c r pg = (Return (has_class c p), pg, []).
Proof. intros H. unfold matches. rewrite (bind_pure _ _ _ _ (the_props_run _ _ _ _ H)). reflexivity. Qed.

Lemma querySelector_run (c : string) (r : ref) (pg : page) (n : node) :
  lookup r pg = Some n ->
  querySelector c r pg = (Return (option_map nid (querySelector_class c n)), pg, []).
Proof. intros H. unfold querySelector. rewrite (bind_pure _ _ _ _ (element_run _ _ _ H)). reflexivity. Qed.

Lemma closest_run (c : string) (r : ref) (pg : page) (ch : list props) :
  chain_in r pg = Some ch ->
  closest c r pg = (Return (option_map nid (find (has_class c) ch)), pg, []).
Proof. unfold closest. intros ->. reflexivity. Qed.

(** *** Changes that keep identities *)

Lemma everywhere_compose (f g : node -> node) (pg : page) :
  everywhere f (everywhere g pg) = everywhere (fun n => f (g n)) pg.
Proof. unfold everywhere. simpl. rewrite map_map. reflexivity. Qed.

Lemma lookup_everywhere (g : props -> props) (x : ref) (pg : page) :
  (forall p, nid (g p) = nid p) ->
  lookup x (everywhere (map_props g) pg) = option_map (map_props g) (lookup x pg).
Proof.
  intros Hg. unfold lookup, everywhere. simpl.
  rewrite (find_node_map_props _ Hg).
  destruct (find_node x (document pg)); simpl; [reflexivity|].
  rewrite first_some_map.
  rewrite (@first_some_ext _ _ _ (fun k => option_map (map_props g) (find_node x k))).
  - apply first_some_option_map.
  - apply Forall_forall. intros k _. apply find_node_map_props. exact Hg.
Qed.

Lemma node_at_everywhere (g : props -> props) (x : ref) (pg : page) :
  (forall p, nid (g p) = nid p) ->
  node_at x (everywhere (map_props g) pg) = option_map (map_props g) (node_at x pg).
Proof. intros Hg. unfold node_at. simpl. apply find_node_map_props. exact Hg. Qed.

Lemma at_ref_nid (r : ref) (f : props -> props) :
  (forall p, nid (f p) = nid p) -> forall p, nid (at_ref r f p) = nid p.
Proof. intros Hf p. unfold at_ref. destruct (Nat.eqb (nid p) r); auto. Qed.

Lemma with_display_nid (d : string) (p : props) : nid (with_display d p) = nid p.
Proof. reflexivity. Qed.

Lemma with_attr_nid (k v : string) (p : props) : nid (with_attr k v p) = nid p.
Proof. reflexivity. Qed.

(** *** The loops that hide menus (lines 18-22 and 124-126) *)

Lemma hide_refs_nid (test : props -> bool) (pg : page) (rs : list ref) (p : props) :
  nid (hide_refs test pg rs p) = nid p.
Proof. unfold hide_refs. destruct (existsb _ _); reflexivity. Qed.

Lemma everywhere_ext (f g : node -> node) (pg : page) :
  (forall n, f n = g n) -> everywhere f pg = everywhere g pg.
Proof.
  intros H. unfold everywhere. rewrite H. f_equal. apply map_ext. exact H.
Qed.

Lemma everywhere_id (g : props -> props) (pg : page) :
  (forall p, g p = p) -> everywhere (map_props g) pg = pg.
Proof.
  intros H. unfold everywhere. destruct pg as [d dt f]. simpl. f_equal.
  - apply map_props_id. auto.
  - rewrite <- (map_id dt) at 2. apply map_ext. intros n. apply map_props_id. auto.
Qed.

Lemma test_at_everywhere (test : props -> bool) (g : props -> props) (r : ref) (pg : page) :
  (forall p, nid (g p) = nid p) -> (forall p, test (g p) = test p) ->
  test_at test r (everywhere (map_props g) pg) = test_at test r pg.
Proof.
  intros Hn Ht. unfold test_at. rewrite (lookup_everywhere _ _ _ Hn).
  destruct (lookup r pg) as [[s|p kids]|]; simpl; auto.
Qed.

Lemma forEach_hide (test : props -> bool) (rs : list ref) :
  (forall p d, test (with_display d p) = test p) ->
  forall pg,
    (forall r, In r rs -> exists p kids, lookup r pg = Some (Elem p kids)) ->
    forEach rs (fun menu =>
      bind (the_props menu) (fun p =>
        if test p then set_style_display menu "none" else ret tt)) pg
    = (Return tt, everywhere (map_props (hide_refs test pg rs)) pg, []).
Proof.
  intros Htest. induction rs as [|r rs IH]; intros pg Hrs.
  - simpl. unfold ret. rewrite everywhere_id; [reflexivity|]. reflexivity.
  - cbn [forEach]. destruct (Hrs r (or_introl eq_refl)) as (p & kids & Hp).
    rewrite bind_assoc. rewrite (bind_pure _ _ _ _ (the_props_run _ _ _ _ Hp)).
    assert (Hat : test_at test r pg = test p) by (unfold test_at; rewrite Hp; reflexivity).
    destruct (test p) eqn:Tp.
    + unfold set_style_display. rewrite bind_write. rewrite IH.
      * rewrite everywhere_compose. f_equal. f_equal.
        apply everywhere_ext. intros n. unfold update_props. rewrite map_props_compose.
        apply map_props_ext. intros q _.
        unfold hide_refs. cbn [existsb]. rewrite Hat.
        assert (Hex : forall q',
                   existsb (fun r0 => Nat.eqb (nid q') r0
                                      && test_at test r0
                                           (everywhere (map_props (at_ref r (with_display "none"))) pg)) rs
                   = existsb (fun r0 => Nat.eqb (nid q') r0 && test_at test r0 pg) rs).
        { intros q'. apply existsb_ext. intros r0. f_equal. apply test_at_everywhere.
          - apply at_ref_nid. reflexivity.
          - intros p0. unfold at_ref. destruct (Nat.eqb (nid p0) r); auto. }
        rewrite Hex. unfold at_ref. destruct (Nat.eqb (nid q) r) eqn:Eq; cbn [andb orb].
        -- match goal with |- (if ?b then _ else _) = _ => destruct b end; reflexivity.
        -- reflexivity.
      * intros r0 Hr0. destruct (Hrs r0 (or_intror Hr0)) as (p0 & k0 & Hp0).
        unfold update_props. rewrite lookup_everywhere by (apply at_ref_nid; reflexivity).
        rewrite Hp0. simpl. eauto.
    + rewrite bind_ret. rewrite IH by (intros r0 Hr0; apply Hrs; right; exact Hr0).
      f_equal. f_equal. apply everywhere_ext. intros n. apply map_props_ext. intros q _.
      unfold hide_refs. cbn [existsb]. rewrite Hat, andb_false_r. reflexivity.
Qed.

Lemma forEach_hide_all (rs : list ref) (pg : page) :
  forEach rs (fun menu => set_style_display menu "none") pg
  = (Return tt,
     everywhere (map_props (fun p => if existsb (Nat.eqb (nid p)) rs then hidden p else p)) pg,
     []).
Proof.
  revert pg. induction rs as [|r rs IH]; intros pg.
  - simpl. unfold ret. rewrite everywhere_id; reflexivity.
  - cbn [forEach]. unfold set_style_display at 1. rewrite bind_write, IH.
    rewrite everywhere_compose. f_equal. f_equal.
    apply everywhere_ext. intros n. unfold update_props. rewrite map_props_compose.
    apply map_props_ext. intros q _. cbn [existsb]. unfold at_ref.
    destruct (Nat.eqb (nid q) r) eqn:Eq; cbn [orb with_display nid].
    + match goal with |- (if ?b then _ else _) = _ => destruct b end; reflexivity.
    + reflexivity.
Qed.

(** Elements of a list without repeated identities are told apart by them. *)
Lemma same_nid (l : list props) (p q : props) :
  NoDup (map nid l) -> In p l -> In q l -> nid p = nid q -> p = q.
Proof.
  induction l as [|a l IH]; simpl; [tauto|].
  intros Hnd. inversion Hnd as [|? ? Hn Hd]; subst.
  intros [->|Hp] [->|Hq] E; auto.
  - exfalso. apply Hn. rewrite E. apply in_map. exact Hq.
  - exfalso. apply Hn. rewrite <- E. apply in_map. exact Hp.
Qed.

Lemma lookup_unique (pg : page) (p : props) :
  NoDup (nids (document pg)) -> In p (elems (document pg)) ->
  exists kids, node_at (nid p) pg = Some (Elem p kids).
Proof. intros Hnd Hin. apply find_node_unique; assumption. Qed.

(** Over the menus of a document without repeated identities, the loop
    hides exactly the menus that pass the test. *)
Lemma hide_refs_menus (test : props -> bool) (pg : page) (p : props) :
  NoDup (nids (document pg)) -> In p (elems (document pg)) ->
  hide_refs test pg (map nid (filter is_menu (elems (document pg)))) p
  = if is_menu p && test p then hidden p else p.
Proof.
  intros Hnd Hin. unfold hide_refs.
  destruct (lookup_unique pg p Hnd Hin) as (kids & Hp).
  assert (Hat : test_at test (nid p) pg = test p).
  { unfold test_at. rewrite (lookup_document _ _ _ Hp). reflexivity. }
  match goal with |- (if ?b then _ else _) = _ => destruct b eqn:Ex end.
  - apply existsb_exists in Ex. destruct Ex as (r & Hr & Hb).
    apply andb_prop in Hb. destruct Hb as (E & T). apply Nat.eqb_eq in E. subst r.
    apply in_map_iff in Hr. destruct Hr as (q & Eq & Hq). apply filter_In in Hq.
    destruct Hq as (Hq & Mq).
    assert (q = p) by (apply (same_nid _ _ _ Hnd); auto). subst q.
    rewrite Hat in T. rewrite Mq, T. reflexivity.
  - destruct (is_menu p && test p) eqn:B; [|reflexivity].
    apply andb_prop in B. destruct B as (Mp & Tp).
    assert (Hex : existsb (fun r => Nat.eqb (nid p) r && test_at test r pg)
                    (map nid (filter is_menu (elems (document pg)))) = true).
    { apply existsb_exists. exists (nid p). split.
      - apply in_map. apply filter_In. auto.
      - rewrite Nat.eqb_refl, Hat, Tp. reflexivity. }
    congruence.
Qed.

Lemma hide_all_menus (pg : page) (p : props) :
  NoDup (nids (document pg)) -> In p (elems (document pg)) ->
  (if existsb (Nat.eqb (nid p)) (map nid (filter is_menu (elems (document pg))))
   then hidden p else p) = hide_menu p.
Proof.
  intros Hnd Hin. unfold hide_menu.
  match goal with |- (if ?b then _ else _) = _ => destruct b eqn:Ex end.
  - apply existsb_exists in Ex. destruct Ex as (r & Hr & E).
    apply Nat.eqb_eq in E. subst r.
    apply in_map_iff in Hr. destruct Hr as (q & Eq & Hq). apply filter_In in Hq.
    destruct Hq as (Hq & Mq).
    assert (q = p) by (apply (same_nid _ _ _ Hnd); auto). subst q.
    rewrite Mq. reflexivity.
  - destruct (is_menu p) eqn:Mp; [|reflexivity].
    assert (Hex : existsb (Nat.eqb (nid p))
                    (map nid (filter is_menu (elems (document pg)))) = true).
    { apply existsb_exists. exists (nid p). split.
      - apply in_map. apply filter_In. auto.
      - apply Nat.eqb_refl. }
    congruence.
Qed.

End JsFacts.

Module PageFacts.

Import Str Dom Html Js View Reasoning DomFacts HtmlFacts JsFacts.

(** *** Well-formed pages *)

Lemma distinct_NoDup (A : Type) (eqb : A -> A -> bool) (l : list A) :
  (forall x y, eqb x y = true <-> x = y) ->
  distinct eqb l = true <-> NoDup l.
Proof.
  intros Heq. induction l as [|a l IH]; simpl.
  - split; [constructor|reflexivity].
  - rewrite andb_true_iff, negb_true_iff, IH. split.
    + intros (Hn & Hd). constructor; [|exact Hd]. intros Hin.
      assert (existsb (eqb a) l = true) by (apply existsb_exists; exists a; split; [exact Hin|apply Heq; reflexivity]).
      congruence.
    + intros H. inversion H as [|? ? Hn Hd]; subst. split; [|exact Hd].
      destruct (existsb (eqb a) l) eqn:E; [|reflexivity].
      apply existsb_exists in E. destruct E as (x & Hx & Ex). apply Heq in Ex. subst x. tauto.
Qed.

Lemma well_formed_spec (pg : page) :
  well_formed pg = true <->
  NoDup (nids (document pg)) /\ (forall x, In x (nids (document pg)) -> x < fresh pg).
Proof.
  unfold well_formed. rewrite andb_true_iff, (distinct_NoDup nat Nat.eqb _ Nat.eqb_eq), forallb_forall.
  split; intros (H1 & H2); (split; [exact H1|]); intros x Hx.
  - apply Nat.ltb_lt. auto.
  - apply Nat.ltb_lt. auto.
Qed.

Lemma unique_ids_spec (pg : page) : unique_ids pg = true <-> NoDup (ids (document pg)).
Proof. apply distinct_NoDup. apply String.eqb_eq. Qed.

Lemma nids_map_props (g : props -> props) (n : node) :
  (forall p, nid (g p) = nid p) -> nids (map_props g n) = nids n.
Proof.
  intros Hg. unfold nids. rewrite elems_map_props, map_map. apply map_ext. exact Hg.
Qed.

Lemma ids_map_props (g : props -> props) (n : node) :
  (forall p, attributes (g p) = attributes p) -> ids (map_props g n) = ids n.
Proof.
  intros Hg. unfold ids. rewrite elems_map_props, map_map. f_equal. apply map_ext.
  intros p. unfold id_of. rewrite Hg. reflexivity.
Qed.

Lemma well_formed_everywhere (g : props -> props) (pg : page) :
  (forall p, nid (g p) = nid p) ->
  well_formed (everywhere (map_props g) pg) = well_formed pg.
Proof.
  intros Hg. unfold well_formed. simpl. rewrite nids_map_props by exact Hg. reflexivity.
Qed.

Lemma unique_ids_everywhere (g : props -> props) (pg : page) :
  (forall p, attributes (g p) = attributes p) ->
  unique_ids (everywhere (map_props g) pg) = unique_ids pg.
Proof.
  intros Hg. unfold unique_ids. simpl. rewrite ids_map_props by exact Hg. reflexivity.
Qed.

(** *** Assigning innerHTML *)

Lemma replace_children_document (r : ref) (ms : list markup) (pg : page) :
  document (replace_children r ms pg)
  = set_kids r (fst (build_all (fresh pg) ms)) (document pg).
Proof. unfold replace_children. destruct (build_all (fresh pg) ms). reflexivity. Qed.

Lemma replace_children_fresh (r : ref) (ms : list markup) (pg : page) :
  fresh (replace_children r ms pg) = snd (build_all (fresh pg) ms).
Proof. unfold replace_children. destruct (build_all (fresh pg) ms). reflexivity. Qed.

Lemma node_at_replace_children (r : ref) (ms : list markup) (pg : page) (p : props)
    (old : list node) :
  node_at r pg = Some (Elem p old) ->
  node_at r (replace_children r ms pg) = Some (Elem p (fst (build_all (fresh pg) ms))).
Proof.
  unfold node_at. rewrite replace_children_document. apply find_node_set_kids_same.
Qed.

Lemma content_at_replace_children (r : ref) (ms : list markup) (pg : page) (p : props)
    (old : list node) :
  node_at r pg = Some (Elem p old) ->
  content_at r (replace_children r ms pg) = Some ms.
Proof.
  intros H. unfold content_at. rewrite (node_at_replace_children r ms pg p old H).
  simpl. rewrite markup_of_build_all. reflexivity.
Qed.

(** A list keeps having no repetition when a stretch of it is exchanged
    for new, different things. *)
Lemma NoDup_exchange (A : Type) (a old new b : list A) :
  NoDup (a ++ old ++ b) -> NoDup new ->
  (forall x, In x new -> ~ In x (a ++ b)) ->
  NoDup (a ++ new ++ b).
Proof.
  intros H Hn Hd.
  apply NoDup_app_inv in H. destruct H as (Ha & Hob & Hdis).
  apply NoDup_app_inv in Hob. destruct Hob as (_ & Hb & _).
  apply NoDup_app_intro; [exact Ha| |].
  - apply NoDup_app_intro; [exact Hn|exact Hb|].
    intros x Hx Hxb. apply (Hd x Hx). apply in_or_app. auto.
  - intros x Hxa Hx. apply in_app_or in Hx. destruct Hx as [Hx|Hx].
    + apply (Hd x Hx). apply in_or_app. auto.
    + apply (Hdis x Hxa). apply in_or_app. auto.
Qed.

Lemma elems_of_nids (l : list node) : map nid (elems_of l) = flat_map nids l.
Proof.
  unfold elems_of. induction l as [|k l IH]; simpl; [reflexivity|].
  rewrite map_app, IH. reflexivity.
Qed.

Lemma well_formed_replace_children (r : ref) (ms : list markup) (pg : page) :
  well_formed pg = true -> well_formed (replace_children r ms pg) = true.
Proof.
  rewrite !well_formed_spec. intros (Hnd & Hlt).
  rewrite replace_children_document, replace_children_fresh.
  destruct (build_all_nids ms (fresh pg)) as (Enew & Hle).
  destruct (find_node r (document pg)) as [m|] eqn:Er.
  - destruct (find_node_elem _ _ _ Er) as (q & old & -> & _ & _).
    destruct (set_kids_elems r (document pg) q old Hnd Er) as (l1 & l2 & E1 & E2).
    assert (Hsplit : forall l mid, l = (l1 ++ q :: elems_of mid ++ l2)%list ->
               map nid l = ((map nid l1 ++ [nid q]) ++ flat_map nids mid ++ map nid l2)%list).
    { intros l mid ->. rewrite map_app. simpl. rewrite map_app, elems_of_nids.
      rewrite <- app_assoc. reflexivity. }
    pose proof (Hsplit _ _ E1) as N1. pose proof (Hsplit _ _ (E2 (fst (build_all (fresh pg) ms)))) as N2.
    fold (nids (document pg)) in N1.
    fold (nids (set_kids r (fst (build_all (fresh pg) ms)) (document pg))) in N2.
    rewrite N2. rewrite N1 in Hnd, Hlt. rewrite Enew. split.
    + apply (NoDup_exchange _ _ _ _ _ Hnd).
      * apply seq_NoDup.
      * intros x Hx Hin. apply in_seq in Hx.
        assert (x < fresh pg).
        { apply Hlt. apply in_app_or in Hin. apply in_or_app.
          destruct Hin as [Hin|Hin]; [left; exact Hin|right; apply in_or_app; right; exact Hin]. }
        lia.
    + intros x Hx. apply in_app_or in Hx. destruct Hx as [Hx|Hx].
      * assert (x < fresh pg) by (apply Hlt; apply in_or_app; auto). lia.
      * apply in_app_or in Hx. destruct Hx as [Hx|Hx].
        -- apply in_seq in Hx. lia.
        -- assert (x < fresh pg) by (apply Hlt; apply in_or_app; right; apply in_or_app; auto). lia.
  - rewrite set_kids_absent by (apply find_node_present; exact Er).
    split; [exact Hnd|]. intros x Hx. specialize (Hlt x Hx). lia.
Qed.

Lemma idless_ids (ms : list markup) (n : nat) :
  idless ms -> filter nonempty (map id_of (elems_of (fst (build_all n ms)))) = [].
Proof.
  unfold idless. rewrite <- (build_all_attributes ms n).
  generalize (elems_of (fst (build_all n ms))). intros l.
  induction l as [|p l IH]; simpl; [reflexivity|].
  intros H. inversion H as [|? ? Hp Hl]; subst.
  unfold id_of at 1. rewrite Hp. simpl. auto.
Qed.

Lemma unique_ids_replace_children (r : ref) (ms : list markup) (pg : page) :
  idless ms -> well_formed pg = true -> unique_ids pg = true ->
  unique_ids (replace_children r ms pg) = true.
Proof.
  intros Hms Hwf. apply well_formed_spec in Hwf. destruct Hwf as (Hnd & _).
  rewrite !unique_ids_spec. rewrite replace_children_document.
  destruct (find_node r (document pg)) as [m|] eqn:Er.
  - destruct (find_node_elem _ _ _ Er) as (q & old & -> & _ & _).
    destruct (set_kids_elems r (document pg) q old Hnd Er) as (l1 & l2 & E1 & E2).
    unfold ids. rewrite E2, E1.
    assert (Hsplit : forall mid, filter nonempty (map id_of (l1 ++ q :: mid ++ l2)%list)
                                 = (filter nonempty (map id_of (l1 ++ [q]))
                                    ++ filter nonempty (map id_of mid)
                                    ++ filter nonempty (map id_of l2))%list).
    { intros mid. change (q :: mid ++ l2)%list with ([q] ++ mid ++ l2)%list.
      rewrite app_assoc. rewrite !map_app, !filter_app. rewrite <- !app_assoc. reflexivity. }
    rewrite !Hsplit. rewrite (idless_ids ms (fresh pg) Hms).
    intros H. apply (NoDup_exchange _ _ _ _ _ H); [constructor|intros x []].
  - rewrite set_kids_absent by (apply find_node_present; exact Er). auto.
Qed.

(** New elements are not shown, so replacing children opens no menu. *)
Lemma visible_replace_children (r : ref) (ms : list markup) (pg : page) :
  well_formed pg = true ->
  List.length (visible_menus (replace_children r ms pg)) <= List.length (visible_menus pg).
Proof.
  intros Hwf. apply well_formed_spec in Hwf. destruct Hwf as (Hnd & _).
  unfold visible_menus. rewrite replace_children_document.
  destruct (find_node r (document pg)) as [m|] eqn:Er.
  - destruct (find_node_elem _ _ _ Er) as (q & old & -> & _ & _).
    destruct (set_kids_elems r (document pg) q old Hnd Er) as (l1 & l2 & E1 & E2).
    rewrite E2, E1.
    change (q :: elems_of ?x ++ l2)%list with ([q] ++ elems_of x ++ l2)%list.
    rewrite !filter_app, !length_app.
    assert (Hnew : filter (fun p => is_menu p && shown p)
                     (elems_of (fst (build_all (fresh pg) ms))) = []).
    { pose proof (build_all_display ms (fresh pg)) as Hd.
      induction Hd as [|p l Hp _ IH]; simpl; [reflexivity|].
      unfold shown at 1. rewrite Hp. rewrite andb_false_r. exact IH. }
    rewrite Hnew. simpl. lia.
  - rewrite set_kids_absent by (apply find_node_present; exact Er). lia.
Qed.

End PageFacts.

Module InvFacts.

Import Str Dom Html Js Script View Reasoning DomFacts HtmlFacts JsFacts PageFacts.

(** *** Handlers that keep a property of the page *)

Section Preserves.
Variable P : page -> Prop.

Lemma preserves_ret {A} (a : A) : preserves P (ret a).
Proof. intros pg H. exact H. Qed.

Lemma preserves_throw {A} (e : exn) : preserves P (@throw A e).
Proof. intros pg H. exact H. Qed.

Lemma preserves_emit (e : effect) : preserves P (emit e).
Proof. intros pg H. exact H. Qed.

Lemma preserves_read {A} (f : page -> A) : preserves P (read f).
Proof. intros pg H. exact H. Qed.

Lemma preserves_write (f : page -> page) :
  (forall pg, P pg -> P (f pg)) -> preserves P (write f).
Proof. intros Hf pg H. apply Hf. exact H. Qed.

Lemma preserves_bind {A B} (m : M A) (k : A -> M B) :
  preserves P m -> (forall a, preserves P (k a)) -> preserves P (bind m k).
Proof.
  intros Hm Hk pg H. specialize (Hm pg H). unfold page_after in *.
  unfold bind. destruct (m pg) as [[[a|e] pg1] out1]; simpl in Hm.
  - specialize (Hk a pg1 Hm). unfold page_after in Hk.
    destruct (k a pg1) as [[r pg2] out2]. exact Hk.
  - exact Hm.
Qed.

Lemma preserves_try_catch {A} (m : M A) (h : exn -> M A) :
  preserves P m -> (forall e, preserves P (h e)) -> preserves P (try_catch m h).
Proof.
  intros Hm Hh pg H. specialize (Hm pg H). unfold page_after in *.
  unfold try_catch. destruct (m pg) as [[[a|e] pg1] out1]; simpl in Hm.
  - exact Hm.
  - specialize (Hh e pg1 Hm). unfold page_after in Hh.
    destruct (h e pg1) as [[r pg2] out2]. exact Hh.
Qed.

Lemma preserves_forEach {A} (l : list A) (f : A -> M unit) :
  (forall x, preserves P (f x)) -> preserves P (forEach l f).
Proof.
  intros Hf. induction l as [|x l IH]; simpl.
  - apply preserves_ret.
  - apply preserves_bind; [apply Hf|intros _; exact IH].
Qed.

Lemma preserves_element (r : ref) : preserves P (element r).
Proof. intros pg H. unfold element, page_after. destruct (lookup r pg); exact H. Qed.

Lemma preserves_the_props (r : ref) : preserves P (the_props r).
Proof.
  apply preserves_bind; [apply preserves_element|].
  intros n. destruct (props_of n); [apply preserves_ret|apply preserves_throw].
Qed.

Lemma preserves_deref (o : option ref) : preserves P (deref o).
Proof. destruct o; [apply preserves_ret|apply preserves_throw]. Qed.

Lemma preserves_closest (c : string) (r : ref) : preserves P (closest c r).
Proof. intros pg H. unfold closest, page_after. destruct (chain_in r pg); exact H. Qed.

Lemma preserves_json_of (o : outcome) : preserves P (json_of o).
Proof.
  destruct o as [reason|ok code data]; simpl; [apply preserves_throw|].
  destruct (negb ok); [apply preserves_throw|].
  destruct data; [apply preserves_ret|apply preserves_throw].
Qed.

End Preserves.

Ltac keeps :=
  repeat first
    [ apply preserves_bind; [|intros ?]
    | apply preserves_try_catch; [|intros ?]
    | apply preserves_forEach; intros ?
    | apply preserves_ret | apply preserves_throw | apply preserves_emit
    | apply preserves_read | apply preserves_element | apply preserves_the_props
    | apply preserves_deref | apply preserves_closest | apply preserves_json_of
    | match goal with
      | |- preserves _ (if ?b then _ else _) => destruct b
      | |- preserves _ (match ?o with Some _ => _ | None => _ end) => destruct o
      | |- preserves _ (get_id _) => unfold get_id
      | |- preserves _ (style_display _) => unfold style_display
      | |- preserves _ (get_value _) => unfold get_value
      | |- preserves _ (dataset _ _) => unfold dataset
      | |- preserves _ (matches _ _) => unfold matches
      | |- preserves _ (querySelector _ _) => unfold querySelector
      | |- preserves _ (getElementById _) => unfold getElementById
      | |- preserves _ (querySelectorAll _) => unfold querySelectorAll
      end ].

(** *** The invariant under the three ways of writing the page *)

Lemma length_filter_map_le (f : props -> bool) (g : props -> props) (l : list props) :
  (forall p, f (g p) = true -> f p = true) ->
  List.length (filter f (map g l)) <= List.length (filter f l).
Proof.
  intros H. induction l as [|p l IH]; simpl; [lia|].
  destruct (f (g p)) eqn:E.
  - rewrite (H p E). simpl. lia.
  - destruct (f p); simpl; lia.
Qed.

Lemma invariant_everywhere (g : props -> props) (pg : page) :
  harmless g -> invariant pg -> invariant (everywhere (map_props g) pg).
Proof.
  intros Hg (Hwf & Hid & Hone). repeat split.
  - rewrite well_formed_everywhere; [exact Hwf|]. intros p. apply Hg.
  - unfold unique_ids in *. simpl.
    replace (ids (map_props g (document pg))) with (ids (document pg)); [exact Hid|].
    unfold ids. rewrite elems_map_props, map_map. f_equal. apply map_ext.
    intros p. symmetry. apply Hg.
  - unfold at_most_one_visible, visible_menus in *. simpl. rewrite elems_map_props.
    etransitivity; [apply length_filter_map_le|exact Hone].
    intros p. apply Hg.
Qed.

Lemma harmless_at_ref (r : ref) (f : props -> props) : harmless f -> harmless (at_ref r f).
Proof.
  intros Hf p. unfold at_ref. destruct (Nat.eqb (nid p) r); [apply Hf|auto].
Qed.

Lemma harmless_hidden : harmless (with_display "none").
Proof.
  intros p. repeat split. unfold shown. simpl. rewrite andb_false_r. discriminate.
Qed.



Lemma invariant_set_style_none (r : ref) :
  preserves invariant (set_style_display r "none").
Proof.
  apply preserves_write. intros pg H. unfold update_props.
  apply invariant_everywhere; [|exact H]. apply harmless_at_ref, harmless_hidden.
Qed.


Lemma invariant_replace_children (r : ref) (ms : list markup) (pg : page) :
  idless ms -> invariant pg -> invariant (replace_children r ms pg).
Proof.
  intros Hms (Hwf & Hid & Hone). repeat split.
  - apply well_formed_replace_children. exact Hwf.
  - apply unique_ids_replace_children; assumption.
  - unfold at_most_one_visible in *.
    etransitivity; [apply visible_replace_children; exact Hwf|exact Hone].
Qed.

Lemma invariant_set_innerHTML (r : ref) (ms : list markup) :
  idless ms -> preserves invariant (set_innerHTML r ms).
Proof.
  intros Hms. apply preserves_write. intros pg. apply invariant_replace_children. exact Hms.
Qed.

(** *** The templates declare no id *)



Lemma idless_loading : idless [MText "Loading..."].
Proof. constructor. Qed.

Lemma idless_text (s : string) : idless (text s).
Proof. unfold text. destruct (nonempty s); constructor. Qed.



End InvFacts.

Module MenuFacts.

Import Str Dom Html Js Script View Reasoning DomFacts HtmlFacts JsFacts PageFacts InvFacts.

(** *** A content area inside its menu *)

Lemma flat_map_nids_in (kids : list node) (k : node) (x : nat) :
  In k kids -> In x (nids k) -> In x (flat_map nids kids).
Proof. intros Hk Hx. apply in_flat_map. exists k. auto. Qed.

Lemma elems_of_in_nids (kids : list node) (p : props) :
  In p (elems_of kids) -> In (nid p) (flat_map nids kids).
Proof.
  intros H. apply in_flat_map in H. destruct H as (k & Hk & Hp).
  apply in_flat_map. exists k. split; [exact Hk|]. unfold nids. apply in_map. exact Hp.
Qed.

Lemma first_with_class_In (c : string) (n : node) (p : props) :
  first_with_class c n = Some p -> In p (elems n) /\ has_class c p = true.
Proof.
  induction n as [s|q kids IH] using node_ind; simpl; [discriminate|].
  destruct (has_class c q) eqn:Hc.
  - intros [= <-]. auto.
  - intros H. apply first_some_In in H. destruct H as (k & Hk & Hp).
    rewrite Forall_forall in IH. destruct (IH k Hk Hp) as (Hin & Hcl).
    split; [|exact Hcl]. right. apply in_flat_map. exists k. auto.
Qed.

Lemma querySelector_class_In (c : string) (p : props) (kids : list node) (q : props) :
  querySelector_class c (Elem p kids) = Some q -> In q (elems_of kids) /\ has_class c q = true.
Proof.
  simpl. intros H. apply first_some_In in H. destruct H as (k & Hk & Hq).
  destruct (first_with_class_In _ _ _ Hq) as (Hin & Hc).
  split; [|exact Hc]. apply in_flat_map. exists k. auto.
Qed.

Lemma map_set_kids_absent (r : ref) (new : list node) (kids : list node) :
  ~ In r (flat_map nids kids) -> map (set_kids r new) kids = kids.
Proof.
  induction kids as [|k kids IH]; simpl; [reflexivity|].
  intros H. rewrite set_kids_absent, IH; [reflexivity| |];
    intros Hin; apply H; apply in_or_app; auto.
Qed.

(** Replacing the children of the first element of a class leaves it the
    first element of that class. *)
Lemma first_with_class_set_kids_list (cls : string) (new : list node) (pc : props)
    (kids : list node) :
  Forall (fun k => NoDup (nids k) -> first_with_class cls k = Some pc ->
                   first_with_class cls (set_kids (nid pc) new k) = Some pc) kids ->
  NoDup (flat_map nids kids) ->
  first_some (first_with_class cls) kids = Some pc ->
  first_some (first_with_class cls) (map (set_kids (nid pc) new) kids) = Some pc.
Proof.
  induction 1 as [|k kids Hk _ IHk]; simpl; [discriminate|].
  intros Hnd. apply NoDup_app_inv in Hnd. destruct Hnd as (Hk1 & Hk2 & Hdis).
  destruct (first_with_class cls k) eqn:Ek.
  - intros [= ->]. rewrite (Hk Hk1 eq_refl). reflexivity.
  - intros H.
    assert (Hin : In (nid pc) (flat_map nids kids)).
    { apply first_some_In in H. destruct H as (k' & Hk' & Hp).
      apply first_with_class_In in Hp. destruct Hp as (Hp & _).
      apply (flat_map_nids_in _ k'); [exact Hk'|]. unfold nids. apply in_map. exact Hp. }
    rewrite set_kids_absent by (intros Hx; exact (Hdis _ Hx Hin)).
    rewrite Ek. exact (IHk Hk2 H).
Qed.

Lemma first_with_class_set_kids (cls : string) (new : list node) (pc : props) (n : node) :
  NoDup (nids n) -> first_with_class cls n = Some pc ->
  first_with_class cls (set_kids (nid pc) new n) = Some pc.
Proof.
  induction n as [s|p kids IH] using node_ind; [discriminate|].
  rewrite nids_elem. intros Hnd. inversion Hnd as [|? ? Hp Hks]; subst.
  simpl. destruct (has_class cls p) eqn:Hc.
  - intros [= ->]. rewrite Nat.eqb_refl. simpl. rewrite Hc. reflexivity.
  - intros H.
    assert (Hin : In (nid pc) (flat_map nids kids)).
    { apply first_some_In in H. destruct H as (k' & Hk' & Hq).
      apply first_with_class_In in Hq. destruct Hq as (Hq & _).
      apply (flat_map_nids_in _ k'); [exact Hk'|]. unfold nids. apply in_map. exact Hq. }
    destruct (Nat.eqb_spec (nid p) (nid pc)) as [E|E]; [rewrite E in Hp; tauto|].
    simpl. rewrite Hc. apply first_with_class_set_kids_list; assumption.
Qed.

Lemma querySelector_class_set_kids (cls : string) (new : list node) (pc pt : props)
    (kt : list node) :
  NoDup (flat_map nids kt) ->
  querySelector_class cls (Elem pt kt) = Some pc ->
  querySelector_class cls (Elem pt (map (set_kids (nid pc) new) kt)) = Some pc.
Proof.
  simpl. intros Hnd H. apply first_with_class_set_kids_list; [|exact Hnd|exact H].
  apply Forall_forall. intros k _. apply first_with_class_set_kids.
Qed.

Lemma find_node_nids (x : ref) (n m : node) :
  find_node x n = Some m -> incl (nids m) (nids n).
Proof.
  induction n as [s|p kids IH] using node_ind; simpl; [discriminate|].
  destruct (Nat.eqb (nid p) x).
  - intros [= <-]. apply incl_refl.
  - intros H. apply first_some_In in H. destruct H as (k & Hk & Hm).
    rewrite Forall_forall in IH. intros y Hy. rewrite nids_elem. right.
    apply (flat_map_nids_in _ k); [exact Hk|]. exact (IH k Hk Hm y Hy).
Qed.

(** Replacing children below [t] is replacing the children of [t] by
    its children with that replacement done. *)
Lemma set_kids_inside (c t : ref) (new : list node) (n : node) (pt : props)
    (kt : list node) :
  NoDup (nids n) -> find_node t n = Some (Elem pt kt) -> In c (flat_map nids kt) ->
  set_kids c new n = set_kids t (map (set_kids c new) kt) n.
Proof.
  induction n as [s|p kids IH] using node_ind; [discriminate|].
  rewrite nids_elem. intros Hnd. inversion Hnd as [|? ? Hp Hks]; subst.
  simpl. destruct (Nat.eqb_spec (nid p) t) as [Et|Et].
  - intros [= -> ->] Hc.
    destruct (Nat.eqb_spec (nid pt) c) as [Ec|Ec]; [rewrite Ec in Hp; tauto|reflexivity].
  - intros H Hc.
    assert (Hsub : In c (flat_map nids kids)).
    { apply first_some_In in H. destruct H as (k & Hk & Hm).
      apply (flat_map_nids_in _ k); [exact Hk|].
      apply (find_node_nids _ _ _ Hm). rewrite nids_elem. right. exact Hc. }
    destruct (Nat.eqb_spec (nid p) c) as [Ec|Ec]; [rewrite Ec in Hp; tauto|].
    f_equal. clear Hnd Hp Ec Et Hsub.
    induction IH as [|k kids Hk _ IHk]; simpl in *; [reflexivity|].
    apply NoDup_app_inv in Hks. destruct Hks as (Hk1 & Hk2 & Hdis).
    destruct (find_node t k) eqn:Ek.
    + injection H as ->. rewrite (Hk Hk1 eq_refl Hc). f_equal.
      assert (Hck : In c (nids k)).
      { apply (find_node_nids _ _ _ Ek). rewrite nids_elem. right. exact Hc. }
      assert (Htk : In t (nids k)).
      { destruct (find_node_elem _ _ _ Ek) as (p' & ks' & _ & <- & Hin).
        unfold nids. apply in_map. exact Hin. }
      rewrite (map_set_kids_absent c) by (intros Hx; exact (Hdis _ Hck Hx)).
      rewrite (map_set_kids_absent t) by (intros Hx; exact (Hdis _ Htk Hx)).
      reflexivity.
    + rewrite (IHk Hk2 H).
      assert (Hck : ~ In c (nids k)).
      { intros Hx. apply (Hdis _ Hx). apply first_some_In in H.
        destruct H as (k' & Hk' & Hm). apply (flat_map_nids_in _ k'); [exact Hk'|].
        apply (find_node_nids _ _ _ Hm). rewrite nids_elem. right. exact Hc. }
      rewrite !set_kids_absent; [reflexivity| |exact Hck].
      apply find_node_present. exact Ek.
Qed.

(** The first element that passes [f] stays the first when children
    are replaced below it. *)
Lemma find_set_kids_inside (f : props -> bool) (c : ref) (new : list node) (n : node)
    (pt : props) (kt : list node) :
  NoDup (nids n) -> find f (elems n) = Some pt ->
  find_node (nid pt) n = Some (Elem pt kt) -> In c (flat_map nids kt) ->
  find f (elems (set_kids c new n)) = Some pt.
Proof.
  intros Hnd Hf Ht Hc.
  rewrite (set_kids_inside c (nid pt) new n pt kt Hnd Ht Hc).
  destruct (set_kids_elems (nid pt) n pt kt Hnd Ht) as (l1 & l2 & E1 & E2).
  rewrite E2. rewrite E1 in Hf.
  assert (Hl1 : find f l1 = None).
  { destruct (find f l1) as [x|] eqn:Ex; [|reflexivity]. exfalso.
    assert (Hx : find f (l1 ++ pt :: elems_of kt ++ l2) = Some x).
    { clear - Ex. induction l1 as [|a l1 IH]; simpl in *; [discriminate|].
      destruct (f a); [exact Ex|auto]. }
    rewrite Hx in Hf. injection Hf as ->.
    apply find_some in Ex. destruct Ex as (Hin & _).
    unfold nids in Hnd. rewrite E1, map_app in Hnd. apply NoDup_app_inv in Hnd.
    destruct Hnd as (_ & _ & Hdis). apply (Hdis (nid pt)).
    - apply in_map. exact Hin.
    - simpl. auto. }
  assert (Hpt : f pt = true) by (apply find_some in Hf; tauto).
  clear - Hl1 Hpt. induction l1 as [|a l1 IH]; simpl in *.
  - rewrite Hpt. reflexivity.
  - destruct (f a); [discriminate|auto].
Qed.

End MenuFacts.

Module ToggleFacts.

Import Str Dom Html Js Script View Reasoning DomFacts HtmlFacts JsFacts PageFacts InvFacts MenuFacts.

(** *** Changes of display, seen from the document *)

Lemma display_only_at_ref (r : ref) (d : string) : display_only (at_ref r (with_display d)).
Proof. intros p. unfold at_ref. destruct (Nat.eqb (nid p) r); auto. Qed.

Lemma display_only_hide_other (menuId : string) : display_only (hide_other menuId).
Proof. intros p. unfold hide_other. destruct (_ && _); auto. Qed.

Lemma display_only_compose (g h : props -> props) :
  display_only g -> display_only h -> display_only (fun p => g (h p)).
Proof.
  intros Hg Hh p. destruct (Hg (h p)) as (E1 & E2). destruct (Hh p) as (E3 & E4).
  split; congruence.
Qed.

Lemma display_only_class (g : props -> props) (c : string) (p : props) :
  display_only g -> has_class c (g p) = has_class c p.
Proof. intros Hg. unfold has_class, classList. destruct (Hg p) as (_ & ->). reflexivity. Qed.

Lemma display_only_id (g : props -> props) (p : props) :
  display_only g -> id_of (g p) = id_of p.
Proof. intros Hg. unfold id_of. destruct (Hg p) as (_ & ->). reflexivity. Qed.

Lemma display_only_data (g : props -> props) (k : string) (p : props) :
  display_only g -> dataset_get k (g p) = dataset_get k p.
Proof. intros Hg. unfold dataset_get. destruct (Hg p) as (_ & ->). reflexivity. Qed.

Lemma find_map_same (f : props -> bool) (g : props -> props) (l : list props) :
  (forall p, f (g p) = f p) -> find f (map g l) = option_map g (find f l).
Proof.
  intros H. induction l as [|p l IH]; simpl; [reflexivity|].
  rewrite H. destruct (f p); [reflexivity|exact IH].
Qed.

Lemma well_formed_document (g : props -> props) (pg pg1 : page) :
  document pg1 = map_props g (document pg) -> fresh pg1 = fresh pg ->
  (forall p, nid (g p) = nid p) -> well_formed pg1 = well_formed pg.
Proof.
  intros Hd Hf Hg. unfold well_formed. rewrite Hd, Hf, nids_map_props by exact Hg.
  reflexivity.
Qed.

Lemma display_only_quiet (g : props -> props) : display_only g -> quiet g.
Proof.
  intros Hg p. split; [apply Hg|]. split; [apply display_only_id; exact Hg|].
  intros c. apply display_only_class. exact Hg.
Qed.


Lemma menu_at_document (g : props -> props) (menuId : string) (pg pg1 : page)
    (pt pc : props) :
  document pg1 = map_props g (document pg) -> quiet g ->
  menu_at menuId pg pt pc -> menu_at menuId pg1 (g pt) (g pc).
Proof.
  intros Hd Hg (Hfind & kt & Hnode & Hq). split.
  - rewrite Hd. unfold by_id in *. destruct (nonempty menuId); [|discriminate].
    rewrite elems_map_props, find_map_same, Hfind; [reflexivity|].
    intros p. destruct (Hg p) as (_ & -> & _). reflexivity.
  - exists (map (map_props g) kt). unfold node_at in *. rewrite Hd. split.
    + rewrite find_node_map_props by (intros p; apply Hg).
      destruct (Hg pt) as (-> & _). rewrite Hnode. reflexivity.
    + change (Elem (g pt) (map (map_props g) kt)) with (map_props g (Elem pt kt)).
      rewrite querySelector_class_map_props, Hq; [reflexivity|].
      intros p. apply Hg.
Qed.

(** *** Assigning innerHTML to the content area of a menu *)

Lemma find_node_NoDup (x : ref) (n : node) (p : props) (kids : list node) :
  NoDup (nids n) -> find_node x n = Some (Elem p kids) ->
  NoDup (flat_map nids kids) /\ ~ In (nid p) (flat_map nids kids).
Proof.
  intros Hnd Hx. destruct (set_kids_elems x n p kids Hnd Hx) as (l1 & l2 & E1 & _).
  unfold nids in Hnd. rewrite E1 in Hnd.
  change (p :: elems_of kids ++ l2)%list with ((p :: elems_of kids) ++ l2)%list in Hnd.
  rewrite map_app in Hnd. apply NoDup_app_inv in Hnd. destruct Hnd as (_ & Hnd & _).
  rewrite map_app in Hnd. apply NoDup_app_inv in Hnd. destruct Hnd as (Hnd & _ & _).
  simpl in Hnd. rewrite elems_of_nids in Hnd. inversion Hnd; subst. auto.
Qed.

Lemma menu_at_replace_children (menuId : string) (pg : page) (pt pc : props)
    (ms : list markup) :
  well_formed pg = true -> menu_at menuId pg pt pc ->
  menu_at menuId (replace_children (nid pc) ms pg) pt pc.
Proof.
  intros Hwf (Hfind & kt & Hnode & Hq).
  apply well_formed_spec in Hwf. destruct Hwf as (Hnd & _).
  unfold node_at in Hnode.
  destruct (find_node_NoDup _ _ _ _ Hnd Hnode) as (Hkt & Hpt).
  assert (Hc : In (nid pc) (flat_map nids kt)).
  { apply elems_of_in_nids. apply (querySelector_class_In _ _ _ _ Hq). }
  split.
  - rewrite replace_children_document. unfold by_id in *.
    destruct (nonempty menuId); [|discriminate]. eapply find_set_kids_inside; eauto.
  - exists (map (set_kids (nid pc) (fst (build_all (fresh pg) ms))) kt).
    unfold node_at. rewrite replace_children_document. split.
    + rewrite (set_kids_inside _ (nid pt) _ _ pt kt Hnd Hnode Hc).
      apply (find_node_set_kids_same _ _ _ _ _ Hnode).
    + apply querySelector_class_set_kids; assumption.
Qed.

Lemma menu_at_content (menuId : string) (pg : page) (pt pc : props) :
  well_formed pg = true -> menu_at menuId pg pt pc ->
  exists kc, node_at (nid pc) pg = Some (Elem pc kc).
Proof.
  intros Hwf (_ & kt & Hnode & Hq).
  apply well_formed_spec in Hwf. destruct Hwf as (Hnd & _).
  apply find_node_unique; [exact Hnd|].
  destruct (find_node_elem _ _ _ Hnode) as (p' & ks' & E & _ & _). injection E as <- <-.
  destruct (querySelector_class_In _ _ _ _ Hq) as (Hin & _).
  destruct (set_kids_elems _ _ _ _ Hnd Hnode) as (l1 & l2 & E1 & _).
  rewrite E1. apply in_or_app. right. right. apply in_or_app. left. exact Hin.
Qed.

(** *** The first loop: hide the other menus *)

Lemma forEach_ext {A} (l : list A) (f g : A -> M unit) :
  (forall x pg, f x pg = g x pg) -> forall pg, forEach l f pg = forEach l g pg.
Proof.
  intros H. induction l as [|x l IH]; intros pg; simpl; [reflexivity|].
  rewrite !bind_unfold, H. destruct (g x pg) as [[[[]|e] pg1] out1]; [|reflexivity].
  rewrite IH. reflexivity.
Qed.

Lemma hide_other_menus_run (menuId : string) (pg : page) :
  well_formed pg = true ->
  exists pg1, hide_other_menus menuId pg = (Return tt, pg1, []) /\
              document pg1 = map_props (hide_other menuId) (document pg) /\
              fresh pg1 = fresh pg.
Proof.
  intros Hwf. apply well_formed_spec in Hwf. destruct Hwf as (Hnd & _).
  unfold hide_other_menus, querySelectorAll. rewrite bind_read.
  set (test := fun p => negb (id_of p =? menuId)).
  rewrite (forEach_ext _ _
             (fun menu => bind (the_props menu) (fun p =>
                if test p then set_style_display menu "none" else ret tt))).
  - rewrite forEach_hide.
    + eexists. split; [reflexivity|]. split; [|reflexivity].
      cbn [document everywhere]. apply map_props_ext. intros p Hp.
      change (has_class "collections-menu") with is_menu.
      rewrite (hide_refs_menus test pg p Hnd Hp). reflexivity.
    + reflexivity.
    + intros r Hr. apply in_map_iff in Hr. destruct Hr as (p & <- & Hp).
      apply filter_In in Hp. destruct Hp as (Hp & _).
      destruct (lookup_unique pg p Hnd Hp) as (kids & Hk).
      exists p, kids. apply lookup_document. exact Hk.
  - intros menu pg0. unfold get_id. rewrite bind_assoc.
    rewrite !bind_unfold. destruct (the_props menu pg0) as [[[p|e] pg1] out1]; [|reflexivity].
    rewrite bind_ret. reflexivity.
Qed.

(** The handler is its two loops and its tail, one after the other. *)
Lemma toggle_run (menuId : string) (pg : page) :
  well_formed pg = true ->
  exists pg1,
    document pg1 = map_props (hide_other menuId) (document pg) /\
    fresh pg1 = fresh pg /\
    toggleCollectionsMenu menuId pg
    = after [StopPropagation]
        (toggle_target menuId (option_map nid (by_id menuId (document pg))) pg1).
Proof.
  intros Hwf. destruct (hide_other_menus_run menuId pg Hwf) as (pg1 & Hrun & Hd & Hf).
  exists pg1. split; [exact Hd|]. split; [exact Hf|].
  unfold toggleCollectionsMenu. rewrite bind_emit. f_equal.
  unfold getElementById. rewrite bind_read.
  rewrite (bind_step _ _ _ _ _ _ Hrun). apply after_nil.
Qed.

(** *** The tail: hide the target or show it *)

Section Target.
Variables (menuId : string) (pg : page) (pt pc : props).
Hypothesis Hwf : well_formed pg = true.
Hypothesis Hmenu : menu_at menuId pg pt pc.

Let shown_page : page := everywhere (update_props (nid pt) (with_display "block")) pg.

Lemma target_lookup : exists kt, lookup (nid pt) pg = Some (Elem pt kt) /\
  querySelector_class "collections-menu-content" (Elem pt kt) = Some pc.
Proof.
  destruct Hmenu as (_ & kt & Hnode & Hq). exists kt. split; [|exact Hq].
  apply lookup_document. exact Hnode.
Qed.

Lemma toggle_target_hides :
  display pt = "block" ->
  toggle_target menuId (Some (nid pt)) pg
  = (Return tt, everywhere (update_props (nid pt) (with_display "none")) pg, []).
Proof.
  intros Hd. destruct target_lookup as (kt & Hl & _).
  unfold toggle_target. cbn [deref]. rewrite bind_ret.
  rewrite (bind_pure _ _ _ _ (style_display_run _ _ _ _ Hl)). rewrite Hd. reflexivity.
Qed.

Lemma shown_page_content :
  exists kt kc,
    lookup (nid pt) shown_page = Some (Elem (with_display "block" pt) kt) /\
    querySelector_class "collections-menu-content" (Elem (with_display "block" pt) kt)
    = Some (at_ref (nid pt) (with_display "block") pc) /\
    lookup (nid pc) shown_page = Some (Elem (at_ref (nid pt) (with_display "block") pc) kc).
Proof.
  destruct Hmenu as (_ & kt & Hnode & Hq).
  destruct (menu_at_content menuId pg pt pc Hwf Hmenu) as (kc & Hc).
  set (g := at_ref (nid pt) (with_display "block")).
  assert (Hg : display_only g) by apply display_only_at_ref.
  exists (map (map_props g) kt), (map (map_props g) kc).
  assert (Ept : g pt = with_display "block" pt).
  { unfold g, at_ref. rewrite Nat.eqb_refl. reflexivity. }
  unfold shown_page, update_props. fold g. repeat split.
  - apply lookup_document. rewrite node_at_everywhere by (intros p; apply Hg).
    rewrite Hnode. simpl. rewrite Ept. reflexivity.
  - rewrite <- Ept. change (Elem (g pt) (map (map_props g) kt)) with (map_props g (Elem pt kt)).
    rewrite querySelector_class_map_props, Hq; [reflexivity|].
    intros p. apply display_only_class. exact Hg.
  - apply lookup_document. rewrite node_at_everywhere by (intros p; apply Hg).
    rewrite Hc. reflexivity.
Qed.

Lemma toggle_target_shows :
  display pt <> "block" -> truthy (dataset_get "loaded" pc) = true ->
  toggle_target menuId (Some (nid pt)) pg = (Return tt, shown_page, []).
Proof.
  intros Hd Hloaded. destruct target_lookup as (kt & Hl & _).
  destruct shown_page_content as (kt' & kc' & Hl1 & Hq1 & Hl2).
  unfold toggle_target. cbn [deref]. rewrite bind_ret.
  rewrite (bind_pure _ _ _ _ (style_display_run _ _ _ _ Hl)).
  apply String.eqb_neq in Hd. rewrite Hd.
  unfold set_style_display. rewrite bind_write. fold shown_page.
  rewrite (bind_pure _ _ _ _ (querySelector_run "collections-menu-content" _ _ _ Hl1)).
  rewrite Hq1. cbn [option_map deref]. rewrite bind_ret.
  rewrite (at_ref_nid _ _ (with_display_nid "block")).
  rewrite (bind_pure _ _ _ _ (dataset_run "loaded" _ _ _ _ Hl2)).
  rewrite (display_only_data _ _ _ (display_only_at_ref _ _)). rewrite Hloaded.
  reflexivity.
Qed.

Lemma toggle_target_fetches :
  display pt <> "block" -> truthy (dataset_get "loaded" pc) = false ->
  toggle_target menuId (Some (nid pt)) pg
  = (Return tt,
     replace_children (nid pc) [MText "Loading..."] shown_page,
     [Fetch (status_request (pop (split "-" menuId)))
            (AwaitStatus (nid pc) (pop (split "-" menuId)))]).
Proof.
  intros Hd Hloaded. destruct target_lookup as (kt & Hl & _).
  destruct shown_page_content as (kt' & kc' & Hl1 & Hq1 & Hl2).
  unfold toggle_target. cbn [deref]. rewrite bind_ret.
  rewrite (bind_pure _ _ _ _ (style_display_run _ _ _ _ Hl)).
  apply String.eqb_neq in Hd. rewrite Hd.
  unfold set_style_display. rewrite bind_write. fold shown_page.
  rewrite (bind_pure _ _ _ _ (querySelector_run "collections-menu-content" _ _ _ Hl1)).
  rewrite Hq1. cbn [option_map deref]. rewrite bind_ret.
  rewrite (at_ref_nid _ _ (with_display_nid "block")).
  rewrite (bind_pure _ _ _ _ (dataset_run "loaded" _ _ _ _ Hl2)).
  rewrite (display_only_data _ _ _ (display_only_at_ref _ _)). rewrite Hloaded.
  unfold set_innerHTML. rewrite bind_write. reflexivity.
Qed.

End Target.

End ToggleFacts.

Module StateFacts.

Import Str Dom Html Js Script View Reasoning DomFacts HtmlFacts JsFacts PageFacts InvFacts MenuFacts
  ToggleFacts.

Lemma by_id_found (x : string) (n : node) (p : props) :
  by_id x n = Some p -> (id_of p =? x) = true /\ In p (elems n) /\ nonempty x = true.
Proof.
  unfold by_id. destruct (nonempty x); [|discriminate].
  intros H. apply find_some in H. tauto.
Qed.

Lemma shown_block (p : props) : shown p = true <-> display p = "block".
Proof. unfold shown. apply String.eqb_eq. Qed.

Lemma shown_not_block (p : props) : shown p = false <-> display p <> "block".
Proof. unfold shown. apply String.eqb_neq. Qed.

Lemma hide_other_target (menuId : string) (p : props) :
  (id_of p =? menuId) = true -> hide_other menuId p = p.
Proof. intros H. unfold hide_other. rewrite H, andb_false_r. reflexivity. Qed.

(** What the first loop leaves of a menu's state: everything. *)
Lemma menu_state_hidden_others (menuId : string) (pg pg1 : page) (pt pc : props) :
  well_formed pg = true -> menu_at menuId pg pt pc ->
  document pg1 = map_props (hide_other menuId) (document pg) -> fresh pg1 = fresh pg ->
  well_formed pg1 = true /\ menu_at menuId pg1 pt (hide_other menuId pc).
Proof.
  intros Hwf Hmenu Hd Hf. split.
  - rewrite (well_formed_document (hide_other menuId) pg pg1 Hd Hf); [exact Hwf|].
    intros p. apply display_only_hide_other.
  - pose proof (menu_at_document (hide_other menuId) menuId pg pg1 pt pc Hd
                  (display_only_quiet _ (display_only_hide_other menuId)) Hmenu) as H.
    rewrite hide_other_target in H; [exact H|].
    destruct Hmenu as (Hfind & _). apply (by_id_found _ _ _ Hfind).
Qed.

Lemma menu_state_display (menuId : string) (pg : page) (pt pc : props) (d : string) :
  well_formed pg = true -> menu_at menuId pg pt pc ->
  let pg' := everywhere (update_props (nid pt) (with_display d)) pg in
  well_formed pg' = true /\
  menu_at menuId pg' (with_display d pt) (at_ref (nid pt) (with_display d) pc).
Proof.
  intros Hwf Hmenu pg'. split.
  - unfold pg', update_props. rewrite well_formed_everywhere; [exact Hwf|].
    intros p. apply display_only_at_ref.
  - pose proof (menu_at_document (at_ref (nid pt) (with_display d)) menuId pg pg' pt pc
                  eq_refl (display_only_quiet _ (display_only_at_ref _ _)) Hmenu) as H.
    unfold at_ref at 1 in H. rewrite Nat.eqb_refl in H. exact H.
Qed.

(** *** toggleCollectionsMenu on a menu in a known state *)

Lemma toggle_closes (menuId : string) (pg : page) (t c : ref) (loaded : bool) :
  menu_state menuId pg t c true loaded ->
  exists pg', toggleCollectionsMenu menuId pg = (Return tt, pg', [StopPropagation]) /\
              menu_state menuId pg' t c false loaded.
Proof.
  intros (Hwf & pt & pc & Hmenu & <- & <- & Hshown & Hloaded).
  destruct (toggle_run menuId pg Hwf) as (pg1 & Hd & Hf & Hrun).
  destruct (menu_state_hidden_others menuId pg pg1 pt pc Hwf Hmenu Hd Hf) as (Hwf1 & Hmenu1).
  rewrite (proj1 Hmenu) in Hrun. cbn [option_map] in Hrun.
  apply shown_block in Hshown.
  rewrite (toggle_target_hides menuId pg1 pt _ Hmenu1 Hshown) in Hrun.
  destruct (menu_state_display menuId pg1 pt _ "none" Hwf1 Hmenu1) as (Hwf2 & Hmenu2).
  eexists. split; [exact Hrun|]. split; [exact Hwf2|].
  eexists. eexists. split; [exact Hmenu2|]. split; [reflexivity|]. split; [|split].
  - rewrite (at_ref_nid _ _ (with_display_nid "none")). apply display_only_hide_other.
  - reflexivity.
  - rewrite (display_only_data _ _ _ (display_only_at_ref _ _)).
    rewrite (display_only_data _ _ _ (display_only_hide_other _)). exact Hloaded.
Qed.

Lemma toggle_shows (menuId : string) (pg : page) (t c : ref) :
  menu_state menuId pg t c false true ->
  exists pg', toggleCollectionsMenu menuId pg = (Return tt, pg', [StopPropagation]) /\
              menu_state menuId pg' t c true true.
Proof.
  intros (Hwf & pt & pc & Hmenu & <- & <- & Hshown & Hloaded).
  destruct (toggle_run menuId pg Hwf) as (pg1 & Hd & Hf & Hrun).
  destruct (menu_state_hidden_others menuId pg pg1 pt pc Hwf Hmenu Hd Hf) as (Hwf1 & Hmenu1).
  rewrite (proj1 Hmenu) in Hrun. cbn [option_map] in Hrun.
  apply shown_not_block in Hshown.
  rewrite (toggle_target_shows menuId pg1 pt _ Hwf1 Hmenu1 Hshown) in Hrun
    by (rewrite (display_only_data _ _ _ (display_only_hide_other _)); exact Hloaded).
  destruct (menu_state_display menuId pg1 pt _ "block" Hwf1 Hmenu1) as (Hwf2 & Hmenu2).
  eexists. split; [exact Hrun|]. split; [exact Hwf2|].
  eexists. eexists. split; [exact Hmenu2|]. split; [reflexivity|]. split; [|split].
  - rewrite (at_ref_nid _ _ (with_display_nid "block")). apply display_only_hide_other.
  - reflexivity.
  - rewrite (display_only_data _ _ _ (display_only_at_ref _ _)).
    rewrite (display_only_data _ _ _ (display_only_hide_other _)). exact Hloaded.
Qed.

Lemma toggle_fetches (menuId : string) (pg : page) (t c : ref) :
  menu_state menuId pg t c false false ->
  exists pg',
    toggleCollectionsMenu menuId pg
    = (Return tt, pg',
       [StopPropagation;
        Fetch (status_request (pop (split "-" menuId)))
              (AwaitStatus c (pop (split "-" menuId)))]) /\
    menu_state menuId pg' t c true false /\
    content_at c pg' = Some [MText "Loading..."].
Proof.
  intros (Hwf & pt & pc & Hmenu & <- & <- & Hshown & Hloaded).
  destruct (toggle_run menuId pg Hwf) as (pg1 & Hd & Hf & Hrun).
  destruct (menu_state_hidden_others menuId pg pg1 pt pc Hwf Hmenu Hd Hf) as (Hwf1 & Hmenu1).
  rewrite (proj1 Hmenu) in Hrun. cbn [option_map] in Hrun.
  apply shown_not_block in Hshown.
  rewrite (toggle_target_fetches menuId pg1 pt _ Hwf1 Hmenu1 Hshown) in Hrun
    by (rewrite (display_only_data _ _ _ (display_only_hide_other _)); exact Hloaded).
  destruct (menu_state_display menuId pg1 pt _ "block" Hwf1 Hmenu1) as (Hwf2 & Hmenu2).
  set (pc2 := at_ref (nid pt) (with_display "block") (hide_other menuId pc)) in *.
  assert (Epc : nid pc2 = nid pc).
  { unfold pc2. rewrite (at_ref_nid _ _ (with_display_nid "block")).
    apply display_only_hide_other. }
  unfold hide_other at 1 2 in Hrun.
  assert (Enid : nid (hide_other menuId pc) = nid pc) by apply display_only_hide_other.
  fold (hide_other menuId pc) in Hrun. rewrite Enid in Hrun.
  eexists. split; [exact Hrun|]. rewrite <- Epc. split; [split|].
  - apply well_formed_replace_children. exact Hwf2.
  - exists (with_display "block" pt), pc2. split.
    + apply menu_at_replace_children; assumption.
    + split; [reflexivity|]. split; [reflexivity|]. split; [reflexivity|]. unfold pc2.
      rewrite (display_only_data _ _ _ (display_only_at_ref _ _)).
      rewrite (display_only_data _ _ _ (display_only_hide_other _)). exact Hloaded.
  - destruct (menu_at_content menuId _ _ _ Hwf2 Hmenu2) as (kc & Hkc).
    apply (content_at_replace_children _ _ _ _ _ Hkc).
Qed.

End StateFacts.

Module LoopFacts.

Import Str Dom Html Js Script View Loop Reasoning DomFacts HtmlFacts JsFacts PageFacts InvFacts
  MenuFacts ToggleFacts StateFacts.

(** *** Every handler keeps the invariant *)

Lemma harmless_hide_other (menuId : string) : harmless (hide_other menuId).
Proof.
  intros p. unfold hide_other. destruct (_ && _); [apply harmless_hidden|auto].
Qed.

Lemma invariant_document (g : props -> props) (pg pg1 : page) :
  document pg1 = map_props g (document pg) -> fresh pg1 = fresh pg ->
  harmless g -> invariant pg -> invariant pg1.
Proof.
  intros Hd Hf Hg H.
  pose proof (invariant_everywhere g pg Hg H) as (Hwf & Hid & Hone).
  unfold invariant, well_formed, unique_ids, at_most_one_visible, visible_menus in *.
  simpl in Hwf, Hid, Hone. rewrite Hd, Hf. auto.
Qed.

(** With identities all different, elements that share one are one. *)
Lemma at_most_one_by_nid (f : props -> bool) (x : nat) (l : list props) :
  NoDup (map nid l) -> (forall p, In p l -> f p = true -> nid p = x) ->
  List.length (filter f l) <= 1.
Proof.
  induction l as [|a l IH]; simpl; [lia|].
  intros Hnd Hx. inversion Hnd as [|? ? Ha Hl]; subst.
  destruct (f a) eqn:Fa.
  - assert (E : filter f l = []).
    { destruct (filter f l) as [|q qs] eqn:Eq; [reflexivity|]. exfalso.
      assert (Hq : In q (filter f l)) by (rewrite Eq; left; reflexivity).
      apply filter_In in Hq. destruct Hq as (Hq & Fq).
      apply Ha. rewrite (Hx a (or_introl eq_refl) Fa), <- (Hx q (or_intror Hq) Fq).
      apply in_map. exact Hq. }
    rewrite E. simpl. lia.
  - apply IH; [exact Hl|]. intros p Hp. apply Hx. right. exact Hp.
Qed.

(** With ids all different, elements that share a non-empty one are one. *)
Lemma same_id (l : list props) (p q : props) :
  NoDup (filter nonempty (map id_of l)) -> In p l -> In q l ->
  id_of p = id_of q -> nonempty (id_of p) = true -> p = q.
Proof.
  induction l as [|a l IH]; simpl; [tauto|].
  intros Hnd Hp Hq E Hne.
  assert (Hin : forall r, In r l -> id_of r = id_of p -> In (id_of p) (filter nonempty (map id_of l))).
  { intros r Hr Er. apply filter_In. split; [|exact Hne]. rewrite <- Er. apply in_map. exact Hr. }
  destruct Hp as [->|Hp], Hq as [->|Hq]; [reflexivity| | |].
  - exfalso. rewrite Hne in Hnd. inversion Hnd as [|? ? Hn _]; subst.
    apply Hn. apply (Hin q Hq). auto.
  - exfalso. rewrite E in Hne. rewrite Hne in Hnd. inversion Hnd as [|? ? Hn _]; subst.
    apply Hn. rewrite <- E. apply (Hin p Hp). reflexivity.
  - apply IH; auto. destruct (nonempty (id_of a)); [inversion Hnd; assumption|exact Hnd].
Qed.

(** Showing the target once the others are hidden leaves one menu open. *)
Lemma invariant_show (menuId : string) (pg : page) (pt : props) :
  invariant pg -> by_id menuId (document pg) = Some pt ->
  (forall p, In p (elems (document pg)) -> is_menu p && shown p = true -> id_of p = menuId) ->
  invariant (everywhere (update_props (nid pt) (with_display "block")) pg).
Proof.
  intros (Hwf & Hid & Hone) Hfind Hothers.
  destruct (by_id_found _ _ _ Hfind) as (Ept & Hpt & Hne).
  apply String.eqb_eq in Ept.
  unfold update_props. repeat split.
  - rewrite well_formed_everywhere; [exact Hwf|]. intros p. apply display_only_at_ref.
  - rewrite unique_ids_everywhere; [exact Hid|]. intros p. apply display_only_at_ref.
  - apply well_formed_spec in Hwf. destruct Hwf as (Hnd & _).
    apply unique_ids_spec in Hid.
    unfold at_most_one_visible, visible_menus. cbn [document everywhere].
    rewrite elems_map_props.
    apply (at_most_one_by_nid _ (nid pt)).
    + rewrite map_map. erewrite map_ext; [exact Hnd|].
      intros p. apply display_only_at_ref.
    + intros p' Hp' Hvis. apply in_map_iff in Hp'. destruct Hp' as (p & <- & Hp).
      rewrite (at_ref_nid _ _ (with_display_nid "block")).
      unfold at_ref in Hvis. destruct (Nat.eqb_spec (nid p) (nid pt)) as [E|E]; [exact E|].
      assert (p = pt); [|subst; reflexivity].
      apply (same_id (elems (document pg))); auto.
      * rewrite (Hothers p Hp Hvis). auto.
      * rewrite (Hothers p Hp Hvis). exact Hne.
Qed.

Lemma invariant_toggle_target (menuId : string) (pg : page) :
  invariant pg ->
  (forall p, In p (elems (document pg)) -> is_menu p && shown p = true -> id_of p = menuId) ->
  invariant (page_after
               (toggle_target menuId (option_map nid (by_id menuId (document pg))) pg)).
Proof.
  intros Hinv Hothers.
  destruct (by_id menuId (document pg)) as [pt|] eqn:Hfind; [|exact Hinv].
  cbn [option_map]. unfold toggle_target. cbn [deref]. rewrite bind_ret.
  destruct (by_id_found _ _ _ Hfind) as (_ & Hpt & _).
  pose proof Hinv as (Hwf & _). apply well_formed_spec in Hwf. destruct Hwf as (Hnd & _).
  destruct (lookup_unique pg pt Hnd Hpt) as (kt & Hkt).
  rewrite (bind_pure _ _ _ _ (style_display_run _ _ _ _ (lookup_document _ _ _ Hkt))).
  destruct (display pt =? "block").
  - apply invariant_set_style_none. exact Hinv.
  - unfold set_style_display at 1. rewrite bind_write.
    pose proof (invariant_show menuId pg pt Hinv Hfind Hothers) as Hshow.
    revert Hshow. generalize (everywhere (update_props (nid pt) (with_display "block")) pg).
    change (preserves invariant
              (contentDiv <- querySelector "collections-menu-content" (nid pt) ;;
               contentDiv <- deref contentDiv ;;
               loaded <- dataset "loaded" contentDiv ;;
               if truthy loaded then ret tt
               else set_innerHTML contentDiv [MText "Loading..."] ;;
                    emit (Fetch (status_request (pop (split "-" menuId)))
                                (AwaitStatus contentDiv (pop (split "-" menuId)))))).
    keeps. apply invariant_set_innerHTML. apply idless_loading.
Qed.

Lemma invariant_toggle (menuId : string) :
  preserves invariant (toggleCollectionsMenu menuId).
Proof.
  intros pg Hinv. pose proof Hinv as (Hwf & _).
  destruct (toggle_run menuId pg Hwf) as (pg1 & Hd & Hf & Hrun).
  rewrite Hrun, page_after_after.
  assert (Hinv1 : invariant pg1).
  { apply (invariant_document (hide_other menuId) pg pg1 Hd Hf); [|exact Hinv].
    apply harmless_hide_other. }
  assert (Hothers : forall p, In p (elems (document pg1)) ->
                              is_menu p && shown p = true -> id_of p = menuId).
  { intros p' Hp'. rewrite Hd, elems_map_props in Hp'.
    apply in_map_iff in Hp'. destruct Hp' as (p & <- & _).
    unfold hide_other. destruct (is_menu p) eqn:Mp; cbn [andb]; [|rewrite Mp; discriminate].
    destruct (String.eqb_spec (id_of p) menuId) as [E|E]; cbn [negb]; [intros _; exact E|].
    unfold shown. cbn [display with_display]. rewrite andb_false_r. discriminate. }
  assert (Hsame : by_id menuId (document pg1) = by_id menuId (document pg)).
  { rewrite Hd. unfold by_id. destruct (nonempty menuId); [|reflexivity].
    rewrite elems_map_props, find_map_same.
    - destruct (find _ (elems (document pg))) as [pt|] eqn:Hfind; [|reflexivity].
      apply find_some in Hfind. cbn [option_map]. rewrite hide_other_target; tauto.
    - intros p. rewrite (display_only_id _ p (display_only_hide_other menuId)). reflexivity. }
  rewrite <- Hsame. apply invariant_toggle_target; assumption.
Qed.



(** *** The event loop *)




End LoopFacts.

Module StrFacts.

Import Str.

Lemma append_assoc (a b c : string) : ((a ++ b) ++ c = a ++ (b ++ c))%string.
Proof. induction a as [|x a IH]; simpl; [reflexivity|]. rewrite IH. reflexivity. Qed.


Lemma split_on_nonempty (sep : ascii -> bool) (s : string) : split_on sep s <> [].
Proof.
  destruct s as [|c rest]; simpl; [discriminate|].
  destruct (sep c); [discriminate|]. destruct (split_on sep rest); discriminate.
Qed.

(** No piece of a split holds a separator. *)
Lemma split_on_pieces (sep : ascii -> bool) (s : string) :
  Forall (fun piece => existsb sep (list_ascii_of_string piece) = false) (split_on sep s).
Proof.
  induction s as [|c rest IH]; simpl.
  - constructor; [reflexivity|constructor].
  - destruct (sep c) eqn:E.
    + constructor; [reflexivity|exact IH].
    + destruct (split_on sep rest) as [|piece pieces].
      * constructor; [simpl; rewrite E; reflexivity|constructor].
      * inversion IH as [|? ? Hp Hps]; subst.
        constructor; [simpl; rewrite E; exact Hp|exact Hps].
Qed.

(** Joining the pieces with the separator gives the string back. *)
Lemma concat_split (c : ascii) (s : string) :
  String.concat (String c EmptyString) (split c s) = s.
Proof.
  unfold split. induction s as [|x rest IH]; [reflexivity|].
  cbn [split_on]. destruct (Ascii.eqb_spec c x) as [E|E].
  - subst x. pose proof (split_on_nonempty (Ascii.eqb c) rest) as Hne.
    destruct (split_on (Ascii.eqb c) rest) as [|piece pieces]; [tauto|].
    cbn [String.concat]. cbn [String.concat] in IH. simpl. rewrite <- IH. reflexivity.
  - destruct (split_on (Ascii.eqb c) rest) as [|piece pieces] eqn:Es.
    + exfalso. exact (split_on_nonempty _ _ Es).
    + destruct pieces as [|p2 ps].
      * simpl in *. rewrite IH. reflexivity.
      * cbn [String.concat] in *. simpl. rewrite <- IH. reflexivity.
Qed.

Lemma concat_snoc (sep : string) (l : list string) (a : string) :
  l <> [] -> String.concat sep (l ++ [a]) = (String.concat sep l ++ sep ++ a)%string.
Proof.
  induction l as [|x l IH]; [tauto|]. intros _.
  destruct l as [|y l].
  - reflexivity.
  - change (String.concat sep ((x :: y :: l) ++ [a]))
      with (x ++ sep ++ String.concat sep ((y :: l) ++ [a]))%string.
    rewrite IH by discriminate.
    change (String.concat sep (x :: y :: l)) with (x ++ sep ++ String.concat sep (y :: l))%string.
    rewrite !append_assoc. reflexivity.
Qed.

Lemma pop_snoc (l : list string) (a : string) : pop (l ++ [a]) = Some a.
Proof. unfold pop. rewrite rev_app_distr. reflexivity. Qed.

(** [s.split(c).pop()] is what follows the last [c] of [s], or all of [s]. *)
Lemma pop_split (c : ascii) (s : string) :
  exists a, pop (split c s) = Some a /\ has_char c a = false /\
            (s = a \/ exists before, s = (before ++ String c a)%string).
Proof.
  pose proof (split_on_nonempty (Ascii.eqb c) s) as Hne.
  pose proof (split_on_pieces (Ascii.eqb c) s) as Hp.
  pose proof (concat_split c s) as Hc. unfold split in *.
  destruct (exists_last Hne) as (l & a & E). rewrite E in *.
  exists a. split; [apply pop_snoc|]. split.
  - apply Forall_app in Hp. destruct Hp as (_ & Ha). inversion Ha; subst. assumption.
  - destruct l as [|x l].
    + left. symmetry. exact Hc.
    + right. rewrite concat_snoc in Hc by discriminate.
      eexists. symmetry. exact Hc.
Qed.

End StrFacts.

Module TemplateFacts.

Import Str Dom Html Js Script View StrFacts.








Lemma error_html_of : html_of error_markup = error_html.
Proof. reflexivity. Qed.

End TemplateFacts.

Module HandlerFacts.

Import Str Dom Html Js Script View Reasoning DomFacts HtmlFacts JsFacts PageFacts InvFacts MenuFacts
  ToggleFacts StateFacts.

(** *** try and catch *)

Lemma try_catch_returns {A} (m : M A) (h : exn -> M A) (pg pg1 : page) (a : A)
    (out : list effect) :
  m pg = (Return a, pg1, out) -> try_catch m h pg = (Return a, pg1, out).
Proof. intros E. unfold try_catch. rewrite E. reflexivity. Qed.

Lemma try_catch_throws {A} (m : M A) (h : exn -> M A) (pg pg1 : page) (e : exn)
    (out : list effect) :
  m pg = (Throw e, pg1, out) -> try_catch m h pg = after out (h e pg1).
Proof.
  intros E. unfold try_catch, after. rewrite E. destruct (h e pg1) as [[r pg2] out2].
  reflexivity.
Qed.

(** The [try] block on a request that does not succeed. *)
Lemma try_block_fails {A} (o : outcome) (fallback : string) (body : payload -> M A)
    (pg : page) :
  fails o = true ->
  bind (json_of o)
       (fun data => if status data =? "ok" then body data
                    else throw (Error (message_or data fallback))) pg
  = (Throw (failure fallback o), pg, []).
Proof.
  destruct o as [reason|ok code data]; simpl; [reflexivity|].
  destruct ok; simpl; [|reflexivity].
  destruct data as [d|]; [|reflexivity].
  rewrite negb_true_iff. intros E. rewrite bind_ret, E. reflexivity.
Qed.

Lemma try_block_ok {A} (code : nat) (d : payload) (fallback : string)
    (body : payload -> M A) (pg : page) :
  status d = "ok" ->
  bind (json_of (Responded true code (Some d)))
       (fun data => if status data =? "ok" then body data
                    else throw (Error (message_or data fallback))) pg
  = body d pg.
Proof. intros E. simpl. rewrite bind_ret, E. reflexivity. Qed.

(** *** toggleCollectionsMenu after its await *)

Lemma resume_status_fails (c : ref) (aid : option string) (o : outcome) (pg : page) :
  fails o = true ->
  resume_status c aid o pg
  = (Return tt, replace_children c [error_markup] pg,
     [ConsoleError "Error fetching collections:" (failure "Failed to load collections." o)]).
Proof.
  intros Hf. unfold resume_status.
  rewrite (try_catch_throws _ _ _ _ _ _ (try_block_fails o _ _ pg Hf)).
  rewrite after_nil, bind_emit. unfold set_innerHTML, write. reflexivity.
Qed.

Lemma resume_status_ok (c : ref) (aid : option string) (code : nat) (d : payload)
    (pg : page) :
  status d = "ok" ->
  resume_status c aid (Responded true code (Some d)) pg
  = (Return tt,
     everywhere (update_props c (with_attr "data-loaded" "true"))
       (replace_children c (collections_markup (interp aid) (collections d)) pg),
     []).
Proof.
  intros Hs. unfold resume_status. apply try_catch_returns.
  rewrite (try_block_ok code d _ _ pg Hs).
  unfold set_innerHTML. rewrite bind_write. reflexivity.
Qed.




Lemma menu_state_failed (menuId : string) (pg : page) (t c : ref) (open loaded : bool)
    (ms : list markup) :
  menu_state menuId pg t c open loaded ->
  menu_state menuId (replace_children c ms pg) t c open loaded.
Proof.
  intros (Hwf & pt & pc & Hmenu & <- & <- & Hshown & Hloaded). split.
  - apply well_formed_replace_children. exact Hwf.
  - exists pt, pc. split; [apply menu_at_replace_children; assumption|]. auto.
Qed.

Lemma menu_state_content (menuId : string) (pg : page) (t c : ref) (open loaded : bool) :
  menu_state menuId pg t c open loaded ->
  exists pc kc, node_at c pg = Some (Elem pc kc) /\
                truthy (dataset_get "loaded" pc) = loaded.
Proof.
  intros (Hwf & pt & pc & Hmenu & _ & <- & _ & Hloaded).
  destruct (menu_at_content menuId pg pt pc Hwf Hmenu) as (kc & Hkc). eauto.
Qed.

(** *** The click listener *)

Lemma resume_action_fails (target : ref) (act : action) (cid aid : option string)
    (o : outcome) (pg : page) :
  fails o = true ->
  resume_action target act cid aid o pg
  = (Return tt, pg,
     [ConsoleError ("Error with " ++ action_name act ++ " action:")
                   (failure "Action failed." o);
      Alert ("Failed to " ++ action_name act ++ " article.")]).
Proof.
  intros Hf. unfold resume_action.
  rewrite (try_catch_throws _ _ _ _ _ _ (try_block_fails o _ _ pg Hf)).
  reflexivity.
Qed.

Lemma patch_button_none (target : ref) (act : action) (cid aid : option string)
    (pg : page) (ch : list props) :
  chain_in target pg = Some ch ->
  find (has_class "collection-action-button") ch = None ->
  patch_button target act cid aid pg = (Return tt, pg, []).
Proof.
  intros Hch Hnone. unfold patch_button.
  rewrite (bind_pure _ _ _ _ (closest_run "collection-action-button" _ _ _ Hch)).
  rewrite Hnone. reflexivity.
Qed.


Lemma resume_action_ok (target : ref) (act : action) (cid aid : option string)
    (code : nat) (d : payload) (pg pg1 : page) (out : list effect) :
  status d = "ok" ->
  patch_button target act cid aid pg = (Return tt, pg1, out) ->
  resume_action target act cid aid (Responded true code (Some d)) pg = (Return tt, pg1, out).
Proof.
  intros Hs Hp. unfold resume_action. apply try_catch_returns.
  rewrite (try_block_ok code d _ _ pg Hs). exact Hp.
Qed.

Lemma onClick_action (target : ref) (pg : page) (pb : props) (kb : list node) (act : action) :
  lookup target pg = Some (Elem pb kb) -> action_of pb = Some act ->
  onClick target pg
  = (Return tt, pg,
     [PreventDefault;
      Fetch (action_request act (dataset_get "collection-id" pb) (dataset_get "article-id" pb))
            (AwaitAction target act (dataset_get "collection-id" pb)
                         (dataset_get "article-id" pb))]).
Proof.
  intros Hl Hact. unfold onClick.
  rewrite (bind_pure _ _ _ _ (matches_run "btn-add-to-collection" _ _ _ _ Hl)).
  rewrite (bind_pure _ _ _ _ (matches_run "btn-remove-from-collection" _ _ _ _ Hl)).
  unfold action_of in Hact.
  destruct (has_class "btn-remove-from-collection" pb);
    [|destruct (has_class "btn-add-to-collection" pb); [|discriminate]];
    injection Hact as <-;
    rewrite bind_emit;
    rewrite (bind_pure _ _ _ _ (dataset_run "collection-id" _ _ _ _ Hl));
    rewrite (bind_pure _ _ _ _ (dataset_run "article-id" _ _ _ _ Hl));
    reflexivity.
Qed.

Lemma close_all_menus_run (pg : page) :
  well_formed pg = true ->
  exists pg', close_all_menus pg = (Return tt, pg', []) /\
              document pg' = map_props hide_menu (document pg) /\
              fresh pg' = fresh pg.
Proof.
  intros Hwf. apply well_formed_spec in Hwf. destruct Hwf as (Hnd & _).
  unfold close_all_menus, querySelectorAll. rewrite bind_read, forEach_hide_all.
  eexists. split; [reflexivity|]. split; [|reflexivity].
  cbn [document everywhere]. apply map_props_ext. intros p Hp.
  apply (hide_all_menus pg p Hnd Hp).
Qed.

Lemma onClick_elsewhere (target : ref) (pg : page) (pb : props) (kb : list node)
    (ch : list props) :
  lookup target pg = Some (Elem pb kb) -> action_of pb = None ->
  chain_in target pg = Some ch ->
  onClick target pg
  = match find (has_class "collections-menu") ch with
    | Some _ => (Return tt, pg, [])
    | None => close_all_menus pg
    end.
Proof.
  intros Hl Hact Hch. unfold onClick.
  rewrite (bind_pure _ _ _ _ (matches_run "btn-add-to-collection" _ _ _ _ Hl)).
  rewrite (bind_pure _ _ _ _ (matches_run "btn-remove-from-collection" _ _ _ _ Hl)).
  unfold action_of in Hact.
  destruct (has_class "btn-remove-from-collection" pb); [discriminate|].
  destruct (has_class "btn-add-to-collection" pb); [discriminate|].
  rewrite (bind_pure _ _ _ _ (closest_run "collections-menu" _ _ _ Hch)).
  destruct (find (has_class "collections-menu") ch); reflexivity.
Qed.

End HandlerFacts.

Module FrameFacts.

Import Str Dom Html Js Script View Reasoning DomFacts HtmlFacts JsFacts PageFacts InvFacts MenuFacts
  ToggleFacts StateFacts HandlerFacts.

(** *** What replacing children leaves alone *)

Lemma nids_set_kids (r : ref) (new : list node) (n : node) (y : nat) :
  In y (nids (set_kids r new n)) -> In y (nids n) \/ In y (flat_map nids new).
Proof.
  induction n as [s|p kids IH] using node_ind; [intros []|].
  cbn [set_kids]. destruct (Nat.eqb (nid p) r); rewrite !nids_elem; cbn [In].
  - intros [E|H]; [left; left; exact E|right; exact H].
  - intros [E|H]; [left; left; exact E|].
    apply in_flat_map in H. destruct H as (k' & Hk' & Hy).
    apply in_map_iff in Hk'. destruct Hk' as (k & <- & Hk).
    rewrite Forall_forall in IH. destruct (IH k Hk Hy) as [H|H]; [|right; exact H].
    left. right. apply (flat_map_nids_in _ k); assumption.
Qed.

(** An element that neither holds [r] nor lies below it is found as it
    was, with all that is below it. *)
Lemma find_node_set_kids_apart (x r : ref) (new : list node) (n sub : node) :
  NoDup (nids n) -> find_node x n = Some sub -> ~ In r (nids sub) ->
  (forall q old, find_node r n = Some (Elem q old) -> ~ In x (flat_map nids old)) ->
  ~ In x (flat_map nids new) ->
  find_node x (set_kids r new n) = Some sub.
Proof.
  intros Hnd Hx Hr Hbelow Hnew. revert Hnd Hx Hbelow.
  induction n as [s|p kids IH] using node_ind; [discriminate|].
  rewrite nids_elem. intros Hnd. inversion Hnd as [|? ? Hp Hks]; subst. clear Hnd.
  cbn [find_node]. destruct (Nat.eqb_spec (nid p) x) as [Ex|Ex].
  - intros [= <-] _. rewrite set_kids_absent by exact Hr. cbn [find_node].
    rewrite (proj2 (Nat.eqb_eq _ _) Ex). reflexivity.
  - intros Hx Hbelow. cbn [set_kids]. destruct (Nat.eqb_spec (nid p) r) as [Er|Er].
    + exfalso. apply (Hbelow p kids eq_refl).
      apply first_some_In in Hx. destruct Hx as (k & Hk & Hs).
      destruct (find_node_elem _ _ _ Hs) as (p' & ks' & _ & <- & Hin).
      apply (flat_map_nids_in _ k); [exact Hk|]. unfold nids. apply in_map. exact Hin.
    + cbn [find_node]. rewrite (proj2 (Nat.eqb_neq _ _) Ex). clear Hp Ex Er.
      induction IH as [|k kids Hk _ IHk]; [discriminate|].
      cbn [flat_map] in Hks. cbn [first_some map] in *.
      apply NoDup_app_inv in Hks. destruct Hks as (Hk1 & Hk2 & Hdis).
      destruct (find_node x k) eqn:Ek.
      * injection Hx as ->.
        assert (Hb : forall q old, find_node r k = Some (Elem q old) ->
                                   ~ In x (flat_map nids old)).
        { intros q old Hq. apply (Hbelow q old). rewrite Hq. reflexivity. }
        rewrite (Hk Hk1 eq_refl Hb). reflexivity.
      * rewrite find_node_none.
        -- apply IHk; [exact Hk2|exact Hx|].
           intros q old Hq. apply (Hbelow q old).
           destruct (find_node r k) as [m|] eqn:Erk; [|exact Hq]. exfalso.
           destruct (find_node_elem _ _ _ Erk) as (p1 & k1 & _ & <- & Hin1).
           apply first_some_In in Hq. destruct Hq as (k2 & Hk2' & Hm2).
           destruct (find_node_elem _ _ _ Hm2) as (p2 & k3 & _ & E2 & Hin2).
           apply (Hdis (nid p1)); [unfold nids; apply in_map; exact Hin1|].
           rewrite <- E2. apply (flat_map_nids_in _ k2); [exact Hk2'|].
           unfold nids. apply in_map. exact Hin2.
        -- intros Hin. apply nids_set_kids in Hin. destruct Hin as [Hin|Hin]; [|tauto].
           exact (find_node_present _ _ Ek Hin).
Qed.

Lemma inside_false (x r : ref) (pg : page) (q : props) (old : list node) :
  inside x r pg = false -> node_at r pg = Some (Elem q old) ->
  ~ In x (flat_map nids old).
Proof.
  unfold inside. intros H Hr Hin. rewrite Hr in H. cbn [kids_of] in H.
  assert (existsb (Nat.eqb x) (flat_map nids old) = true); [|congruence].
  apply existsb_exists. exists x. split; [exact Hin|apply Nat.eqb_refl].
Qed.

Lemma node_at_replace_children_apart (x r : ref) (ms : list markup) (pg : page)
    (sub : node) :
  well_formed pg = true -> node_at x pg = Some sub ->
  ~ In r (nids sub) -> inside x r pg = false ->
  node_at x (replace_children r ms pg) = Some sub.
Proof.
  intros Hwf Hx Hr Hin. apply well_formed_spec in Hwf. destruct Hwf as (Hnd & Hlt).
  unfold node_at in *. rewrite replace_children_document.
  apply find_node_set_kids_apart; auto.
  - intros q old Hq. apply (inside_false x r pg q old Hin Hq).
  - destruct (build_all_nids ms (fresh pg)) as (E & _). rewrite E. intros Hs.
    apply in_seq in Hs.
    assert (x < fresh pg); [|lia]. apply Hlt.
    destruct (find_node_elem _ _ _ Hx) as (p & ks & _ & <- & Hp).
    unfold nids. apply in_map. exact Hp.
Qed.

(** *** The date filters *)

Lemma descendant_of_class_In (a b : string) (n : node) (p : props) :
  forall inside, descendant_of_class a b inside n = Some p -> In p (elems n).
Proof.
  induction n as [s|q kids IH] using node_ind; intros ins; simpl; [discriminate|].
  destruct (ins && has_class b q).
  - intros [= <-]. auto.
  - intros H. apply first_some_In in H. destruct H as (k & Hk & Hp).
    rewrite Forall_forall in IH. right. apply in_flat_map. exists k.
    split; [exact Hk|]. exact (IH k Hk _ Hp).
Qed.

Lemma toggleDateFilters_run (pg : page) (region icon : props) :
  well_formed pg = true ->
  by_id "date-filter-content" (document pg) = Some region ->
  descendant_of_class "date-filter-toggle" "toggle-icon" false (document pg) = Some icon ->
  toggleDateFilters pg
  = if (display region =? "none") || (display region =? EmptyString)
    then (Return tt,
          replace_children (nid icon) [MText "-"]
            (everywhere (update_props (nid region) (with_display "block")) pg), [])
    else (Return tt,
          replace_children (nid icon) [MText "+"]
            (everywhere (update_props (nid region) (with_display "none")) pg), []).
Proof.
  intros Hwf Hregion Hicon. apply well_formed_spec in Hwf. destruct Hwf as (Hnd & _).
  destruct (by_id_found _ _ _ Hregion) as (_ & Hin & _).
  destruct (lookup_unique pg region Hnd Hin) as (kr & Hkr).
  unfold toggleDateFilters, getElementById, querySelector_descendant.
  rewrite !bind_read, Hregion, Hicon. cbn [option_map deref]. rewrite bind_ret.
  rewrite (bind_pure _ _ _ _ (style_display_run _ _ _ _ (lookup_document _ _ _ Hkr))).
  destruct ((display region =? "none") || (display region =? EmptyString));
    unfold set_style_display; rewrite bind_write, bind_ret; reflexivity.
Qed.

Lemma onDOMContentLoaded_run (pg : page) :
  well_formed pg = true ->
  onDOMContentLoaded pg
  = match by_id "start_date" (document pg), by_id "end_date" (document pg) with
    | Some s, Some e =>
        if truthy (value s) || truthy (value e)
        then bind toggleDateFilters (fun _ => emit AddClickListener) pg
        else (Return tt, pg, [AddClickListener])
    | _, _ => (Return tt, pg, [AddClickListener])
    end.
Proof.
  intros Hwf. apply well_formed_spec in Hwf. destruct Hwf as (Hnd & _).
  unfold onDOMContentLoaded, getElementById. rewrite !bind_read.
  destruct (by_id "start_date" (document pg)) as [s|] eqn:Es; cbn [option_map];
    [|destruct (option_map nid (by_id "end_date" (document pg))); reflexivity].
  destruct (by_id "end_date" (document pg)) as [e|] eqn:Ee; cbn [option_map];
    [|reflexivity].
  destruct (by_id_found _ _ _ Es) as (_ & Hs & _).
  destruct (by_id_found _ _ _ Ee) as (_ & He & _).
  destruct (lookup_unique pg s Hnd Hs) as (ks & Hks).
  destruct (lookup_unique pg e Hnd He) as (ke & Hke).
  rewrite bind_assoc.
  rewrite (bind_pure _ _ _ _ (get_value_run _ _ _ _ (lookup_document _ _ _ Hks))).
  rewrite bind_assoc.
  rewrite (bind_pure _ _ _ _ (get_value_run _ _ _ _ (lookup_document _ _ _ Hke))).
  destruct (truthy (value s) || truthy (value e)); [reflexivity|].
  rewrite bind_ret. reflexivity.
Qed.

End FrameFacts.

Module ScriptFacts.

Import Str Dom Html Js Script View Loop Reasoning DomFacts HtmlFacts JsFacts PageFacts
  InvFacts MenuFacts ToggleFacts StateFacts LoopFacts HandlerFacts FrameFacts.

(** *** The chain of an element *)



(** *** After a toggle the other menus are hidden *)

Lemma elems_set_kids (r : ref) (new : list node) (n : node) (p : props) :
  In p (elems (set_kids r new n)) -> In p (elems n) \/ In p (elems_of new).
Proof.
  induction n as [s|q kids IH] using node_ind; [intros []|].
  cbn [set_kids]. destruct (Nat.eqb (nid q) r); cbn [elems In].
  - intros [E|H]; [left; left; exact E|right; exact H].
  - intros [E|H]; [left; left; exact E|].
    apply in_flat_map in H. destruct H as (k' & Hk' & Hp).
    apply in_map_iff in Hk'. destruct Hk' as (k & <- & Hk).
    rewrite Forall_forall in IH. destruct (IH k Hk Hp) as [H|H]; [|right; exact H].
    left. right. apply in_flat_map. exists k. auto.
Qed.

Lemma others_hidden_text (menuId : string) (r : ref) (s : string) :
  preserves (others_hidden menuId) (set_innerHTML r [MText s]).
Proof.
  apply preserves_write. intros pg H p Hp. rewrite replace_children_document in Hp.
  apply elems_set_kids in Hp. destruct Hp as [Hp|[]]. apply H. exact Hp.
Qed.

Lemma others_hidden_toggle (menuId : string) (pg : page) :
  well_formed pg = true ->
  others_hidden menuId (page_after (toggleCollectionsMenu menuId pg)).
Proof.
  intros Hwf. destruct (toggle_run menuId pg Hwf) as (pg1 & Hd & Hf & Hrun).
  rewrite Hrun, page_after_after.
  assert (Hwf1 : well_formed pg1 = true).
  { rewrite (well_formed_document (hide_other menuId) pg pg1 Hd Hf); [exact Hwf|].
    intros p. apply display_only_hide_other. }
  assert (H1 : others_hidden menuId pg1).
  { intros p' Hp'. rewrite Hd, elems_map_props in Hp'.
    apply in_map_iff in Hp'. destruct Hp' as (p & <- & _).
    rewrite (display_only_id _ p (display_only_hide_other menuId)).
    unfold is_menu. rewrite (display_only_class _ _ p (display_only_hide_other menuId)).
    fold (is_menu p). intros Mp Hid. unfold hide_other. rewrite Mp.
    apply String.eqb_neq in Hid. rewrite Hid. reflexivity. }
  assert (Hsame : by_id menuId (document pg1) = by_id menuId (document pg)).
  { rewrite Hd. unfold by_id. destruct (nonempty menuId); [|reflexivity].
    rewrite elems_map_props, find_map_same.
    - destruct (find _ (elems (document pg))) as [pt|] eqn:Hfind; [|reflexivity].
      apply find_some in Hfind. cbn [option_map]. rewrite hide_other_target; tauto.
    - intros p. rewrite (display_only_id _ p (display_only_hide_other menuId)). reflexivity. }
  rewrite <- Hsame. clear Hsame Hrun Hd Hf Hwf pg. revert Hwf1 H1.
  generalize pg1. clear pg1. intros pg Hwf H.
  destruct (by_id menuId (document pg)) as [pt|] eqn:Hfind; [|exact H].
  cbn [option_map]. unfold toggle_target. cbn [deref]. rewrite bind_ret.
  destruct (by_id_found _ _ _ Hfind) as (Eid & Hpt & _). apply String.eqb_eq in Eid.
  apply well_formed_spec in Hwf. destruct Hwf as (Hnd & _).
  destruct (lookup_unique pg pt Hnd Hpt) as (kt & Hkt).
  rewrite (bind_pure _ _ _ _ (style_display_run _ _ _ _ (lookup_document _ _ _ Hkt))).
  assert (Hshow : forall d, others_hidden menuId
                              (everywhere (update_props (nid pt) (with_display d)) pg)).
  { intros d p' Hp'. cbn [document everywhere] in Hp'. unfold update_props in Hp'.
    rewrite elems_map_props in Hp'. apply in_map_iff in Hp'. destruct Hp' as (p & <- & Hp).
    rewrite (display_only_id _ p (display_only_at_ref _ _)).
    unfold is_menu. rewrite (display_only_class _ _ p (display_only_at_ref _ _)).
    fold (is_menu p). intros Mp Hid. unfold at_ref.
    destruct (Nat.eqb_spec (nid p) (nid pt)) as [E|E]; [|apply H; assumption].
    exfalso. apply Hid. rewrite (same_nid _ _ _ Hnd Hp Hpt E). exact Eid. }
  destruct (display pt =? "block").
  - apply Hshow.
  - unfold set_style_display at 1. rewrite bind_write.
    generalize (Hshow "block").
    generalize (everywhere (update_props (nid pt) (with_display "block")) pg).
    change (preserves (others_hidden menuId)
              (contentDiv <- querySelector "collections-menu-content" (nid pt) ;;
               contentDiv <- deref contentDiv ;;
               loaded <- dataset "loaded" contentDiv ;;
               if truthy loaded then ret tt
               else set_innerHTML contentDiv [MText "Loading..."] ;;
                    emit (Fetch (status_request (pop (split "-" menuId)))
                                (AwaitStatus contentDiv (pop (split "-" menuId)))))).
    keeps. apply others_hidden_text.
Qed.

(** *** What replacing children leaves of an element outside *)

(** An element that does not lie below [r] keeps its properties. *)
Lemma find_props_set_kids (x r : ref) (new : list node) (n : node) (p : props)
    (k : list node) :
  NoDup (nids n) -> find_node x n = Some (Elem p k) ->
  (forall q old, find_node r n = Some (Elem q old) -> ~ In x (flat_map nids old)) ->
  ~ In x (flat_map nids new) ->
  exists k', find_node x (set_kids r new n) = Some (Elem p k').
Proof.
  intros Hnd Hx Hbelow Hnew. revert Hnd Hx Hbelow.
  induction n as [s|q kids IH] using node_ind; [discriminate|].
  rewrite nids_elem. intros Hnd. inversion Hnd as [|? ? Hq Hks]; subst. clear Hnd.
  cbn [find_node]. destruct (Nat.eqb_spec (nid q) x) as [Ex|Ex].
  - intros [= <- <-] _. cbn [set_kids].
    destruct (Nat.eqb (nid q) r); cbn [find_node];
      rewrite (proj2 (Nat.eqb_eq _ _) Ex); eauto.
  - intros Hx Hbelow. cbn [set_kids]. destruct (Nat.eqb_spec (nid q) r) as [Er|Er].
    + exfalso. apply (Hbelow q kids eq_refl).
      apply first_some_In in Hx. destruct Hx as (k0 & Hk0 & Hs).
      destruct (find_node_elem _ _ _ Hs) as (p' & ks' & _ & <- & Hin).
      apply (flat_map_nids_in _ k0); [exact Hk0|]. unfold nids. apply in_map. exact Hin.
    + cbn [find_node]. rewrite (proj2 (Nat.eqb_neq _ _) Ex). clear Hq Ex Er.
      induction IH as [|k0 kids Hk _ IHk]; [discriminate|].
      cbn [flat_map] in Hks. cbn [first_some map] in *.
      apply NoDup_app_inv in Hks. destruct Hks as (Hk1 & Hk2 & Hdis).
      destruct (find_node x k0) eqn:Ek.
      * injection Hx as ->.
        assert (Hb : forall q' old, find_node r k0 = Some (Elem q' old) ->
                                    ~ In x (flat_map nids old)).
        { intros q' old Hq'. apply (Hbelow q' old). rewrite Hq'. reflexivity. }
        destruct (Hk Hk1 eq_refl Hb) as (k' & ->). eauto.
      * rewrite find_node_none.
        -- apply IHk; [exact Hk2|exact Hx|].
           intros q' old Hq'. apply (Hbelow q' old).
           destruct (find_node r k0) as [m|] eqn:Erk; [|exact Hq']. exfalso.
           destruct (find_node_elem _ _ _ Erk) as (p1 & k1 & _ & <- & Hin1).
           apply first_some_In in Hq'. destruct Hq' as (k2 & Hk2' & Hm2).
           destruct (find_node_elem _ _ _ Hm2) as (p2 & k3 & _ & E2 & Hin2).
           apply (Hdis (nid p1)); [unfold nids; apply in_map; exact Hin1|].
           rewrite <- E2. apply (flat_map_nids_in _ k2); [exact Hk2'|].
           unfold nids. apply in_map. exact Hin2.
        -- intros Hin. apply nids_set_kids in Hin. destruct Hin as [Hin|Hin]; [|tauto].
           exact (find_node_present _ _ Ek Hin).
Qed.

Lemma props_at_replace_children (x r : ref) (ms : list markup) (pg : page) (p : props) :
  well_formed pg = true -> props_at x pg = Some p -> inside x r pg = false ->
  props_at x (replace_children r ms pg) = Some p.
Proof.
  intros Hwf Hx Hin. apply well_formed_spec in Hwf. destruct Hwf as (Hnd & Hlt).
  unfold props_at in *. destruct (node_at x pg) as [[s|p' k]|] eqn:Hn; try discriminate.
  cbn [props_of] in Hx. injection Hx as ->.
  unfold node_at in *. rewrite replace_children_document.
  destruct (find_props_set_kids x r (fst (build_all (fresh pg) ms)) (document pg) p k
              Hnd Hn) as (k' & ->); [| |reflexivity].
  - intros q old Hq. apply (inside_false x r pg q old Hin Hq).
  - destruct (build_all_nids ms (fresh pg)) as (E & _). rewrite E. intros Hs.
    apply in_seq in Hs.
    assert (x < fresh pg); [|lia]. apply Hlt.
    destruct (find_node_elem _ _ _ Hn) as (p' & ks & _ & <- & Hp).
    unfold nids. apply in_map. exact Hp.
Qed.

Lemma inside_everywhere (g : props -> props) (x r : ref) (pg : page) :
  (forall p, nid (g p) = nid p) ->
  inside x r (everywhere (map_props g) pg) = inside x r pg.
Proof.
  intros Hg. unfold inside. rewrite (node_at_everywhere g r pg Hg).
  destruct (node_at r pg) as [[s|p kids]|]; cbn [option_map map_props kids_of];
    try reflexivity.
  f_equal. clear p. induction kids as [|k kids IH]; [reflexivity|].
  cbn [map flat_map]. rewrite IH, (nids_map_props g k Hg). reflexivity.
Qed.

(** *** The date filters, opened on load *)

Lemma toggleDateFilters_opens (pg : page) (region icon : props) :
  well_formed pg = true ->
  by_id "date-filter-content" (document pg) = Some region ->
  descendant_of_class "date-filter-toggle" "toggle-icon" false (document pg) = Some icon ->
  display region = "none" \/ display region = EmptyString ->
  inside (nid region) (nid icon) pg = false ->
  exists pg',
    toggleDateFilters pg = (Return tt, pg', []) /\
    props_at (nid region) pg' = Some (with_display "block" region) /\
    content_at (nid icon) pg' = Some [MText "-"].
Proof.
  intros Hwf Hregion Hicon Hd Hin.
  rewrite (toggleDateFilters_run pg region icon Hwf Hregion Hicon).
  assert (E : (display region =? "none") || (display region =? EmptyString) = true).
  { destruct Hd as [-> | ->]; reflexivity. }
  rewrite E. eexists. split; [reflexivity|].
  pose proof Hwf as Hwf0. apply well_formed_spec in Hwf0. destruct Hwf0 as (Hnd & _).
  destruct (by_id_found _ _ _ Hregion) as (_ & Hr & _).
  destruct (lookup_unique pg region Hnd Hr) as (kr & Hkr).
  destruct (lookup_unique pg icon Hnd (descendant_of_class_In _ _ _ _ _ Hicon))
    as (ki & Hki).
  assert (Hg : forall p, nid (at_ref (nid region) (with_display "block") p) = nid p).
  { intros p. apply at_ref_nid. apply with_display_nid. }
  unfold update_props. split.
  - apply props_at_replace_children.
    + rewrite well_formed_everywhere; [exact Hwf|exact Hg].
    + unfold props_at. rewrite (node_at_everywhere _ _ pg Hg), Hkr.
      cbn [option_map map_props props_of]. unfold at_ref. rewrite Nat.eqb_refl.
      reflexivity.
    + rewrite (inside_everywhere _ _ _ pg Hg). exact Hin.
  - eapply content_at_replace_children.
    rewrite (node_at_everywhere _ _ pg Hg), Hki. cbn [option_map map_props]. reflexivity.
Qed.

(** *** A loaded menu is toggled without a request *)

Lemma toggle_loaded (menuId : string) (pg : page) (t c : ref) (open : bool) :
  menu_state menuId pg t c open true ->
  exists pg', toggleCollectionsMenu menuId pg = (Return tt, pg', [StopPropagation]) /\
              menu_state menuId pg' t c (negb open) true.
Proof.
  destruct open; intros H; [apply toggle_closes|apply toggle_shows]; exact H.
Qed.

Lemma toggles_emit_no_fetch (menuId : string) (t c : ref) (n : nat) :
  forall (w : world) (open : bool),
    menu_state menuId (page_of w) t c open true ->
    filter is_fetch (trace (run_events (repeat (Toggle menuId) n) w))
    = filter is_fetch (trace w).
Proof.
  induction n as [|n IH]; intros w open H; [reflexivity|].
  cbn [repeat]. unfold run_events in *. cbn [fold_left step].
  destruct (toggle_loaded menuId (page_of w) t c open H) as (pg' & Hrun & H').
  unfold run. rewrite Hrun.
  rewrite (IH _ (negb open)) by exact H'.
  cbn [trace]. rewrite filter_app. cbn. apply app_nil_r.
Qed.


End ScriptFacts.

Module EdgeFacts.

Import Str Dom Html Js Script View Loop Reasoning DomFacts HtmlFacts JsFacts PageFacts
  InvFacts MenuFacts ToggleFacts StateFacts LoopFacts HandlerFacts FrameFacts ScriptFacts.

(** *** The date filters with an element missing *)

Lemma toggleDateFilters_no_region (pg : page) :
  by_id "date-filter-content" (document pg) = None ->
  toggleDateFilters pg = (Throw TypeError, pg, []).
Proof.
  intros H. unfold toggleDateFilters, getElementById, querySelector_descendant.
  rewrite !bind_read, H. reflexivity.
Qed.

Lemma toggleDateFilters_no_icon (pg : page) (region : props) :
  well_formed pg = true ->
  by_id "date-filter-content" (document pg) = Some region ->
  descendant_of_class "date-filter-toggle" "toggle-icon" false (document pg) = None ->
  toggleDateFilters pg
  = (Throw TypeError,
     everywhere
       (update_props (nid region)
          (with_display (if (display region =? "none") || (display region =? EmptyString)
                         then "block" else "none"))) pg,
     []).
Proof.
  intros Hwf Hregion Hicon. apply well_formed_spec in Hwf. destruct Hwf as (Hnd & _).
  destruct (by_id_found _ _ _ Hregion) as (_ & Hin & _).
  destruct (lookup_unique pg region Hnd Hin) as (kr & Hkr).
  unfold toggleDateFilters, getElementById, querySelector_descendant.
  rewrite !bind_read, Hregion, Hicon. cbn [option_map deref]. rewrite bind_ret.
  rewrite (bind_pure _ _ _ _ (style_display_run _ _ _ _ (lookup_document _ _ _ Hkr))).
  destruct ((display region =? "none") || (display region =? EmptyString));
    unfold set_style_display; rewrite bind_write; reflexivity.
Qed.

(** *** A toggle that finds no target, or no content area *)

Lemma by_id_none (x : string) (n : node) (p : props) :
  by_id x n = None -> nonempty x = true -> In p (elems n) -> id_of p <> x.
Proof.
  unfold by_id. intros H Hx Hp E. rewrite Hx in H.
  apply (find_none _ _ H) in Hp. apply String.eqb_neq in Hp. tauto.
Qed.

Lemma toggle_unknown (menuId : string) (pg : page) :
  well_formed pg = true -> by_id menuId (document pg) = None ->
  exists pg1,
    toggleCollectionsMenu menuId pg = (Throw TypeError, pg1, [StopPropagation]) /\
    document pg1 = map_props (hide_other menuId) (document pg).
Proof.
  intros Hwf Hnone. destruct (toggle_run menuId pg Hwf) as (pg1 & Hd & _ & Hrun).
  exists pg1. split; [|exact Hd]. rewrite Hrun, Hnone. reflexivity.
Qed.

Lemma toggle_no_content (menuId : string) (pg : page) (pt : props) (kt : list node) :
  well_formed pg = true ->
  by_id menuId (document pg) = Some pt ->
  node_at (nid pt) pg = Some (Elem pt kt) ->
  querySelector_class "collections-menu-content" (Elem pt kt) = None ->
  display pt <> "block" ->
  exists pg1,
    document pg1 = map_props (hide_other menuId) (document pg) /\
    toggleCollectionsMenu menuId pg
    = (Throw TypeError,
       everywhere (update_props (nid pt) (with_display "block")) pg1,
       [StopPropagation]).
Proof.
  intros Hwf Hfind Hnode Hq Hd.
  destruct (toggle_run menuId pg Hwf) as (pg1 & Hdoc & _ & Hrun).
  exists pg1. split; [exact Hdoc|]. rewrite Hrun, Hfind. cbn [option_map].
  set (h := hide_other menuId) in *.
  assert (Hh : display_only h) by apply display_only_hide_other.
  assert (Ept : h pt = pt).
  { apply hide_other_target. apply (by_id_found _ _ _ Hfind). }
  assert (Hl1 : lookup (nid pt) pg1 = Some (Elem pt (map (map_props h) kt))).
  { apply lookup_document. unfold node_at in *. rewrite Hdoc.
    rewrite find_node_map_props by (intros p; apply Hh).
    rewrite Hnode. cbn [option_map map_props]. rewrite Ept. reflexivity. }
  set (g := at_ref (nid pt) (with_display "block")).
  assert (Hg : display_only g) by apply display_only_at_ref.
  assert (Hl2 : lookup (nid pt) (everywhere (update_props (nid pt) (with_display "block")) pg1)
                = Some (map_props g (map_props h (Elem pt kt)))).
  { unfold update_props. fold g. rewrite lookup_everywhere by (intros p; apply Hg).
    rewrite Hl1. cbn [option_map map_props]. rewrite Ept. reflexivity. }
  unfold toggle_target. cbn [deref]. rewrite bind_ret.
  rewrite (bind_pure _ _ _ _ (style_display_run _ _ _ _ Hl1)).
  apply String.eqb_neq in Hd. rewrite Hd.
  unfold set_style_display. rewrite bind_write.
  rewrite (bind_pure _ _ _ _ (querySelector_run "collections-menu-content" _ _ _ Hl2)).
  rewrite !querySelector_class_map_props, Hq.
  - reflexivity.
  - intros p. apply display_only_class. exact Hh.
  - intros p. apply display_only_class. exact Hg.
Qed.

(** *** A confirmed action on a row without its name *)

Lemma patch_button_no_span (target : ref) (act : action) (cid aid : option string)
    (pg : page) (ch ch2 : list props) (pbc row : props) (n : node) :
  chain_in target pg = Some ch ->
  find (has_class "collection-action-button") ch = Some pbc ->
  chain_in (nid pbc) pg = Some ch2 ->
  find (has_class "collection-entry") ch2 = Some row ->
  lookup (nid row) pg = Some n ->
  querySelector_span_first_child n = None ->
  patch_button target act cid aid pg = (Throw TypeError, pg, []).
Proof.
  intros Hch Hbc Hch2 Hrow Hn Hspan. unfold patch_button.
  rewrite (bind_pure _ _ _ _ (closest_run "collection-action-button" _ _ _ Hch)).
  rewrite Hbc. cbn [option_map].
  rewrite (bind_pure _ _ _ _ (closest_run "collection-entry" _ _ _ Hch2)).
  rewrite Hrow. cbn [option_map].
  rewrite bind_assoc. rewrite (bind_pure _ _ _ _ (element_run _ _ _ Hn)).
  rewrite Hspan. reflexivity.
Qed.

(** *** No open menu *)

Lemma filter_none (A : Type) (f : A -> bool) (l : list A) :
  (forall x, In x l -> f x = false) -> filter f l = [].
Proof.
  induction l as [|a l IH]; intros H; [reflexivity|].
  cbn [filter]. rewrite (H a) by (left; reflexivity).
  apply IH. intros x Hx. apply H. right. exact Hx.
Qed.

Lemma closed_after_closing (menuId : string) (pg : page) (t c : ref) (loaded : bool) :
  invariant pg -> menu_state menuId pg t c true loaded ->
  visible_menus (page_after (toggleCollectionsMenu menuId pg)) = [].
Proof.
  intros Hinv Hst.
  pose proof (invariant_toggle menuId pg Hinv) as (Hwf' & Hid' & _).
  pose proof Hinv as (Hwf & _).
  pose proof (others_hidden_toggle menuId pg Hwf) as Hothers.
  destruct (toggle_closes menuId pg t c loaded Hst) as (pg' & Hrun & Hst').
  rewrite Hrun in *. cbn [page_after fst snd] in *.
  destruct Hst' as (_ & pt & pc & (Hfind & _) & _ & _ & Hshown & _).
  destruct (by_id_found _ _ _ Hfind) as (Eid & Hpt & Hne).
  apply String.eqb_eq in Eid. apply unique_ids_spec in Hid'.
  unfold visible_menus. apply filter_none. intros p Hp.
  destruct (is_menu p) eqn:Mp; [|reflexivity]. cbn [andb].
  destruct (String.eqb_spec (id_of p) menuId) as [E|E].
  - assert (p = pt); [|subst; exact Hshown].
    apply (same_id (elems (document pg'))); auto; rewrite E; auto.
  - unfold shown. rewrite (Hothers p Hp Mp E). reflexivity.
Qed.

(** *** A settled request opens no menu *)




End EdgeFacts.

Module RoundTripFacts.

Import Str Dom Html Js Script View Loop Reasoning DomFacts HtmlFacts JsFacts PageFacts
  InvFacts MenuFacts ToggleFacts StateFacts LoopFacts HandlerFacts FrameFacts ScriptFacts
  EdgeFacts.

(** *** Where a search through the children succeeds *)

Lemma first_some_split (A B : Type) (f : A -> option B) (l : list A) (y : B) :
  first_some f l = Some y ->
  exists l1 x l2, l = (l1 ++ x :: l2)%list /\ f x = Some y /\
                  Forall (fun z => f z = None) l1.
Proof.
  induction l as [|a l IH]; simpl; [discriminate|].
  destruct (f a) eqn:E.
  - intros [= <-]. exists [], a, l. auto.
  - intros H. destruct (IH H) as (l1 & x & l2 & -> & Hx & Hl1).
    exists (a :: l1), x, l2. auto.
Qed.


(** Among children with distinct identities, replacing below [r] touches
    only the child that holds [r]. *)
Lemma set_kids_split (r : ref) (new kids : list node) (m : node) :
  NoDup (flat_map nids kids) -> first_some (find_node r) kids = Some m ->
  exists l1 k l2,
    kids = (l1 ++ k :: l2)%list /\ find_node r k = Some m /\ NoDup (nids k) /\
    map (set_kids r new) kids = (l1 ++ set_kids r new k :: l2)%list /\
    Forall (fun z => find_node r z = None) l1.
Proof.
  intros Hnd Hfind.
  destruct (first_some_split _ _ _ _ _ Hfind) as (l1 & k & l2 & -> & Hk & Hl1).
  exists l1, k, l2. split; [reflexivity|]. split; [exact Hk|].
  rewrite flat_map_app in Hnd. cbn [flat_map] in Hnd.
  apply NoDup_app_inv in Hnd. destruct Hnd as (_ & Hnd & _).
  apply NoDup_app_inv in Hnd. destruct Hnd as (Hndk & _ & Hdis).
  split; [exact Hndk|]. split; [|exact Hl1].
  rewrite map_app. cbn [map]. f_equal.
  - rewrite <- (map_id l1) at 2. apply map_ext_in. intros z Hz.
    rewrite Forall_forall in Hl1. apply set_kids_absent. apply find_node_present.
    apply Hl1. exact Hz.
  - f_equal. rewrite <- (map_id l2) at 2. apply map_ext_in. intros z Hz.
    apply set_kids_absent. intros Hin.
    destruct (find_node_elem _ _ _ Hk) as (p & ks & _ & <- & Hp).
    apply (Hdis (nid p)); [unfold nids; apply in_map; exact Hp|].
    apply (flat_map_nids_in _ z); assumption.
Qed.

(** Giving an element the children it has changes nothing. *)
Lemma set_kids_same (r : ref) (n : node) (p : props) (kids : list node) :
  NoDup (nids n) -> find_node r n = Some (Elem p kids) -> set_kids r kids n = n.
Proof.
  induction n as [s|q kids0 IH] using node_ind; [discriminate|].
  rewrite nids_elem. intros Hnd. inversion Hnd as [|? ? _ Hks]; subst. clear Hnd.
  cbn [find_node set_kids]. destruct (Nat.eqb (nid q) r).
  - intros [= <- <-]. reflexivity.
  - intros Hfind.
    destruct (set_kids_split r kids kids0 _ Hks Hfind) as (l1 & k & l2 & E & Hk & Hndk & Em & _).
    rewrite Em. rewrite E in IH. apply Forall_app in IH. destruct IH as (_ & IH).
    inversion IH as [|? ? IHk _]; subst. rewrite (IHk Hndk Hk). reflexivity.
Qed.

Lemma map_props_set_kids (g : props -> props) (r : ref) (new : list node) (n : node) :
  (forall p, nid (g p) = nid p) ->
  map_props g (set_kids r new n) = set_kids r (map (map_props g) new) (map_props g n).
Proof.
  intros Hg. induction n as [s|q kids IH] using node_ind; [reflexivity|].
  cbn [set_kids map_props]. rewrite Hg. destruct (Nat.eqb (nid q) r); cbn [map_props].
  - reflexivity.
  - f_equal. rewrite !map_map. apply map_ext_in. intros k Hk.
    rewrite Forall_forall in IH. apply IH. exact Hk.
Qed.

(** *** Searches that text nodes do not change *)

Lemma descendant_of_class_texts (a b : string) (l : list node) (ins : bool) :
  elems_of l = [] -> first_some (descendant_of_class a b ins) l = None.
Proof.
  induction l as [|k l IH]; [reflexivity|].
  unfold elems_of. cbn [flat_map first_some]. intros E.
  apply app_eq_nil in E. destruct E as (Ek & El).
  destruct k as [s|p kids]; [|discriminate]. cbn [descendant_of_class].
  apply IH. exact El.
Qed.

Lemma descendant_of_class_set_kids (a b : string) (r : ref) (new old : list node)
    (p : props) (n : node) :
  NoDup (nids n) -> find_node r n = Some (Elem p old) ->
  elems_of old = [] -> elems_of new = [] ->
  forall ins, descendant_of_class a b ins (set_kids r new n) = descendant_of_class a b ins n.
Proof.
  intros Hnd Hfind Hold Hnew. revert Hnd Hfind.
  induction n as [s|q kids IH] using node_ind; [discriminate|].
  rewrite nids_elem. intros Hnd. inversion Hnd as [|? ? _ Hks]; subst. clear Hnd.
  cbn [find_node set_kids]. destruct (Nat.eqb (nid q) r).
  - intros [= <- <-] ins. cbn [descendant_of_class].
    rewrite !descendant_of_class_texts by assumption. reflexivity.
  - intros Hfind ins. cbn [descendant_of_class].
    destruct (ins && has_class b q); [reflexivity|].
    destruct (set_kids_split r new kids _ Hks Hfind) as (l1 & k & l2 & E & Hk & Hndk & Em & _).
    rewrite Em, E. rewrite E in IH. apply Forall_app in IH. destruct IH as (_ & IH).
    inversion IH as [|? ? IHk _]; subst.
    generalize (ins || has_class a q). intros ins'. clear - IHk Hndk Hk.
    induction l1 as [|z l1 IHl]; cbn [app first_some].
    + rewrite (IHk Hndk Hk ins'). reflexivity.
    + destruct (descendant_of_class a b ins' z); [reflexivity|exact IHl].
Qed.

Lemma descendant_of_class_map_props (a b : string) (g : props -> props) (n : node) :
  (forall c p, has_class c (g p) = has_class c p) ->
  forall ins, descendant_of_class a b ins (map_props g n)
              = option_map g (descendant_of_class a b ins n).
Proof.
  intros Hg. induction n as [s|q kids IH] using node_ind; intros ins; [reflexivity|].
  cbn [map_props descendant_of_class]. rewrite !Hg.
  destruct (ins && has_class b q); [reflexivity|].
  generalize (ins || has_class a q). intros ins'.
  induction IH as [|k kids Hk _ IHk]; [reflexivity|].
  cbn [map first_some]. rewrite Hk.
  destruct (descendant_of_class a b ins' k); [reflexivity|exact IHk].
Qed.

Lemma by_id_map_props (x : string) (g : props -> props) (n : node) :
  (forall p, id_of (g p) = id_of p) ->
  by_id x (map_props g n) = option_map g (by_id x n).
Proof.
  intros Hg. unfold by_id. destruct (nonempty x); [|reflexivity].
  rewrite elems_map_props. apply find_map_same. intros p. rewrite Hg. reflexivity.
Qed.

Lemma elems_set_kids_texts (r : ref) (new old : list node) (p : props) (n : node) :
  NoDup (nids n) -> find_node r n = Some (Elem p old) ->
  elems_of old = [] -> elems_of new = [] ->
  elems (set_kids r new n) = elems n.
Proof.
  intros Hnd Hfind Hold Hnew.
  destruct (set_kids_elems r n p old Hnd Hfind) as (l1 & l2 & E1 & E2).
  rewrite E2, E1, Hold, Hnew. reflexivity.
Qed.

(** *** toggleDateFilters, once *)

Lemma toggleDateFilters_once (pg : page) (region icon : props) :
  well_formed pg = true ->
  by_id "date-filter-content" (document pg) = Some region ->
  descendant_of_class "date-filter-toggle" "toggle-icon" false (document pg) = Some icon ->
  toggleDateFilters pg
  = (Return tt,
     replace_children (nid icon) [MText (sign (display region))]
       (everywhere (update_props (nid region) (with_display (switched (display region)))) pg),
     []).
Proof.
  intros Hwf Hregion Hicon.
  rewrite (toggleDateFilters_run pg region icon Hwf Hregion Hicon).
  unfold switched, sign.
  destruct ((display region =? "none") || (display region =? EmptyString)); reflexivity.
Qed.

(** What one toggle leaves for the next, when the icon holds only text. *)
Lemma toggleDateFilters_next (pg : page) (region icon : props) (s d t : string) :
  well_formed pg = true ->
  by_id "date-filter-content" (document pg) = Some region ->
  descendant_of_class "date-filter-toggle" "toggle-icon" false (document pg) = Some icon ->
  node_at (nid icon) pg = Some (Elem icon [Text s]) ->
  let g := at_ref (nid region) (with_display d) in
  let pg1 := replace_children (nid icon) [MText t]
               (everywhere (update_props (nid region) (with_display d)) pg) in
  well_formed pg1 = true /\
  document pg1 = set_kids (nid icon) [Text t] (map_props g (document pg)) /\
  by_id "date-filter-content" (document pg1) = Some (with_display d region) /\
  descendant_of_class "date-filter-toggle" "toggle-icon" false (document pg1)
  = Some (g icon) /\
  node_at (nid icon) pg1 = Some (Elem (g icon) [Text t]) /\
  props_at (nid region) pg1 = Some (with_display d region).
Proof.
  intros Hwf Hregion Hicon Hnode g pg1.
  assert (Hg : display_only g) by apply display_only_at_ref.
  assert (Hgn : forall p, nid (g p) = nid p) by (intros p; apply Hg).
  assert (Hwf0 : well_formed (everywhere (update_props (nid region) (with_display d)) pg)
                 = true).
  { unfold update_props. rewrite well_formed_everywhere; assumption. }
  assert (Hnode0 : node_at (nid icon)
                     (everywhere (update_props (nid region) (with_display d)) pg)
                   = Some (Elem (g icon) [Text s])).
  { unfold update_props. fold g. rewrite (node_at_everywhere g _ pg Hgn), Hnode.
    reflexivity. }
  assert (Hdoc : document pg1 = set_kids (nid icon) [Text t] (map_props g (document pg))).
  { unfold pg1. rewrite replace_children_document. reflexivity. }
  assert (Hwf1 : well_formed pg1 = true).
  { apply well_formed_replace_children. exact Hwf0. }
  pose proof Hwf0 as Hnd0. apply well_formed_spec in Hnd0. destruct Hnd0 as (Hnd0 & _).
  cbn [document everywhere] in Hnd0. unfold update_props in Hnd0. fold g in Hnd0.
  unfold node_at in Hnode0. cbn [document everywhere] in Hnode0.
  unfold update_props in Hnode0. fold g in Hnode0.
  split; [exact Hwf1|]. split; [exact Hdoc|]. split; [|split; [|split]].
  - rewrite Hdoc. unfold by_id.
    rewrite (elems_set_kids_texts _ [Text t] [Text s] (g icon) _ Hnd0 Hnode0 eq_refl eq_refl).
    fold (by_id "date-filter-content" (map_props g (document pg))).
    rewrite by_id_map_props by (intros p; apply display_only_id; exact Hg).
    rewrite Hregion. cbn [option_map]. unfold g, at_ref. rewrite Nat.eqb_refl. reflexivity.
  - rewrite Hdoc.
    rewrite (descendant_of_class_set_kids _ _ _ [Text t] [Text s] (g icon) _ Hnd0 Hnode0
               eq_refl eq_refl).
    rewrite descendant_of_class_map_props, Hicon; [reflexivity|].
    intros c p. apply display_only_class. exact Hg.
  - unfold node_at. rewrite Hdoc.
    apply (find_node_set_kids_same _ _ _ _ _ Hnode0).
  - pose proof Hwf as Hnd. apply well_formed_spec in Hnd. destruct Hnd as (Hnd & _).
    destruct (by_id_found _ _ _ Hregion) as (_ & Hin & _).
    destruct (lookup_unique pg region Hnd Hin) as (kr & Hkr).
    unfold pg1. apply props_at_replace_children; [exact Hwf0| |].
    + unfold props_at, update_props. fold g. rewrite (node_at_everywhere g _ pg Hgn), Hkr.
      cbn [option_map map_props props_of]. unfold g, at_ref. rewrite Nat.eqb_refl.
      reflexivity.
    + unfold inside, node_at. cbn [document everywhere]. unfold update_props. fold g.
      rewrite Hnode0. reflexivity.
Qed.

Lemma with_display_same (p : props) : with_display (display p) p = p.
Proof. destruct p. reflexivity. Qed.

Lemma with_display_twice (d e : string) (p : props) :
  with_display e (with_display d p) = with_display e p.
Proof. destruct p. reflexivity. Qed.

End RoundTripFacts.

Module StaleFacts.

Import Str Dom Html Js Script View Loop Reasoning DomFacts HtmlFacts JsFacts PageFacts
  InvFacts MenuFacts ToggleFacts StateFacts LoopFacts HandlerFacts FrameFacts ScriptFacts
  EdgeFacts RoundTripFacts.

(** *** Chains *)





(** *** The button that was replaced *)




(** *** The button that took its place *)










End StaleFacts.


(* ------------------------------------------------------------------ *)
(** * The properties of the script *)

Module Properties.

Import Str Dom Html Js Script View Loop Reasoning Sample.
Import DomFacts HtmlFacts JsFacts PageFacts InvFacts MenuFacts ToggleFacts StateFacts
  LoopFacts StrFacts TemplateFacts HandlerFacts FrameFacts ScriptFacts.

Ltac by_running := vm_compute; reflexivity.

Ltac menu_state_here :=
  split; [by_running|];
  eexists; eexists; split;
  [split; [by_running|eexists; split; by_running]|repeat split; by_running].

(** ** One menu at a time *)



(** ** Toggling without a request *)



(** ** The first opening of a menu *)

(** C8: opening a closed menu whose content is not marked as loaded puts
    the text Loading... in the content area and emits one GET request to
    /article/{articleId}/collections_status, where articleId holds no '-'
    and is what follows the last '-' of the menu id, or the whole id when
    it has none. *)
Theorem first_opening_fetches (menuId : string) (pg : page) (t c : ref) :
  menu_state menuId pg t c false false ->
  exists pg' articleId,
    toggleCollectionsMenu menuId pg
    = (Return tt, pg',
       [StopPropagation;
        Fetch (Request ("/article/" ++ articleId ++ "/collections_status") GET [] None)
              (AwaitStatus c (Some articleId))]) /\
    content_at c pg' = Some [MText "Loading..."] /\
    menu_state menuId pg' t c true false /\
    has_char "-" articleId = false /\
    (menuId = articleId \/ exists before, menuId = before ++ String "-" articleId).
Proof.
  intros H. destruct (toggle_fetches menuId pg t c H) as (pg' & Hrun & H' & Hc).
  destruct (pop_split "-" menuId) as (a & Ha & Hno & Hlast).
  exists pg', a. rewrite Hrun, Ha. auto.
Qed.

Lemma first_opening_fetches_witness :
  menu_state "collections-menu-12" home 9 10 false false /\
  exists pg' articleId,
    toggleCollectionsMenu "collections-menu-12" home
    = (Return tt, pg',
       [StopPropagation;
        Fetch (Request ("/article/" ++ articleId ++ "/collections_status") GET [] None)
              (AwaitStatus 10 (Some articleId))]).
Proof.
  assert (H : menu_state "collections-menu-12" home 9 10 false false) by menu_state_here.
  split; [exact H|].
  destruct (first_opening_fetches "collections-menu-12" home 9 10 H)
    as (pg' & a & Hrun & _).
  exists pg', a. exact Hrun.
Defined.

(** ** A failed action *)

(** C6: when the request of an add or remove click fails (the fetch is
    rejected, the status is not ok, the body is no JSON, or its status is
    not 'ok'), the handler logs the error and shows one alert, Failed to
    {action} article., and the page is the one it was given; the click
    itself, which only sends the request, leaves the page as it was too. *)
Theorem failed_action_alerts_once (target : ref) (act : action)
    (collectionId articleId : option string) (o : outcome) (pg : page) :
  fails o = true ->
  resume_action target act collectionId articleId o pg
  = (Return tt, pg,
     [ConsoleError ("Error with " ++ action_name act ++ " action:")
                   (failure "Action failed." o);
      Alert ("Failed to " ++ action_name act ++ " article.")]) /\
  List.length (filter is_alert
                 (effects (resume_action target act collectionId articleId o pg))) = 1 /\
  forall before pb kb,
    lookup target before = Some (Elem pb kb) -> action_of pb = Some act ->
    page_after (onClick target before) = before /\
    filter is_alert (effects (onClick target before)) = [].
Proof.
  intros Hfail. rewrite (resume_action_fails target act collectionId articleId o pg Hfail).
  split; [reflexivity|]. split; [reflexivity|].
  intros before pb kb Hb Hact. rewrite (onClick_action target before pb kb act Hb Hact).
  split; reflexivity.
Qed.

Lemma failed_action_alerts_once_witness :
  fails server_error = true /\
  resume_action 19 Remove (Some "3") (Some "12") server_error loaded
  = (Return tt, loaded,
     [ConsoleError "Error with remove action:" (Error "HTTP error! Status: 500");
      Alert "Failed to remove article."]).
Proof.
  split; [reflexivity|].
  exact (proj1 (failed_action_alerts_once 19 Remove (Some "3") (Some "12") server_error
                  loaded eq_refl)).
Defined.

(** ** A success with nothing to patch *)

(** C10: when the request of an add or remove click succeeds and
    closest('.collection-action-button') finds nothing (neither the
    clicked button nor any of its ancestors has the class), the handler
    returns with the page it was given and with no effect: no alert and no
    log. *)
Theorem success_without_container (target : ref) (act : action)
    (collectionId articleId : option string) (code : nat) (d : payload) (pg : page)
    (ch : list props) :
  chain_in target pg = Some ch ->
  find (has_class "collection-action-button") ch = None ->
  status d = "ok" ->
  resume_action target act collectionId articleId (Responded true code (Some d)) pg
  = (Return tt, pg, []).
Proof.
  intros Hch Hnone Hok.
  apply resume_action_ok; [exact Hok|].
  exact (patch_button_none target act collectionId articleId pg ch Hch Hnone).
Qed.

Lemma success_without_container_witness :
  option_map (map nid) (chain_in 12 home) = Some [12; 11; 1; 0] /\
  resume_action 12 Add (Some "5") (Some "7") ok_action home = (Return tt, home, []).
Proof.
  split; [by_running|].
  assert (H : exists ch, chain_in 12 home = Some ch /\
                         find (has_class "collection-action-button") ch = None)
    by (eexists; split; by_running).
  destruct H as (ch & Hch & Hnone).
  exact (success_without_container 12 Add (Some "5") (Some "7") 200
           (Payload "ok" None None) home ch Hch Hnone eq_refl).
Defined.

(** ** A failed load *)



(** ** A click that is no action *)

(** C7: for a click on an element that is neither an add nor a remove
    button: when closest('.collections-menu') finds nothing (neither the
    element nor any of its ancestors is a menu), every menu gets display
    'none' and nothing else changes; when it finds a menu, the page is
    left as it is.  No request, log or alert is emitted either way. *)
Theorem click_elsewhere_closes (target : ref) (pg : page) (pb : props) (kb : list node)
    (ch : list props) :
  well_formed pg = true ->
  lookup target pg = Some (Elem pb kb) ->
  action_of pb = None ->
  chain_in target pg = Some ch ->
  match find (has_class "collections-menu") ch with
  | Some _ => onClick target pg = (Return tt, pg, [])
  | None =>
      exists pg',
        onClick target pg = (Return tt, pg', []) /\
        document pg' = map_props hide_menu (document pg) /\
        forall p, In p (elems (document pg')) -> is_menu p = true -> display p = "none"
  end.
Proof.
  intros Hwf Hb Hact Hch.
  rewrite (onClick_elsewhere target pg pb kb ch Hb Hact Hch).
  destruct (find (has_class "collections-menu") ch); [reflexivity|].
  destruct (close_all_menus_run pg Hwf) as (pg' & Hrun & Hdoc & _).
  exists pg'. split; [exact Hrun|]. split; [exact Hdoc|].
  intros p' Hp'. rewrite Hdoc, elems_map_props in Hp'.
  apply in_map_iff in Hp'. destruct Hp' as (p & <- & _).
  unfold hide_menu. destruct (is_menu p) eqn:Mp; [reflexivity|].
  rewrite Mp. discriminate.
Qed.

Lemma click_elsewhere_closes_witness :
  well_formed opened = true /\
  List.length (visible_menus opened) = 1 /\
  exists pg',
    onClick 1 opened = (Return tt, pg', []) /\
    document pg' = map_props hide_menu (document opened).
Proof.
  assert (Hwf : well_formed opened = true) by by_running.
  split; [exact Hwf|]. split; [by_running|].
  assert (H : exists pb kb ch,
             lookup 1 opened = Some (Elem pb kb) /\ action_of pb = None /\
             chain_in 1 opened = Some ch /\
             find (has_class "collections-menu") ch = None).
  { do 3 eexists. split; [by_running|]. split; [by_running|]. split; by_running. }
  destruct H as (pb & kb & ch & H1 & H2 & H3 & H4).
  pose proof (click_elsewhere_closes 1 opened pb kb ch Hwf H1 H2 H3) as H.
  rewrite H4 in H. destruct H as (pg' & Hrun & Hdoc & _).
  exists pg'. split; [exact Hrun|exact Hdoc].
Defined.

(** ** A successful load *)



(** ** A successful action *)



(** ** The date filters on load *)

(** C9, as the script has it: on DOMContentLoaded, when both #start_date
    and #end_date are present and at least one of them holds a non-empty
    value, toggleDateFilters runs once, so that a region whose inline
    display is 'none' or empty gets display 'block' and the text of the
    toggle icon becomes '-'; when either input is absent the handler
    only installs the click listener and leaves the page as it is. *)
Theorem auto_expand_needs_both_inputs (pg : page) :
  well_formed pg = true ->
  (forall s e region icon,
     by_id "start_date" (document pg) = Some s ->
     by_id "end_date" (document pg) = Some e ->
     truthy (value s) || truthy (value e) = true ->
     by_id "date-filter-content" (document pg) = Some region ->
     descendant_of_class "date-filter-toggle" "toggle-icon" false (document pg)
     = Some icon ->
     display region = "none" \/ display region = EmptyString ->
     inside (nid region) (nid icon) pg = false ->
     exists pg',
       onDOMContentLoaded pg = (Return tt, pg', [AddClickListener]) /\
       props_at (nid region) pg' = Some (with_display "block" region) /\
       content_at (nid icon) pg' = Some [MText "-"]) /\
  (by_id "start_date" (document pg) = None \/ by_id "end_date" (document pg) = None ->
   onDOMContentLoaded pg = (Return tt, pg, [AddClickListener])).
Proof.
  intros Hwf. rewrite (onDOMContentLoaded_run pg Hwf). split.
  - intros s e region icon -> -> -> Hregion Hicon Hd Hin.
    destruct (toggleDateFilters_opens pg region icon Hwf Hregion Hicon Hd Hin)
      as (pg' & Hrun & Hp & Hc).
    exists pg'. unfold bind. rewrite Hrun. auto.
  - intros [-> | ->]; [reflexivity|].
    destruct (by_id "start_date" (document pg)); reflexivity.
Qed.

Lemma auto_expand_needs_both_inputs_witness :
  well_formed home = true /\
  exists pg',
    onDOMContentLoaded home = (Return tt, pg', [AddClickListener]) /\
    option_map display (props_at 6 pg') = Some "block" /\
    content_at 5 pg' = Some [MText "-"].
Proof.
  assert (Hwf : well_formed home = true) by by_running.
  split; [exact Hwf|].
  assert (H : exists s e region icon,
             by_id "start_date" (document home) = Some s /\
             by_id "end_date" (document home) = Some e /\
             truthy (value s) || truthy (value e) = true /\
             by_id "date-filter-content" (document home) = Some region /\
             descendant_of_class "date-filter-toggle" "toggle-icon" false (document home)
             = Some icon /\
             display region = "none" /\ inside (nid region) (nid icon) home = false /\
             nid region = 6 /\ nid icon = 5).
  { do 4 eexists. split; [by_running|]. split; [by_running|]. split; [by_running|].
    split; [by_running|]. split; [by_running|]. split; [by_running|].
    split; [by_running|]. split; by_running. }
  destruct H as (s & e & region & icon & H1 & H2 & H3 & H4 & H5 & H6 & H7 & H8 & H9).
  destruct (proj1 (auto_expand_needs_both_inputs home Hwf) s e region icon H1 H2 H3 H4 H5
              (or_introl H6) H7) as (pg' & Hrun & Hp & Hc).
  rewrite H8 in Hp. rewrite H9 in Hc.
  exists pg'. split; [exact Hrun|]. split; [|exact Hc].
  rewrite Hp. reflexivity.
Defined.

(** C9 does not hold of a page that has only the #start_date input: the
    input holds a date, yet after DOMContentLoaded the region still has
    display 'none' and the icon still reads '+'. *)
Lemma one_date_input_is_not_expanded :
  option_map value (by_id "start_date" (document home_one_date))
  = Some (Some "2024-01-01") /\
  by_id "end_date" (document home_one_date) = None /\
  option_map nid (by_id "date-filter-content" (document home_one_date)) = Some 6 /\
  onDOMContentLoaded home_one_date = (Return tt, home_one_date, [AddClickListener]) /\
  option_map display (props_at 6 (page_after (onDOMContentLoaded home_one_date)))
  = Some "none" /\
  option_map display (props_at 6 (page_after (onDOMContentLoaded home_one_date)))
  <> Some "block" /\
  content_at 5 (page_after (onDOMContentLoaded home_one_date)) = Some [MText "+"].
Proof.
  split; [by_running|]. split; [by_running|]. split; [by_running|].
  split; [by_running|]. split; [by_running|]. split; [|by_running].
  vm_compute. discriminate.
Qed.

End Properties.

(* ------------------------------------------------------------------ *)
(** * Edge cases and compositions *)

Module Behaviour.

Import Str Dom Html Js Script View Loop Reasoning Sample.
Import DomFacts HtmlFacts JsFacts PageFacts InvFacts MenuFacts ToggleFacts StateFacts
  LoopFacts StrFacts TemplateFacts HandlerFacts FrameFacts ScriptFacts EdgeFacts
  RoundTripFacts StaleFacts.

Ltac run_here := vm_compute; reflexivity.

Ltac state_here :=
  split; [run_here|];
  eexists; eexists; split;
  [split; [run_here|eexists; split; run_here]|repeat split; run_here].

(** ** The date filters *)

(** X1: when the page has the region but no toggle icon,
    toggleDateFilters has already switched the display of the region
    (to 'block' from 'none' or the empty display, to 'none' from any
    other) when reading the icon throws a TypeError. *)
Theorem date_filters_without_icon (pg : page) (region : props) :
  well_formed pg = true ->
  by_id "date-filter-content" (document pg) = Some region ->
  descendant_of_class "date-filter-toggle" "toggle-icon" false (document pg) = None ->
  exists pg',
    toggleDateFilters pg = (Throw TypeError, pg', []) /\
    props_at (nid region) pg'
    = Some (with_display
              (if (display region =? "none") || (display region =? EmptyString)
               then "block" else "none") region).
Proof.
  intros Hwf Hregion Hicon.
  rewrite (toggleDateFilters_no_icon pg region Hwf Hregion Hicon).
  eexists. split; [reflexivity|].
  apply well_formed_spec in Hwf. destruct Hwf as (Hnd & _).
  destruct (by_id_found _ _ _ Hregion) as (_ & Hin & _).
  destruct (lookup_unique pg region Hnd Hin) as (kr & Hkr).
  unfold props_at, update_props.
  rewrite node_at_everywhere by (intros p; apply at_ref_nid; apply with_display_nid).
  rewrite Hkr. cbn [option_map map_props props_of]. unfold at_ref.
  rewrite Nat.eqb_refl. reflexivity.
Qed.

Lemma date_filters_without_icon_witness :
  well_formed no_icon = true /\
  exists pg',
    toggleDateFilters no_icon = (Throw TypeError, pg', []) /\
    option_map display (props_at 4 pg') = Some "block".
Proof.
  assert (Hwf : well_formed no_icon = true) by run_here.
  split; [exact Hwf|].
  assert (H : exists region,
             by_id "date-filter-content" (document no_icon) = Some region /\
             nid region = 4 /\ display region = "none")
    by (eexists; split; [run_here|split; run_here]).
  destruct H as (region & Hregion & Hnid & Hd).
  destruct (date_filters_without_icon no_icon region Hwf Hregion eq_refl)
    as (pg' & Hrun & Hp).
  exists pg'. split; [exact Hrun|].
  rewrite Hnid, Hd in Hp. rewrite Hp. reflexivity.
Defined.

(** X2: when both date inputs are present and one holds a value, but the
    page lacks the region or the toggle icon, the DOMContentLoaded
    handler ends in the TypeError of toggleDateFilters and never
    installs the document click listener. *)
Theorem load_aborts_before_listener (pg : page) (s e : props) :
  well_formed pg = true ->
  by_id "start_date" (document pg) = Some s ->
  by_id "end_date" (document pg) = Some e ->
  truthy (value s) || truthy (value e) = true ->
  by_id "date-filter-content" (document pg) = None \/
  descendant_of_class "date-filter-toggle" "toggle-icon" false (document pg) = None ->
  exists pg',
    onDOMContentLoaded pg = (Throw TypeError, pg', []) /\
    ~ In AddClickListener (effects (onDOMContentLoaded pg)).
Proof.
  intros Hwf Hs He Hv Hmissing.
  rewrite (onDOMContentLoaded_run pg Hwf), Hs, He, Hv.
  destruct (by_id "date-filter-content" (document pg)) as [region|] eqn:Hregion.
  - destruct Hmissing as [Hmissing|Hicon]; [discriminate|].
    rewrite (bind_throws _ _ _ _ _ _ (toggleDateFilters_no_icon pg region Hwf Hregion Hicon)).
    eexists. split; [reflexivity|]. intros [].
  - rewrite (bind_throws _ _ _ _ _ _ (toggleDateFilters_no_region pg Hregion)).
    eexists. split; [reflexivity|]. intros [].
Qed.

Lemma load_aborts_before_listener_witness :
  well_formed odd = true /\
  ~ In AddClickListener (effects (onDOMContentLoaded odd)).
Proof.
  assert (Hwf : well_formed odd = true) by run_here.
  split; [exact Hwf|].
  assert (H : exists s e,
             by_id "start_date" (document odd) = Some s /\
             by_id "end_date" (document odd) = Some e /\
             truthy (value s) || truthy (value e) = true)
    by (do 2 eexists; split; [run_here|split; run_here]).
  destruct H as (s & e & Hs & He & Hv).
  destruct (load_aborts_before_listener odd s e Hwf Hs He Hv (or_introl eq_refl))
    as (pg' & _ & Hnever).
  exact Hnever.
Defined.

(** ** Toggling a menu that is not as expected *)

(** X3: toggleCollectionsMenu with an id that no element has stops the
    propagation of the click, hides every menu and throws a TypeError;
    it sends no request. *)
Theorem toggle_of_unknown_menu (menuId : string) (pg : page) :
  well_formed pg = true ->
  nonempty menuId = true ->
  by_id menuId (document pg) = None ->
  exists pg',
    toggleCollectionsMenu menuId pg = (Throw TypeError, pg', [StopPropagation]) /\
    document pg' = map_props hide_menu (document pg) /\
    visible_menus pg' = [].
Proof.
  intros Hwf Hne Hnone.
  destruct (toggle_unknown menuId pg Hwf Hnone) as (pg' & Hrun & Hdoc).
  exists pg'. split; [exact Hrun|].
  assert (E : document pg' = map_props hide_menu (document pg)).
  { rewrite Hdoc. apply map_props_ext. intros p Hp. unfold hide_other, hide_menu.
    destruct (is_menu p); [|reflexivity]. cbn [andb].
    pose proof (by_id_none menuId (document pg) p Hnone Hne Hp) as Hid.
    apply String.eqb_neq in Hid. rewrite Hid. reflexivity. }
  split; [exact E|].
  unfold visible_menus. rewrite E, elems_map_props. apply filter_none.
  intros p' Hp'. apply in_map_iff in Hp'. destruct Hp' as (p & <- & _).
  unfold hide_menu. destruct (is_menu p) eqn:Mp.
  - unfold shown. cbn [display with_display]. apply andb_false_r.
  - rewrite Mp. reflexivity.
Qed.

Lemma toggle_of_unknown_menu_witness :
  well_formed opened = true /\
  List.length (visible_menus opened) = 1 /\
  exists pg',
    toggleCollectionsMenu "collections-menu-99" opened
    = (Throw TypeError, pg', [StopPropagation]) /\
    visible_menus pg' = [].
Proof.
  assert (Hwf : well_formed opened = true) by run_here.
  split; [exact Hwf|]. split; [run_here|].
  assert (Hnone : by_id "collections-menu-99" (document opened) = None) by run_here.
  destruct (toggle_of_unknown_menu "collections-menu-99" opened Hwf eq_refl Hnone)
    as (pg' & Hrun & _ & Hvis).
  exists pg'. split; [exact Hrun|exact Hvis].
Defined.

(** X4: toggleCollectionsMenu on a closed menu that has no element of
    class collections-menu-content shows the menu and then throws a
    TypeError; it sends no request. *)
Theorem toggle_without_content_area (menuId : string) (pg : page) (pt : props)
    (kt : list node) :
  well_formed pg = true ->
  by_id menuId (document pg) = Some pt ->
  node_at (nid pt) pg = Some (Elem pt kt) ->
  querySelector_class "collections-menu-content" (Elem pt kt) = None ->
  display pt <> "block" ->
  exists pg',
    toggleCollectionsMenu menuId pg = (Throw TypeError, pg', [StopPropagation]) /\
    props_at (nid pt) pg' = Some (with_display "block" pt).
Proof.
  intros Hwf Hfind Hnode Hq Hd.
  destruct (toggle_no_content menuId pg pt kt Hwf Hfind Hnode Hq Hd) as (pg1 & Hdoc & Hrun).
  eexists. split; [exact Hrun|].
  assert (Hh : display_only (hide_other menuId)) by apply display_only_hide_other.
  unfold props_at, update_props.
  rewrite node_at_everywhere by (intros p; apply at_ref_nid; apply with_display_nid).
  unfold node_at in *. rewrite Hdoc.
  rewrite find_node_map_props by (intros p; apply Hh).
  rewrite Hnode. cbn [option_map map_props props_of].
  rewrite hide_other_target by (apply (by_id_found _ _ _ Hfind)).
  unfold at_ref. rewrite Nat.eqb_refl. reflexivity.
Qed.

Lemma toggle_without_content_area_witness :
  well_formed odd = true /\
  exists pg',
    toggleCollectionsMenu "collections-menu-3" odd
    = (Throw TypeError, pg', [StopPropagation]) /\
    option_map display (props_at 4 pg') = Some "block".
Proof.
  assert (Hwf : well_formed odd = true) by run_here.
  split; [exact Hwf|].
  assert (H : exists pt kt,
             by_id "collections-menu-3" (document odd) = Some pt /\
             node_at (nid pt) odd = Some (Elem pt kt) /\
             querySelector_class "collections-menu-content" (Elem pt kt) = None /\
             display pt = EmptyString /\ nid pt = 4).
  { do 2 eexists. split; [run_here|]. split; [run_here|]. split; [run_here|].
    split; run_here. }
  destruct H as (pt & kt & H1 & H2 & H3 & H4 & H5).
  assert (Hd : display pt <> "block") by (rewrite H4; discriminate).
  destruct (toggle_without_content_area "collections-menu-3" odd pt kt Hwf H1 H2 H3 Hd)
    as (pg' & Hrun & Hp).
  exists pg'. split; [exact Hrun|]. rewrite H5 in Hp. rewrite Hp. reflexivity.
Defined.

(** X5: closing an open menu through toggleCollectionsMenu leaves no
    menu open at all, on a page with distinct ids where at most one menu
    was open. *)
Theorem closing_leaves_no_menu_open (menuId : string) (pg : page) (t c : ref)
    (loaded : bool) :
  invariant pg ->
  menu_state menuId pg t c true loaded ->
  visible_menus (page_after (toggleCollectionsMenu menuId pg)) = [] /\
  filter is_fetch (effects (toggleCollectionsMenu menuId pg)) = [].
Proof.
  intros Hinv Hst. split; [exact (closed_after_closing menuId pg t c loaded Hinv Hst)|].
  destruct (toggle_closes menuId pg t c loaded Hst) as (pg' & Hrun & _).
  rewrite Hrun. reflexivity.
Qed.

Lemma closing_leaves_no_menu_open_witness :
  invariant opened /\
  List.length (visible_menus opened) = 1 /\
  visible_menus (page_after (toggleCollectionsMenu "collections-menu-12" opened)) = [].
Proof.
  assert (Hinv : invariant opened).
  { split; [run_here|]. split; [run_here|]. unfold at_most_one_visible.
    vm_compute. lia. }
  assert (Hst : menu_state "collections-menu-12" opened 9 10 true false) by state_here.
  split; [exact Hinv|]. split; [run_here|].
  exact (proj1 (closing_leaves_no_menu_open "collections-menu-12" opened 9 10 false
                  Hinv Hst)).
Defined.

(** X6: a menu that is closed and opened again while its first request
    is still pending sends the same request a second time: of three
    toggles of a menu that is not loaded, the first and the third each
    emit the GET request, and both handlers wait for their response. *)
Theorem reopening_while_pending_fetches_again (menuId : string) (pg : page) (t c : ref) :
  menu_state menuId pg t c false false ->
  let k := AwaitStatus c (pop (split "-" menuId)) in
  let rq := Fetch (status_request (pop (split "-" menuId))) k in
  let w := run_events [Toggle menuId; Toggle menuId; Toggle menuId] (World pg [] []) in
  trace w = [StopPropagation; rq; StopPropagation; StopPropagation; rq] /\
  pending w = [k; k] /\
  menu_state menuId (page_of w) t c true false.
Proof.
  intros H0 k rq w.
  destruct (toggle_fetches menuId pg t c H0) as (pg1 & Hrun1 & H1 & _).
  destruct (toggle_closes menuId pg1 t c false H1) as (pg2 & Hrun2 & H2).
  destruct (toggle_fetches menuId pg2 t c H2) as (pg3 & Hrun3 & H3 & _).
  assert (E1 : step (World pg [] []) (Toggle menuId) = World pg1 [k] [StopPropagation; rq]).
  { cbn [step]. unfold run. cbn [page_of pending trace]. rewrite Hrun1. reflexivity. }
  assert (E2 : step (World pg1 [k] [StopPropagation; rq]) (Toggle menuId)
               = World pg2 [k] [StopPropagation; rq; StopPropagation]).
  { cbn [step]. unfold run. cbn [page_of pending trace]. rewrite Hrun2. reflexivity. }
  assert (E3 : step (World pg2 [k] [StopPropagation; rq; StopPropagation]) (Toggle menuId)
               = World pg3 [k; k]
                   [StopPropagation; rq; StopPropagation; StopPropagation; rq]).
  { cbn [step]. unfold run. cbn [page_of pending trace]. rewrite Hrun3. reflexivity. }
  assert (E : w = World pg3 [k; k]
                    [StopPropagation; rq; StopPropagation; StopPropagation; rq]).
  { unfold w, run_events. cbn [fold_left]. rewrite E1, E2, E3. reflexivity. }
  rewrite E. cbn [trace pending page_of]. auto.
Qed.

Lemma reopening_while_pending_fetches_again_witness :
  menu_state "collections-menu-12" home 9 10 false false /\
  pending (run_events [Toggle "collections-menu-12"; Toggle "collections-menu-12";
                       Toggle "collections-menu-12"] (World home [] []))
  = [AwaitStatus 10 (Some "12"); AwaitStatus 10 (Some "12")].
Proof.
  assert (H : menu_state "collections-menu-12" home 9 10 false false) by state_here.
  split; [exact H|].
  destruct (reopening_while_pending_fetches_again "collections-menu-12" home 9 10 H)
    as (_ & Hpending & _).
  exact Hpending.
Defined.

(** ** Requests that settle *)


(** X8: on a response whose status is not ok the body is not looked at:
    whatever it holds, the error that is logged is HTTP error! Status:
    {code}, the menu content becomes the error message, and the action
    handler shows its alert. *)
Theorem http_error_ignores_body (contentDiv target : ref) (act : action)
    (articleId collectionId : option string) (code : nat) (data : option payload)
    (pg : page) :
  resume_status contentDiv articleId (Responded false code data) pg
  = (Return tt, replace_children contentDiv [error_markup] pg,
     [ConsoleError "Error fetching collections:"
                   (Error ("HTTP error! Status: " ++ of_nat code))]) /\
  resume_action target act collectionId articleId (Responded false code data) pg
  = (Return tt, pg,
     [ConsoleError ("Error with " ++ action_name act ++ " action:")
                   (Error ("HTTP error! Status: " ++ of_nat code));
      Alert ("Failed to " ++ action_name act ++ " article.")]).
Proof.
  split.
  - exact (resume_status_fails contentDiv articleId (Responded false code data) pg eq_refl).
  - exact (resume_action_fails target act collectionId articleId
             (Responded false code data) pg eq_refl).
Qed.

(** ** Clicks on odd buttons *)

(** X9: a click on a button that has both classes, btn-add-to-collection
    and btn-remove-from-collection, is a remove: the second test
    overrides the first, and the request goes to
    /collection/{collectionId}/remove_article. *)
Theorem remove_wins_over_add (target : ref) (pg : page) (pb : props) (kb : list node) :
  lookup target pg = Some (Elem pb kb) ->
  has_class "btn-add-to-collection" pb = true ->
  has_class "btn-remove-from-collection" pb = true ->
  exists rq,
    onClick target pg
    = (Return tt, pg,
       [PreventDefault;
        Fetch rq (AwaitAction target Remove (dataset_get "collection-id" pb)
                              (dataset_get "article-id" pb))]) /\
    url rq = "/collection/" ++ interp (dataset_get "collection-id" pb) ++ "/remove_article" /\
    meth rq = POST.
Proof.
  intros Hl Hadd Hremove.
  assert (Hact : action_of pb = Some Remove) by (unfold action_of; rewrite Hremove; reflexivity).
  rewrite (onClick_action target pg pb kb Remove Hl Hact).
  eexists. split; [reflexivity|]. split; reflexivity.
Qed.

Lemma remove_wins_over_add_witness :
  exists rq k,
    onClick 2 odd = (Return tt, odd, [PreventDefault; Fetch rq k]) /\
    url rq = "/collection/5/remove_article".
Proof.
  assert (H : exists pb kb,
             lookup 2 odd = Some (Elem pb kb) /\
             has_class "btn-add-to-collection" pb = true /\
             has_class "btn-remove-from-collection" pb = true /\
             dataset_get "collection-id" pb = Some "5")
    by (do 2 eexists; split; [run_here|split; [run_here|split; run_here]]).
  destruct H as (pb & kb & H1 & H2 & H3 & H4).
  destruct (remove_wins_over_add 2 odd pb kb H1 H2 H3) as (rq & Hrun & Hurl & _).
  rewrite H4 in Hurl. exists rq. eexists. split; [exact Hrun|exact Hurl].
Defined.

(** X10: a click on an add or remove button that has neither
    data-collection-id nor data-article-id still sends the request: its
    URL holds the text undefined in place of the collection id, and its
    body is the empty object. *)
Theorem action_without_data_attributes (target : ref) (pg : page) (pb : props)
    (kb : list node) (act : action) :
  lookup target pg = Some (Elem pb kb) ->
  action_of pb = Some act ->
  dataset_get "collection-id" pb = None ->
  dataset_get "article-id" pb = None ->
  onClick target pg
  = (Return tt, pg,
     [PreventDefault;
      Fetch (Request ("/collection/undefined/" ++ action_name act ++ "_article") POST
                     [("Content-Type", "application/json");
                      ("X-Requested-With", "XMLHttpRequest")]
                     (Some []))
            (AwaitAction target act None None)]).
Proof.
  intros Hl Hact Hcid Haid.
  rewrite (onClick_action target pg pb kb act Hl Hact), Hcid, Haid. reflexivity.
Qed.

Lemma action_without_data_attributes_witness :
  exists k,
    onClick 3 odd
    = (Return tt, odd,
       [PreventDefault;
        Fetch (Request "/collection/undefined/add_article" POST
                       [("Content-Type", "application/json");
                        ("X-Requested-With", "XMLHttpRequest")]
                       (Some []))
              k]).
Proof.
  assert (H : exists pb kb,
             lookup 3 odd = Some (Elem pb kb) /\ action_of pb = Some Add /\
             dataset_get "collection-id" pb = None /\
             dataset_get "article-id" pb = None)
    by (do 2 eexists; split; [run_here|split; [run_here|split; run_here]]).
  destruct H as (pb & kb & H1 & H2 & H3 & H4).
  eexists. exact (action_without_data_attributes 3 odd pb kb Add H1 H2 H3 H4).
Defined.

(** X11: when an action is confirmed by the server but the row of the
    button has no span:first-child to read the collection name from, the
    handler fails as for a failed request: the TypeError is logged, the
    alert Failed to {action} article. is shown, and the button is left as
    it was. *)
Theorem confirmed_action_without_name (target : ref) (act : action)
    (collectionId articleId : option string) (code : nat) (d : payload) (pg : page)
    (ch ch2 : list props) (pbc row : props) (n : node) :
  chain_in target pg = Some ch ->
  find (has_class "collection-action-button") ch = Some pbc ->
  chain_in (nid pbc) pg = Some ch2 ->
  find (has_class "collection-entry") ch2 = Some row ->
  lookup (nid row) pg = Some n ->
  querySelector_span_first_child n = None ->
  status d = "ok" ->
  resume_action target act collectionId articleId (Responded true code (Some d)) pg
  = (Return tt, pg,
     [ConsoleError ("Error with " ++ action_name act ++ " action:") TypeError;
      Alert ("Failed to " ++ action_name act ++ " article.")]).
Proof.
  intros Hch Hbc Hch2 Hrow Hn Hspan Hok. unfold resume_action.
  assert (Hbody : bind (json_of (Responded true code (Some d)))
                    (fun data => if status data =? "ok"
                                 then patch_button target act collectionId articleId
                                 else throw (Error (message_or data "Action failed."))) pg
                  = (Throw TypeError, pg, [])).
  { rewrite (try_block_ok code d _ _ pg Hok).
    exact (patch_button_no_span target act collectionId articleId pg ch ch2 pbc row n
             Hch Hbc Hch2 Hrow Hn Hspan). }
  rewrite (try_catch_throws _ _ _ _ _ _ Hbody). reflexivity.
Qed.

Lemma confirmed_action_without_name_witness :
  resume_action 8 Add (Some "3") (Some "12") ok_action odd
  = (Return tt, odd,
     [ConsoleError "Error with add action:" TypeError; Alert "Failed to add article."]).
Proof.
  assert (H : exists ch ch2 pbc row n,
             chain_in 8 odd = Some ch /\
             find (has_class "collection-action-button") ch = Some pbc /\
             chain_in (nid pbc) odd = Some ch2 /\
             find (has_class "collection-entry") ch2 = Some row /\
             lookup (nid row) odd = Some n /\
             querySelector_span_first_child n = None).
  { do 5 eexists. split; [run_here|]. split; [run_here|]. split; [run_here|].
    split; [run_here|]. split; run_here. }
  destruct H as (ch & ch2 & pbc & row & n & H1 & H2 & H3 & H4 & H5 & H6).
  exact (confirmed_action_without_name 8 Add (Some "3") (Some "12") 200
           (Payload "ok" None None) odd ch ch2 pbc row n H1 H2 H3 H4 H5 H6 eq_refl).
Defined.

(** ** Twice the same *)

(** X12: toggleDateFilters twice gives the document back: on a region
    that is closed (display 'none', icon '+') or open (display 'block',
    icon '-'), the first call switches the display and the icon text,
    and the second call restores the document as it was. *)
Theorem date_filters_round_trip (pg : page) (region icon : props) (open : bool) :
  well_formed pg = true ->
  by_id "date-filter-content" (document pg) = Some region ->
  descendant_of_class "date-filter-toggle" "toggle-icon" false (document pg) = Some icon ->
  display region = (if open then "block" else "none") ->
  node_at (nid icon) pg = Some (Elem icon [Text (if open then "-" else "+")]) ->
  exists pg1 pg2,
    toggleDateFilters pg = (Return tt, pg1, []) /\
    props_at (nid region) pg1
    = Some (with_display (if open then "none" else "block") region) /\
    content_at (nid icon) pg1 = Some [MText (if open then "+" else "-")] /\
    toggleDateFilters pg1 = (Return tt, pg2, []) /\
    document pg2 = document pg.
Proof.
  intros Hwf Hregion Hicon Hd Hnode.
  set (d1 := switched (display region)). set (t1 := sign (display region)).
  set (g1 := at_ref (nid region) (with_display d1)).
  pose proof (toggleDateFilters_once pg region icon Hwf Hregion Hicon) as Hrun1.
  destruct (toggleDateFilters_next pg region icon _ d1 t1 Hwf Hregion Hicon Hnode)
    as (Hwf1 & Hdoc1 & Hby1 & Hdesc1 & Hnode1 & Hprops1).
  fold d1 t1 in Hrun1. fold g1 in Hdoc1, Hdesc1, Hnode1.
  set (pg1 := replace_children (nid icon) [MText t1]
                (everywhere (update_props (nid region) (with_display d1)) pg)) in *.
  assert (Ei : nid (g1 icon) = nid icon).
  { unfold g1. apply at_ref_nid. apply with_display_nid. }
  rewrite <- Ei in Hnode1.
  pose proof (toggleDateFilters_once pg1 _ _ Hwf1 Hby1 Hdesc1) as Hrun2.
  destruct (toggleDateFilters_next pg1 _ _ _ (switched d1) (sign d1) Hwf1 Hby1 Hdesc1 Hnode1)
    as (_ & Hdoc2 & _).
  cbn [display with_display nid] in Hrun2, Hdoc2.
  exists pg1. eexists. split; [exact Hrun1|].
  split; [rewrite Hprops1; unfold d1; rewrite Hd; destruct open; reflexivity|].
  split.
  { unfold content_at. rewrite Ei in Hnode1. rewrite Hnode1. unfold t1. rewrite Hd.
    destruct open; reflexivity. }
  split; [exact Hrun2|].
  rewrite Hdoc2, Hdoc1, Ei.
  rewrite map_props_set_kids
    by (intros p; apply at_ref_nid; apply with_display_nid).
  cbn [map map_props]. rewrite set_kids_twice, map_props_compose.
  pose proof Hwf as Hnd. apply well_formed_spec in Hnd. destruct Hnd as (Hnd & _).
  destruct (by_id_found _ _ _ Hregion) as (_ & Hin & _).
  rewrite map_props_id.
  - replace (sign d1) with (if open then "-" else "+")
      by (unfold d1; rewrite Hd; destruct open; reflexivity).
    exact (set_kids_same _ _ _ _ Hnd Hnode).
  - intros p Hp. unfold g1, at_ref. cbn [nid with_display].
    destruct (Nat.eqb_spec (nid p) (nid region)) as [E|E].
    + cbn [nid with_display]. rewrite E, Nat.eqb_refl.
      assert (p = region) by (apply (same_nid (elems (document pg))); assumption).
      subst p. rewrite with_display_twice.
      replace (switched d1) with (display region)
        by (unfold d1; rewrite Hd; destruct open; reflexivity).
      apply with_display_same.
    + apply Nat.eqb_neq in E. rewrite E. reflexivity.
Qed.

Lemma date_filters_round_trip_witness :
  well_formed home = true /\
  exists pg1 pg2,
    toggleDateFilters home = (Return tt, pg1, []) /\
    content_at 5 pg1 = Some [MText "-"] /\
    toggleDateFilters pg1 = (Return tt, pg2, []) /\
    document pg2 = document home.
Proof.
  assert (Hwf : well_formed home = true) by run_here.
  split; [exact Hwf|].
  assert (H : exists region icon,
             by_id "date-filter-content" (document home) = Some region /\
             descendant_of_class "date-filter-toggle" "toggle-icon" false (document home)
             = Some icon /\
             display region = "none" /\
             node_at (nid icon) home = Some (Elem icon [Text "+"]) /\ nid icon = 5).
  { do 2 eexists. split; [run_here|]. split; [run_here|]. split; [run_here|].
    split; run_here. }
  destruct H as (region & icon & H1 & H2 & H3 & H4 & H5).
  destruct (date_filters_round_trip home region icon false Hwf H1 H2 H3 H4)
    as (pg1 & pg2 & Hrun1 & _ & Hc & Hrun2 & Hdoc).
  rewrite H5 in Hc.
  exists pg1, pg2. split; [exact Hrun1|]. split; [exact Hc|]. split; [exact Hrun2|exact Hdoc].
Defined.

(** ** After a button was swapped *)





(** ** Loads that settle late *)

(** X15: a failure that arrives for a menu whose content is already
    marked as loaded (the answer to a request sent before a repeated
    one succeeded) replaces the content by the error message and leaves
    the mark: from then on no toggle of the menu sends a request, so the
    error message stays. *)
Theorem late_failure_after_success_sticks (menuId : string) (pg : page) (t c : ref)
    (open : bool) (articleId : option string) (o : outcome) :
  menu_state menuId pg t c open true ->
  fails o = true ->
  exists pg',
    resume_status c articleId o pg
    = (Return tt, pg',
       [ConsoleError "Error fetching collections:"
                     (failure "Failed to load collections." o)]) /\
    content_at c pg' = Some [error_markup] /\
    menu_state menuId pg' t c open true /\
    forall n, filter is_fetch
                (trace (run_events (repeat (Toggle menuId) n) (World pg' [] []))) = [].
Proof.
  intros H Hfail.
  exists (replace_children c [error_markup] pg).
  destruct (menu_state_content menuId pg t c open true H) as (pc & kc & Hc & _).
  pose proof (menu_state_failed menuId pg t c open true [error_markup] H) as H'.
  split; [apply resume_status_fails; exact Hfail|].
  split; [exact (content_at_replace_children c [error_markup] pg pc kc Hc)|].
  split; [exact H'|].
  intros n. exact (toggles_emit_no_fetch menuId t c n (World _ [] []) open H').
Qed.

Lemma late_failure_after_success_sticks_witness :
  menu_state "collections-menu-12" loaded 9 10 true true /\
  exists pg',
    page_after (resume_status 10 (Some "12") server_error loaded) = pg' /\
    content_at 10 pg' = Some [error_markup] /\
    menu_state "collections-menu-12" pg' 9 10 true true.
Proof.
  assert (H : menu_state "collections-menu-12" loaded 9 10 true true) by state_here.
  split; [exact H|].
  destruct (late_failure_after_success_sticks "collections-menu-12" loaded 9 10 true
              (Some "12") server_error H eq_refl) as (pg' & Hrun & Hc & Hst & _).
  exists pg'. split; [rewrite Hrun; reflexivity|]. split; [exact Hc|exact Hst].
Defined.

(** X16: whatever the response, the handler of a settled
    collections_status request changes the document in its content area
    only: every element that neither holds the content area nor lies in
    it is found as it was, with all that is below it. *)
Theorem settled_load_changes_its_content_only (c : ref) (articleId : option string)
    (o : outcome) (pg : page) (x : ref) (sub : node) :
  well_formed pg = true ->
  node_at x pg = Some sub ->
  ~ In c (nids sub) ->
  inside x c pg = false ->
  node_at x (page_after (resume_status c articleId o pg)) = Some sub.
Proof.
  intros Hwf Hx Hout Hbelow.
  destruct (fails o) eqn:Hfail.
  - rewrite (resume_status_fails c articleId o pg Hfail). cbn [page_after fst snd].
    exact (node_at_replace_children_apart x c _ pg sub Hwf Hx Hout Hbelow).
  - destruct o as [reason|ok code data]; [discriminate|].
    destruct ok; [|discriminate]. destruct data as [d|]; [|discriminate].
    cbn [fails negb orb] in Hfail. apply negb_false_iff in Hfail.
    apply String.eqb_eq in Hfail.
    rewrite (resume_status_ok c articleId code d pg Hfail). cbn [page_after fst snd].
    unfold update_props.
    rewrite node_at_everywhere by (intros p; apply at_ref_nid; apply with_attr_nid).
    rewrite (node_at_replace_children_apart x c _ pg sub Hwf Hx Hout Hbelow).
    cbn [option_map]. f_equal. apply map_props_id. intros p Hp. unfold at_ref.
    destruct (Nat.eqb_spec (nid p) c) as [E|E]; [|reflexivity].
    exfalso. apply Hout. rewrite <- E. unfold nids. apply in_map. exact Hp.
Qed.

Lemma settled_load_changes_its_content_only_witness :
  well_formed opened = true /\
  node_at 13 (page_after (resume_status 10 (Some "12") ok_status opened))
  = node_at 13 opened.
Proof.
  assert (Hwf : well_formed opened = true) by run_here.
  split; [exact Hwf|].
  assert (H : exists sub, node_at 13 opened = Some sub /\ ~ In 10 (nids sub)).
  { eexists. split; [run_here|]. vm_compute. intuition discriminate. }
  destruct H as (sub & Hsub & Hout).
  rewrite Hsub.
  exact (settled_load_changes_its_content_only 10 (Some "12") ok_status opened 13 sub
           Hwf Hsub Hout eq_refl).
Defined.

End Behaviour.
